(** * GpuIndex: host-side orchestration of insert and search

    A shallow embedding of [faiss/gpu/GpuIndex.cu]: index metadata and its
    snapshot copies, the insert path ([add_with_ids], [addPaged_],
    [addPage_]), the search path ([search], [searchNonPaged_],
    [searchFromCpuPaged_]) with its sequential paging loop and its
    double-buffered pipeline, the latter both as the sequence of operations
    the host issues and as the two device streams run them.

    Conventions of the embedding.
    - [idx_t] is a 64-bit signed integer, [size_t] a 64-bit unsigned one and
      [int] a 32-bit signed one; they are values of [Z] and every conversion
      or operation that can leave the range is wrapped by [to_idx_t],
      [to_size_t] or [to_int].
    - A tensor of shape {n, d} (queries, database vectors) or {n, k}
      (distances, labels) is the list of its rows.  The source states all its
      offsets in numbers of vectors; the pointer [x + cur * d] is the buffer
      [x] advanced by [cur] rows.
    - Functions of the class run in the monad [M]: they read and update the
      index object and append to a trace of the interactions with the device
      and with the implementation; a thrown exception keeps the state reached
      so far.
    - The functions in [M] give the work queued on the device (copies, calls
      of the implementation) in the order in which the host issues it, and
      its effect when it runs in that order; of the completion events they
      keep only the existence, for the assertion of the compute stage.  The
      module [Streams] gives the pipeline with its two streams, its events
      and its waits, where the host and the streams advance in any order the
      waits allow.
    - The divisions of the source are divisions of [size_t] by
      [d * sizeof(data_t)] or by [get_numeric_type_size(numeric_type) * d];
      they trap when the divisor is zero, where the division of [Z] returns
      zero.  The embedding follows the code for [0 < d] and an element size
      [0 < s], which the statements about page and tile sizes and about
      successful inserts and searches assume.
    - [search] and [assign] shape their output tensors {n, k} with the
      64-bit [k], and validate and search with [(int)k].  Rows are kept
      whole here and a tensor is requested by its number of rows, so the
      embedding follows the code for [k = to_int k] and [0 <= n], which the
      statements about searches that get past the validation of [k]
      assume. *)

From Stdlib Require Import ZArith List Bool Lia.
Import ListNotations.
Local Open Scope Z_scope.

(** ** Machine integers *)

Definition to_size_t (z : Z) : Z := z mod 2 ^ 64.
Definition to_idx_t (z : Z) : Z := (z + 2 ^ 63) mod 2 ^ 64 - 2 ^ 63.
Definition to_int (z : Z) : Z := (z + 2 ^ 31) mod 2 ^ 32 - 2 ^ 31.

Definition idx_max : Z := 2 ^ 63 - 1.
Definition int_max : Z := 2 ^ 31 - 1.

(** ** Constants of the file *)

Definition kMinPageSize : Z := 256 * 1024 * 1024.
Definition kNonPinnedPageSize : Z := 256 * 1024 * 1024.
Definition kAddPageSize : Z := 256 * 1024 * 1024.
Definition kAddVecSize : Z := 512 * 1024.
Definition kSearchVecSize : Z := 32 * 1024.

(** ** Element encodings *)

(** Modelled from the spec: the element-encoding tag [NumericType], declared
    in faiss/Index.h.  Supported encodings are 32-bit float, 16-bit float and
    8-bit signed integer; the code names these three enumerators and ends its
    dispatches with an [else] branch, and [UnknownNumeric] stands for any
    other value of the tag. *)
Inductive NumericType : Type :=
| Float32
| Float16
| Int8
| UnknownNumeric (tag : Z).

(** The element type a dispatch lambda is instantiated at. *)
Inductive data_t : Type := float | half | int8_t.

Definition sizeof (t : data_t) : Z :=
  match t with float => 4 | half => 2 | int8_t => 1 end.

(** The if / else-if chain that ends the dispatching functions: [None] is the
    final [else]. *)
Definition dispatch_type (numeric_type : NumericType) : option data_t :=
  match numeric_type with
  | Float32 => Some float
  | Float16 => Some half
  | Int8 => Some int8_t
  | UnknownNumeric _ => None
  end.

(** ** Data *)

(** One vector: its [d] elements, each as the bit pattern of its encoding. *)
Definition Vec : Type := list Z.
(** One row of [k] distances (bit patterns of 32-bit floats) and one row of
    [k] labels. *)
Definition DistRow : Type := list Z.
Definition LabelRow : Type := list Z.

(** A pointer to rows: the device the address belongs to ([-1] for host
    memory, as [getDeviceForAddress] reports it) and the rows it points at. *)
Record Buffer (A : Type) : Type := mkBuffer {
  residence : Z;
  cells : list A
}.
Arguments mkBuffer {A} _ _.
Arguments residence {A} _.
Arguments cells {A} _.

Definition getDeviceForAddress {A} (p : Buffer A) : Z := residence p.

(** [p + i] in units of rows. *)
Definition advance {A} (p : Buffer A) (i : Z) : Buffer A :=
  mkBuffer (residence p) (skipn (Z.to_nat i) (cells p)).

(** The first [n] rows behind a pointer. *)
Definition rows {A} (n : Z) (p : Buffer A) : list A :=
  firstn (Z.to_nat n) (cells p).

(** ** Index metadata and configuration *)

(** Modelled from the spec: the Mirror Metadata, [faiss::Index] of
    faiss/Index.h, a plain host-resident struct with the fields of the Index
    Metadata: dimensionality, distance metric identifier, metric-specific
    scalar argument, total stored vector count, trained flag. *)
Record Index : Type := mkIndex {
  d : Z;
  metric_type : Z;
  metric_arg : Z;
  ntotal : Z;
  is_trained : bool
}.

(** Modelled from the spec: the Device Capability Configuration,
    [GpuIndexConfig] of GpuIndex.h, reduced to what the operations read: the
    device identifier and the flag that requests the alternative compute
    backend. *)
Record GpuIndexConfig : Type := mkConfig {
  device : Z;
  use_cuvs : bool
}.

(** Modelled from the spec: the Resource Pool, [GpuResources], as far as the
    operations consult it: the optional pinned staging memory with its
    capacity, as [getPinnedMemory] returns it (is the pointer non-null, and
    the capacity in bytes), and the stale rows found in the two halves of
    that region and in two freshly reserved device buffers. *)
Record GpuResources : Type := mkResources {
  getPinnedMemory : bool * Z;
  pinnedContents : list Vec * list Vec;
  tempContents : list Vec * list Vec
}.

Record GpuIndex : Type := mkGpuIndex {
  base : Index;
  resources_ : GpuResources;
  config_ : GpuIndexConfig;
  minPagedSize_ : Z
}.

(** ** Errors, events and the monad *)

Inductive Error : Type :=
| NotTrained
| UnsupportedEncoding
| InvalidK
| AllocationFailure
| AssertionFailure
| ElementSizeError
| OutOfFuel.

Inductive Result (A : Type) : Type :=
| Ok (a : A)
| Throw (e : Error).
Arguments Ok {A} _.
Arguments Throw {A} _.

(** What the code does to the outside: copies between memories and calls of
    the implementation. *)
Inductive Event : Type :=
| EvToDevice (n : Z)
| EvFromDevice (n : Z)
| EvCopyToPinned (buf : Z) (cur : Z) (num : Z)
| EvCopyPinnedToGpu (buf : Z) (num : Z)
| EvAddImpl (n : Z) (vecs : list Vec) (numeric_type : NumericType)
            (ids : option (list Z))
| EvSearchImpl (n : Z) (vecs : list Vec) (numeric_type : NumericType)
               (k : Z) (cur : Z).

Record World : Type := mkWorld {
  self : GpuIndex;
  trace : list Event
}.

Definition M (A : Type) : Type := World -> Result A * World.

Definition ret {A} (a : A) : M A := fun w => (Ok a, w).
Definition throw {A} (e : Error) : M A := fun w => (Throw e, w).
Definition bind {A B} (m : M A) (f : A -> M B) : M B :=
  fun w => match m w with
           | (Ok a, w') => f a w'
           | (Throw e, w') => (Throw e, w')
           end.

Notation "x <- c ;; k" := (bind c (fun x => k))
  (at level 61, c at next level, right associativity).
Notation "c ;;; k" := (bind c (fun _ => k))
  (at level 61, right associativity).

Definition this : M GpuIndex := fun w => (Ok (self w), w).
Definition emit (e : Event) : M unit :=
  fun w => (Ok tt, mkWorld (self w) (trace w ++ [e])).
Definition set_ntotal (v : Z) : M unit :=
  fun w =>
    let g := self w in
    let b := base g in
    (Ok tt,
     mkWorld
       (mkGpuIndex
          (mkIndex (d b) (metric_type b) (metric_arg b) v (is_trained b))
          (resources_ g) (config_ g) (minPagedSize_ g))
       (trace w)).

(** ** Metadata snapshots *)

Definition copyFrom (g : GpuIndex) (index : Index) : GpuIndex :=
  mkGpuIndex
    (mkIndex (d index) (metric_type index) (metric_arg index) (ntotal index)
       (is_trained index))
    (resources_ g) (config_ g) (minPagedSize_ g).

Definition copyTo (g : GpuIndex) (index : Index) : Index :=
  mkIndex (d (base g)) (metric_type (base g)) (metric_arg (base g))
    (ntotal (base g)) (is_trained (base g)).

(** The two member functions as actions on the index object. *)
Definition GpuIndex_copyFrom (index : Index) : M unit :=
  fun w => (Ok tt, mkWorld (copyFrom (self w) index) (trace w)).

Definition GpuIndex_copyTo (index : Index) : M Index :=
  fun w => (Ok (copyTo (self w) index), w).



(** ** Collaborators declared outside GpuIndex.cu *)

(** Modelled from the spec: the Residency Bridge, [toDeviceTemporary] of
    CopyUtils.cuh.  A pointer that already refers to memory of the target
    device is returned as a view, anything else is copied into a transient
    device buffer of the requested shape. *)
Definition toDeviceTemporary {A} (dstDevice : Z) (src : Buffer A) (n : Z)
  : M (Buffer A) :=
  if getDeviceForAddress src =? dstDevice
  then ret src
  else emit (EvToDevice n) ;;; ret (mkBuffer dstDevice (rows n src)).

(** Modelled from the spec: [addImpl_], the pure virtual insert of the
    implementation.  It receives device-resident vectors and identifiers,
    stores the [n] vectors and, on success, increases the total count by
    [n]. *)
Definition addImpl_ (n : Z) (x : Buffer Vec) (numeric_type : NumericType)
    (ids : option (Buffer Z)) : M unit :=
  emit (EvAddImpl n (rows n x) numeric_type (option_map (rows n) ids)) ;;;
  g <- this ;;
  set_ntotal (ntotal (base g) + n).

Section Orchestrator.

(** [getDeviceProperties(device).major]. *)
Variable deviceMajor : Z -> Z.
(** [addImplRequiresIDs_()], a virtual of the implementation. *)
Variable addImplRequiresIDs_ : bool.

Definition should_use_cuvs (config : GpuIndexConfig) : bool :=
  if deviceMajor (device config) <? 7 then false else use_cuvs config.

(** ** Insert *)

Definition addPage_ (n : Z) (x : Buffer Vec) (numeric_type : NumericType)
    (ids : option (Buffer Z)) : M unit :=
  match dispatch_type numeric_type with
  | Some _ =>
      g <- this ;;
      vecs <- toDeviceTemporary (device (config_ g)) x n ;;
      match ids with
      | Some p =>
          indices <- toDeviceTemporary (device (config_ g)) p n ;;
          addImpl_ n vecs numeric_type (Some indices)
      | None => addImpl_ n vecs numeric_type None
      end
  | None => throw UnsupportedEncoding
  end.

(** [for (idx_t i = 0; i < n; i += tileSize)] of [addPaged_]. *)
Fixpoint addPaged_loop (fuel : nat) (n : Z) (x : Buffer Vec)
    (numeric_type : NumericType) (ids : option (Buffer Z)) (tileSize : Z)
    (i : Z) : M unit :=
  if i <? n then
    match fuel with
    | O => throw OutOfFuel
    | S fuel' =>
        let curNum := Z.min tileSize (n - i) in
        addPage_ curNum (advance x i) numeric_type
          (option_map (fun p => advance p i) ids) ;;;
        addPaged_loop fuel' n x numeric_type ids tileSize
          (to_idx_t (i + tileSize))
    end
  else ret tt.

(** [tileSize] of [addPaged_].  The source divides [kAddPageSize] by
    [(size_t)this->d * sizeof(data_t)], which traps when [d] is zero; this
    is the code's tile size for [0 < d]. *)
Definition addPaged_tileSize (n dim : Z) (t : data_t) : Z :=
  let maxNumVecsForPageSize :=
    to_idx_t (to_size_t kAddPageSize / to_size_t (to_size_t dim * sizeof t)) in
  let maxNumVecsForPageSize := Z.max maxNumVecsForPageSize 1 in
  let tileSize := Z.min n maxNumVecsForPageSize in
  Z.min tileSize kSearchVecSize.

Definition addPaged_ (n : Z) (x : Buffer Vec) (numeric_type : NumericType)
    (ids : option (Buffer Z)) : M unit :=
  if n <=? 0 then ret tt
  else
    match dispatch_type numeric_type with
    | Some t =>
        g <- this ;;
        let totalSize :=
          to_idx_t (to_size_t (to_idx_t (n * d (base g)) * sizeof t)) in
        if negb (should_use_cuvs (config_ g)) &&
           ((kAddPageSize <? totalSize) || (kAddVecSize <? n))
        then
          let tileSize := addPaged_tileSize n (d (base g)) t in
          addPaged_loop (Z.to_nat n) n x numeric_type ids tileSize 0
        else addPage_ n x numeric_type ids
    | None => throw UnsupportedEncoding
    end.

(** [std::vector<idx_t> generatedIds(n)] filled with [ntotal + i]. *)
Definition generateIds (total n : Z) : list Z :=
  map (fun i => to_idx_t (total + Z.of_nat i)) (seq 0 (Z.to_nat n)).

(** [generatedIds.data()]: null for the empty vector. *)
Definition vector_data (v : list Z) : option (Buffer Z) :=
  match v with
  | [] => None
  | _ => Some (mkBuffer (-1) v)
  end.

Definition add_with_ids (n : Z) (x : Buffer Vec) (numeric_type : NumericType)
    (ids : option (Buffer Z)) : M unit :=
  g <- this ;;
  if negb (is_trained (base g)) then throw NotTrained
  else if n =? 0 then ret tt
  else
    generatedIds <-
      (match ids with
       | None =>
           if addImplRequiresIDs_
           then if n <? 0 then throw AllocationFailure
                else ret (generateIds (ntotal (base g)) n)
           else ret []
       | Some _ => ret []
       end) ;;
    addPaged_ n x numeric_type
      (match ids with
       | Some p => Some p
       | None => vector_data generatedIds
       end).

Definition add (n : Z) (x : Buffer Vec) (numeric_type : NumericType)
  : M unit :=
  add_with_ids n x numeric_type None.

(** ** Search *)

(** [get_numeric_type_size] of faiss/Index.h: the size in bytes of one
    element of an encoding, or the error it raises.  It is a parameter of
    the development. *)
Variable get_numeric_type_size : NumericType -> Result Z.
(** [getMaxKSelection(use_cuvs)], the largest [k] of the selection backend. *)
Variable getMaxKSelection : bool -> Z.
(** What the implementation answers for one query vector: its row of [k]
    distances and its row of [k] labels. *)
Variable searchOne : NumericType -> Z -> Vec -> DistRow * LabelRow.

Definition lift {A} (r : Result A) : M A := fun w => (r, w).

(** Modelled from the spec: [validateKSelect] of IndexUtils, the check of [k]
    that precedes both search paths.  It fails with [InvalidK] if [k] is
    zero, negative, or exceeds the maximum supported by the active selection
    backend. *)
Definition validateKSelect (k : Z) (use_cuvs : bool) : M unit :=
  if (0 <? k) && (k <=? getMaxKSelection use_cuvs)
  then ret tt
  else throw InvalidK.

(** The device-side output tensors [outDistances] and [outIndices]. *)
Definition Out : Type := (list DistRow * list LabelRow)%type.

(** Rows [cur, cur + length new) of a tensor replaced by [new]: what a write
    through [narrowOutermost(cur, num)] does to the whole tensor. *)
Definition write_rows {A} (cur : Z) (new old : list A) : list A :=
  firstn (Z.to_nat cur) old ++ new ++
  skipn (Z.to_nat cur + length new) old.

(** A copy of [new] over the start of a buffer that holds [old]. *)
Definition store_rows {A} (new old : list A) : list A :=
  new ++ skipn (length new) old.

(** Modelled from the spec: [searchImpl_], the pure virtual search of the
    implementation.  It receives [n] device-resident query vectors and writes
    [n] rows of distances and labels; row [i] of the output corresponds to
    query [i] of the input.  The overload for [const float*] is the same
    function at [Float32]. *)
Definition searchImpl_ (n : Z) (x : Buffer Vec) (numeric_type : NumericType)
    (k : Z) (out : Out) (cur : Z) : M Out :=
  emit (EvSearchImpl n (rows n x) numeric_type k cur) ;;;
  let res := map (searchOne numeric_type k) (rows n x) in
  ret (write_rows cur (map fst res) (fst out),
       write_rows cur (map snd res) (snd out)).

(** Modelled from the spec: [fromDevice] of CopyUtils.cuh, the copy of a
    device tensor back into the caller's memory; nothing is copied when the
    tensor is a view of that memory. *)
Definition fromDevice {A} (dev : Z) (n : Z) (src : list A) (dst : Buffer A)
  : M (Buffer A) :=
  if getDeviceForAddress dst =? dev
  then ret (mkBuffer (residence dst) (store_rows src (cells dst)))
  else emit (EvFromDevice n) ;;;
       ret (mkBuffer (residence dst) (store_rows src (cells dst))).

(** Modelled from the spec: [utils::nextHighestPowerOf2] of StaticUtils.h,
    the rounding of the fallback page size to the next highest power of two:
    twice [v] when [v] is a power of two, else the power of two that follows
    [v]. *)
Definition isPowerOf2 (v : Z) : bool :=
  negb (v =? 0) && (Z.land v (v - 1) =? 0).

Definition nextHighestPowerOf2 (v : Z) : Z :=
  if isPowerOf2 v then to_size_t (2 * v)
  else to_size_t (Z.shiftl 1 (Z.log2 v + 1)).

Definition searchNonPaged_ (n : Z) (x : Buffer Vec)
    (numeric_type : NumericType) (k : Z) (out : Out) (cur : Z) : M Out :=
  g <- this ;;
  match numeric_type with
  | Float32 =>
      vecs <- toDeviceTemporary (device (config_ g)) x n ;;
      searchImpl_ n vecs Float32 k out cur
  | Float16 =>
      vecs <- toDeviceTemporary (device (config_ g)) x n ;;
      searchImpl_ n vecs numeric_type k out cur
  | Int8 =>
      vecs <- toDeviceTemporary (device (config_ g)) x n ;;
      searchImpl_ n vecs numeric_type k out cur
  | UnknownNumeric _ => throw UnsupportedEncoding
  end.

(** [pageSizeInVecs] of [searchFromCpuPaged_]: [capacity] is
    [pinnedAlloc.second], [s] the element size, [dim] the dimension.  The
    source traps when [s * d] is zero; this is the code's page size for
    [0 < s] and [0 < d]. *)
Definition pageSizeInVecs_of (capacity s dim : Z) : Z :=
  to_idx_t ((to_size_t capacity / 2) / to_size_t (s * to_size_t dim)).

(** [batchSize] of the unbuffered paging, for [0 < s] and [0 < d] as
    above. *)
Definition batchSize_of (s dim : Z) : Z :=
  to_idx_t
    (nextHighestPowerOf2
       (to_size_t kNonPinnedPageSize / to_size_t (s * to_size_t dim))).

(** [for (idx_t cur = 0; cur < n; cur += batchSize)]: paging without
    overlapping copy with compute.  The chain of tests on the encoding has no
    final [else]. *)
Fixpoint searchUnbuffered_loop (fuel : nat) (n : Z) (x : Buffer Vec)
    (numeric_type : NumericType) (k : Z) (batchSize : Z) (cur : Z) (out : Out)
  : M Out :=
  if cur <? n then
    match fuel with
    | O => throw OutOfFuel
    | S fuel' =>
        let num := Z.min batchSize (n - cur) in
        out' <-
          (match numeric_type with
           | Float32 =>
               searchNonPaged_ num (advance x cur) numeric_type k out cur
           | Float16 =>
               searchNonPaged_ num (advance x cur) numeric_type k out cur
           | Int8 =>
               searchNonPaged_ num (advance x cur) numeric_type k out cur
           | UnknownNumeric _ => ret out
           end) ;;
        searchUnbuffered_loop fuel' n x numeric_type k batchSize
          (to_idx_t (cur + batchSize)) out'
    end
  else ret out.

(** *** The pipeline over two pinned and two device buffers *)

Definition sel {A} (i : Z) (p : A * A) : A :=
  if i =? 0 then fst p else snd p.
Definition upd {A} (i : Z) (v : A) (p : A * A) : A * A :=
  if i =? 0 then (v, snd p) else (fst p, v).
Definition toggle (i : Z) : Z := if i =? 0 then 1 else 0.

(** The local variables of the dispatch lambda of [searchFromCpuPaged_]. *)
Record Pipeline : Type := mkPipeline {
  bufPinned : list Vec * list Vec;
  bufGpus : list Vec * list Vec;
  eventPinnedCopyDone : bool * bool;
  eventGpuExecuteDone : bool * bool;
  cur1 : Z;
  cur1BufIndex : Z;
  cur2 : Z;
  cur2BufIndex : Z;
  cur3 : Z;
  cur3BufIndex : Z;
  outs : Out
}.

Definition pipeline_init (res : GpuResources) (out : Out) : Pipeline :=
  mkPipeline (pinnedContents res) (tempContents res)
    (false, false) (false, false) 0 0 (-1) 0 (-1) 0 out.

(** Start async pinned -> GPU copy first (buf 2).  Here the copy is issued
    and takes effect at once; [Streams.host_step] has the wait on
    [eventGpuExecuteDone] that precedes it and the event recorded behind
    it. *)
Definition stage_transfer (n pageSizeInVecs : Z) (st : Pipeline)
  : M Pipeline :=
  if negb (cur2 st =? -1) && (cur2 st <? n) then
    let numToCopy := Z.min pageSizeInVecs (n - cur2 st) in
    let b := cur2BufIndex st in
    emit (EvCopyPinnedToGpu b numToCopy) ;;;
    ret (mkPipeline
           (bufPinned st)
           (upd b (store_rows (firstn (Z.to_nat numToCopy)
                                 (sel b (bufPinned st)))
                     (sel b (bufGpus st)))
              (bufGpus st))
           (upd b true (eventPinnedCopyDone st))
           (eventGpuExecuteDone st)
           (cur1 st) (cur1BufIndex st)
           (to_idx_t (cur2 st + numToCopy)) (toggle b)
           (cur2 st) (cur3BufIndex st)
           (outs st))
  else ret st.

(** Process on GPU.  Here the call is issued and takes effect at once;
    [Streams.host_step] has the wait on [eventPinnedCopyDone] that precedes
    it and the event recorded behind it. *)
Definition stage_compute (n pageSizeInVecs : Z) (numeric_type : NumericType)
    (k : Z) (st : Pipeline) : M Pipeline :=
  if negb (cur3 st =? -1) && (cur3 st <? n) then
    let numToProcess := Z.min pageSizeInVecs (n - cur3 st) in
    let b := cur3BufIndex st in
    if negb (sel b (eventPinnedCopyDone st)) then throw AssertionFailure
    else
      g <- this ;;
      out' <- searchImpl_ numToProcess
                (mkBuffer (device (config_ g)) (sel b (bufGpus st)))
                numeric_type k (outs st) (cur3 st) ;;
      ret (mkPipeline
             (bufPinned st) (bufGpus st)
             (eventPinnedCopyDone st)
             (upd b true (eventGpuExecuteDone st))
             (cur1 st) (cur1BufIndex st)
             (cur2 st) (cur2BufIndex st)
             (to_idx_t (cur3 st + numToProcess)) (toggle b)
             out')
  else ret st.

(** Copy CPU mem to CPU pinned.  [Streams.host_step] has the
    [cpuWaitOnEvent] that precedes the copy. *)
Definition stage_copy_in (n pageSizeInVecs : Z) (x : Buffer Vec)
    (st : Pipeline) : M Pipeline :=
  if cur1 st <? n then
    let numToCopy := Z.min pageSizeInVecs (n - cur1 st) in
    let b := cur1BufIndex st in
    emit (EvCopyToPinned b (cur1 st) numToCopy) ;;;
    ret (mkPipeline
           (upd b (store_rows (rows numToCopy (advance x (cur1 st)))
                     (sel b (bufPinned st)))
              (bufPinned st))
           (bufGpus st)
           (eventPinnedCopyDone st) (eventGpuExecuteDone st)
           (to_idx_t (cur1 st + numToCopy)) (toggle b)
           (cur1 st) (cur2BufIndex st)
           (cur3 st) (cur3BufIndex st)
           (outs st))
  else ret st.

(** The body of [while (cur3 < n)]. *)
Definition pipeline_body (n pageSizeInVecs : Z) (x : Buffer Vec)
    (numeric_type : NumericType) (k : Z) (st : Pipeline) : M Pipeline :=
  st2 <- stage_transfer n pageSizeInVecs st ;;
  st3 <- stage_compute n pageSizeInVecs numeric_type k st2 ;;
  stage_copy_in n pageSizeInVecs x st3.

Fixpoint pipeline_loop (fuel : nat) (n pageSizeInVecs : Z) (x : Buffer Vec)
    (numeric_type : NumericType) (k : Z) (st : Pipeline) : M Pipeline :=
  if cur3 st <? n then
    match fuel with
    | O => throw OutOfFuel
    | S fuel' =>
        st' <- pipeline_body n pageSizeInVecs x numeric_type k st ;;
        pipeline_loop fuel' n pageSizeInVecs x numeric_type k st'
    end
  else ret st.

(** The overlapped path: the dispatch at the end of [searchFromCpuPaged_]. *)
Definition searchOverlapped (n : Z) (x : Buffer Vec)
    (numeric_type : NumericType) (k : Z) (pageSizeInVecs : Z) (out : Out)
  : M Pipeline :=
  match dispatch_type numeric_type with
  | Some _ =>
      g <- this ;;
      pipeline_loop (S (Z.to_nat n)) n pageSizeInVecs x numeric_type k
        (pipeline_init (resources_ g) out)
  | None => throw UnsupportedEncoding
  end.

Definition searchFromCpuPaged_ (n : Z) (x : Buffer Vec)
    (numeric_type : NumericType) (k : Z) (out : Out) : M Out :=
  g <- this ;;
  let pinnedAlloc := getPinnedMemory (resources_ g) in
  s <- lift (get_numeric_type_size numeric_type) ;;
  let pageSizeInVecs := pageSizeInVecs_of (snd pinnedAlloc) s (d (base g)) in
  if negb (fst pinnedAlloc) || (pageSizeInVecs <? 1) then
    s' <- lift (get_numeric_type_size numeric_type) ;;
    let batchSize := batchSize_of s' (d (base g)) in
    searchUnbuffered_loop (Z.to_nat n) n x numeric_type k batchSize 0 out
  else
    st <- searchOverlapped n x numeric_type k pageSizeInVecs out ;;
    ret (outs st).

(** [search].  The output tensors [outDistances] and [outLabels] are
    requested with [n] rows; a row stands for its [k] entries, [k] being
    the 64-bit argument in the shape {n, k} and [(int)k] in the validation
    and in the calls below: the two agree for [k = to_int k]. *)
Definition search (n : Z) (x : Buffer Vec) (numeric_type : NumericType)
    (k : Z) (distances : Buffer DistRow) (labels : Buffer LabelRow)
  : M (Buffer DistRow * Buffer LabelRow) :=
  g <- this ;;
  if negb (is_trained (base g)) then throw NotTrained
  else
    validateKSelect (to_int k) (should_use_cuvs (config_ g)) ;;;
    if (n =? 0) || (k =? 0) then ret (distances, labels)
    else
      let dev := device (config_ g) in
      outDistances <- toDeviceTemporary dev distances n ;;
      outLabels <- toDeviceTemporary dev labels n ;;
      let out := (rows n outDistances, rows n outLabels) in
      r <-
        (if getDeviceForAddress x =? -1 then
           s <- lift (get_numeric_type_size numeric_type) ;;
           let dataSize :=
             to_size_t (to_size_t (to_size_t n * to_size_t (d (base g))) * s) in
           if to_size_t (minPagedSize_ g) <=? dataSize then
             out' <- searchFromCpuPaged_ n x numeric_type (to_int k) out ;;
             ret (true, out')
           else ret (false, out)
         else ret (false, out)) ;;
      out' <-
        (if negb (fst r)
         then searchNonPaged_ n x numeric_type (to_int k) (snd r) 0
         else ret (snd r)) ;;
      distances' <- fromDevice dev n (fst out') distances ;;
      labels' <- fromDevice dev n (snd out') labels ;;
      ret (distances', labels').

(** [assign].  The throw-away distance tensor of shape {n, k} is a device
    buffer of [n] rows whose content is never read. *)
Definition assign (n : Z) (x : Buffer Vec) (labels : Buffer LabelRow) (k : Z)
  : M (Buffer LabelRow) :=
  g <- this ;;
  if negb (is_trained (base g)) then throw NotTrained
  else
    validateKSelect (to_int k) (should_use_cuvs (config_ g)) ;;;
    let distances :=
      mkBuffer (device (config_ g)) (repeat ([] : DistRow) (Z.to_nat n)) in
    r <- search n x Float32 k distances labels ;;
    ret (snd r).

(** ** Vocabulary of the statements *)

Definition is_addImpl (e : Event) : bool :=
  match e with EvAddImpl _ _ _ _ => true | _ => false end.
Definition is_searchImpl (e : Event) : bool :=
  match e with EvSearchImpl _ _ _ _ _ => true | _ => false end.

(** The calls of the implementation found in a trace, in order. *)
Definition addImpl_events (tr : list Event) : list Event :=
  filter is_addImpl tr.
Definition searchImpl_events (tr : list Event) : list Event :=
  filter is_searchImpl tr.

(** The batch size an implementation call was given. *)
Definition impl_size (e : Event) : Z :=
  match e with
  | EvAddImpl n _ _ _ => n
  | EvSearchImpl n _ _ _ _ => n
  | _ => 0
  end.

(** The identifiers an insert call of the implementation was given. *)
Definition impl_ids (e : Event) : option (list Z) :=
  match e with
  | EvAddImpl _ _ _ ids => ids
  | _ => None
  end.

Definition ceil_div (a b : Z) : Z := (a + b - 1) / b.

(** The tiles (start, size) a loop [for (i = i0; i < n; i += tileSize)]
    visits, [count] of them. *)
Fixpoint tiles_from (count : nat) (n tileSize i : Z) : list (Z * Z) :=
  match count with
  | O => []
  | S c => (i, Z.min tileSize (n - i)) :: tiles_from c n tileSize (i + tileSize)
  end.

Definition tiles (n tileSize : Z) : list (Z * Z) :=
  tiles_from (Z.to_nat (ceil_div n tileSize)) n tileSize 0.

Definition addImpl_of_tile (x : Buffer Vec) (numeric_type : NumericType)
    (ids : option (Buffer Z)) (tile : Z * Z) : Event :=
  EvAddImpl (snd tile) (rows (snd tile) (advance x (fst tile))) numeric_type
    (option_map (fun p => rows (snd tile) (advance p (fst tile))) ids).

(** [totalSize] of [addPaged_] and the test that selects the tiled branch. *)
Definition addPaged_totalSize (n dim : Z) (t : data_t) : Z :=
  to_idx_t (to_size_t (to_idx_t (n * dim) * sizeof t)).

Definition addPaged_tiled (g : GpuIndex) (n : Z) (t : data_t) : bool :=
  negb (should_use_cuvs (config_ g)) &&
  ((kAddPageSize <? addPaged_totalSize n (d (base g)) t) ||
   (kAddVecSize <? n)).

(** The pages [addPaged_] hands to [addPage_]. *)
Definition addPaged_plan (g : GpuIndex) (n : Z) (t : data_t)
  : list (Z * Z) :=
  if addPaged_tiled g n t
  then tiles n (addPaged_tileSize n (d (base g)) t)
  else [(0, n)].

(** The rows [start, start + size) of a list. *)
Definition chunk {A} (l : list A) (tile : Z * Z) : list A :=
  firstn (Z.to_nat (snd tile)) (skipn (Z.to_nat (fst tile)) l).

(** The size of the last tile of a batch of [n]. *)
Definition last_tile (n tileSize : Z) : Z :=
  if n mod tileSize =? 0 then tileSize else n mod tileSize.

(** The call of the implementation on the page [tile] of the queries [x]. *)
Definition searchImpl_of_page (x : Buffer Vec) (numeric_type : NumericType)
    (k : Z) (tile : Z * Z) : Event :=
  EvSearchImpl (snd tile) (chunk (cells x) tile) numeric_type k (fst tile).

(** The indices of the queries an implementation call was given. *)
Definition queries_of (e : Event) : list Z :=
  match e with
  | EvSearchImpl n _ _ _ cur =>
      map Z.of_nat (seq (Z.to_nat cur) (Z.to_nat n))
  | _ => []
  end.

(** The output tensors once the first [c] queries of [x] are answered: their
    rows, then what [out0] held from row [c] on. *)
Definition searched (x : Buffer Vec) (numeric_type : NumericType) (k : Z)
    (out0 : Out) (c : Z) : Out :=
  let res := map (searchOne numeric_type k) (firstn (Z.to_nat c) (cells x)) in
  (map fst res ++ skipn (Z.to_nat c) (fst out0),
   map snd res ++ skipn (Z.to_nat c) (snd out0)).

(** The stage of the pipeline an event belongs to, numbered as in the
    source: 1 CPU copy -> pinned, 2 pinned copy -> GPU, 3 GPU compute. *)
Definition stage_of (e : Event) : Z :=
  match e with
  | EvCopyToPinned _ _ _ => 1
  | EvCopyPinnedToGpu _ _ => 2
  | EvSearchImpl _ _ _ _ _ => 3
  | _ => 0
  end.

(** Events of one iteration in the order transfer, compute, copy-in, each
    stage at most once. *)
Definition stage_order (evs : list Event) : Prop :=
  exists transfer compute copy_in : bool,
    map stage_of evs =
      (if transfer then [2] else []) ++
      (if compute then [3] else []) ++
      (if copy_in then [1] else []).

(** The states at the head of [while (cur3 < n)], from the state [st0] and
    the world [w0] the loop is entered with. *)
Inductive loop_head (n pageSizeInVecs : Z) (x : Buffer Vec)
    (numeric_type : NumericType) (k : Z) (st0 : Pipeline) (w0 : World)
  : Pipeline -> World -> Prop :=
| head_first : loop_head n pageSizeInVecs x numeric_type k st0 w0 st0 w0
| head_next (st : Pipeline) (w : World) (st' : Pipeline) (w' : World) :
    loop_head n pageSizeInVecs x numeric_type k st0 w0 st w ->
    cur3 st < n ->
    pipeline_body n pageSizeInVecs x numeric_type k st w = (Ok st', w') ->
    loop_head n pageSizeInVecs x numeric_type k st0 w0 st' w'.

(** What holds at the head of the loop once the first page is in its pinned
    buffer: the page that starts at [c] is the next to transfer and to
    compute, it sits in the pinned buffer both stages will use, the copy-in
    cursor is one page ahead, and the queries before [c] are answered. *)
Definition pipe_inv (n pageSizeInVecs : Z) (x : Buffer Vec)
    (numeric_type : NumericType) (k : Z) (out0 : Out) (c : Z)
    (st : Pipeline) : Prop :=
  0 <= c <= n /\
  cur2 st = c /\
  (cur3 st = c \/ (c = 0 /\ cur3 st = -1)) /\
  cur1 st = c + Z.min pageSizeInVecs (n - c) /\
  cur3BufIndex st = cur2BufIndex st /\
  (c < n ->
   cur1BufIndex st = toggle (cur2BufIndex st) /\
   firstn (Z.to_nat (Z.min pageSizeInVecs (n - c)))
     (sel (cur2BufIndex st) (bufPinned st)) =
   chunk (cells x) (c, Z.min pageSizeInVecs (n - c))) /\
  outs st = searched x numeric_type k out0 c.

End Orchestrator.

(** ** Further operations and vocabulary *)

Section Further.

Variable deviceMajor : Z -> Z.
Variable get_numeric_type_size : NumericType -> Result Z.
Variable getMaxKSelection : bool -> Z.
Variable searchOne : NumericType -> Z -> Vec -> DistRow * LabelRow.
(** [reconstruct_batch], a virtual of the implementation: it is handed the
    number of labels, the labels and the buffer for the vectors. *)
Variable reconstruct_batch :
  Z -> Buffer LabelRow -> Buffer Vec -> M (Buffer Vec).

Definition search_and_reconstruct (n : Z) (x : Buffer Vec) (k : Z)
    (distances : Buffer DistRow) (labels : Buffer LabelRow)
    (recons : Buffer Vec)
  : M (Buffer DistRow * Buffer LabelRow * Buffer Vec) :=
  r <- search deviceMajor get_numeric_type_size getMaxKSelection searchOne
         n x Float32 k distances labels ;;
  recons' <- reconstruct_batch (to_idx_t (n * k)) (snd r) recons ;;
  ret (r, recons').

(** [dataSize] of [search]. *)
Definition search_dataSize_of (n dim s : Z) : Z :=
  to_size_t (to_size_t (to_size_t n * to_size_t dim) * s).

(** The number of query vectors [search] hands to the implementation per
    call: the whole batch on the untiled path, the page of the pipeline or
    of the unbuffered paging on the paged path. *)
Definition search_page_of (g : GpuIndex) (n : Z) (x : Buffer Vec)
    (numeric_type : NumericType) : Z :=
  if getDeviceForAddress x =? -1 then
    match get_numeric_type_size numeric_type with
    | Ok s =>
        if to_size_t (minPagedSize_ g) <=?
           search_dataSize_of n (d (base g)) s
        then
          let pinned := getPinnedMemory (resources_ g) in
          let page := pageSizeInVecs_of (snd pinned) s (d (base g)) in
          if negb (fst pinned) || (page <? 1)
          then batchSize_of s (d (base g))
          else page
        else n
    | Throw _ => n
    end
  else n.

End Further.

(** ** The pipeline as the device runs it

    The functions above give what the host issues, in the order in which it
    issues it.  The device does not run the work in that order: the copies
    from pinned memory go to the copy stream, the calls of the implementation
    to the default stream, and the two streams advance independently of each
    other and of the host.  What orders them are the completion events the
    loop records and waits on.  This module keeps the streams and the events:
    the host advances statement by statement of the loop, each stream runs
    the work at the head of its queue, and a wait holds back whoever waits
    until the event has happened. *)

Module Streams.

(** [copyStream] is [resources_->getAsyncCopyStream(config_.device)],
    [defaultStream] is [resources_->getDefaultStream(config_.device)]. *)
Inductive Stream : Type := copyStream | defaultStream.

(** Modelled from the spec: the completion signal, [CudaEvent] of
    DeviceUtils.h, "a handle representing that the asynchronous operation
    that produced it has finished, awaited by either the host or a subsequent
    device operation".  [new CudaEvent(stream)] records the event behind the
    work issued to [stream] so far: [mark] is the number of operations issued
    to the stream up to then, and the event has happened once the stream has
    completed that many. *)
Record CudaEvent : Type := mkCudaEvent {
  stream : Stream;
  mark : nat
}.

(** The work the loop issues to a stream. *)
Inductive Work : Type :=
| StreamWaitOnEvent (e : CudaEvent)
  (** [e->streamWaitOnEvent(stream)]: the work behind it in the stream
      starts after [e] has happened *)
| MemcpyAsync (buf : Z) (num : Z)
  (** [cudaMemcpyAsync(bufGpus[buf]->data(), bufPinned[buf],
      num * d * sizeof(data_t), cudaMemcpyHostToDevice, copyStream)] *)
| SearchImpl (buf : Z) (num : Z) (cur : Z).
  (** the work of [searchImpl_(num, bufGpus[buf]->data(), numeric_type, k,
      outDistances.narrowOutermost(cur, num), ...)]; modelled from the
      spec: the implementation computes on the device, in the default
      stream *)

(** A stream runs its work in the order of issue: the number of operations
    it has completed, and the operations issued and not yet run, oldest
    first. *)
Record Queue : Type := mkQueue {
  completed : nat;
  pending : list Work
}.

Definition issue (w : Work) (q : Queue) : Queue :=
  mkQueue (completed q) (pending q ++ [w]).

Definition issued (q : Queue) : nat := (completed q + length (pending q))%nat.

(** The statement of the dispatch lambda the host is at: the test of
    [while (cur3 < n)], one of the three [if] blocks of its body, after the
    loop, or stopped by [FAISS_ASSERT]. *)
Inductive Statement : Type :=
| AtWhile | AtTransfer | AtCompute | AtCopyIn | Returned | Aborted.

(** The local variables of the dispatch lambda; an event handle is null
    until its first [reset]. *)
Record Locals : Type := mkLocals {
  eventPinnedCopyDone : option CudaEvent * option CudaEvent;
  eventGpuExecuteDone : option CudaEvent * option CudaEvent;
  cur1 : Z;
  cur1BufIndex : Z;
  cur2 : Z;
  cur2BufIndex : Z;
  cur3 : Z;
  cur3BufIndex : Z
}.

Record State : Type := mkState {
  statement : Statement;
  locals : Locals;
  copyQueue : Queue;
  defaultQueue : Queue;
  bufPinned : list Vec * list Vec;
  bufGpus : list Vec * list Vec;
  outs : Out
}.

Definition queue (s : Stream) (st : State) : Queue :=
  match s with
  | copyStream => copyQueue st
  | defaultStream => defaultQueue st
  end.

Definition happened (e : CudaEvent) (st : State) : bool :=
  (mark e <=? completed (queue (stream e) st))%nat.

(** The state the loop is entered with: nothing issued by the loop, the
    buffers as the resource pool hands them out.  What was issued to the
    default stream before the loop (the copies of the Residency Bridge for
    the output tensors) precedes in that stream all the work of the loop
    that touches the output tensors; [out] is the content it leaves. *)
Definition init (res : GpuResources) (out : Out) : State :=
  mkState AtWhile
    (mkLocals (None, None) (None, None) 0 0 (-1) 0 (-1) 0)
    (mkQueue 0 []) (mkQueue 0 [])
    (pinnedContents res) (tempContents res) out.

Definition goto (s : Statement) (st : State) : State :=
  mkState s (locals st) (copyQueue st) (defaultQueue st)
    (bufPinned st) (bufGpus st) (outs st).

(** One move of the host: the test of the loop or one of the three [if]
    blocks of its body.  Issuing work does not block; the host blocks in
    [cpuWaitOnEvent] only, and [memcpy] is done when it returns.  The
    statements of a block that issue work make one move: issuing appends to
    the queue of a stream and the mark of a new event counts the work issued
    to its stream, and neither depends on how far the streams have run in
    between. *)
Definition host_step (n pageSizeInVecs : Z) (x : Buffer Vec) (st : State)
  : option State :=
  let l := locals st in
  match statement st with
  | AtWhile =>
      if cur3 l <? n then Some (goto AtTransfer st)
      else Some (goto Returned st)
  | AtTransfer =>
      if negb (cur2 l =? -1) && (cur2 l <? n) then
        let numToCopy := Z.min pageSizeInVecs (n - cur2 l) in
        let b := cur2BufIndex l in
        let q1 :=
          match sel b (eventGpuExecuteDone l) with
          | Some eventPrev => issue (StreamWaitOnEvent eventPrev) (copyQueue st)
          | None => copyQueue st
          end in
        let q2 := issue (MemcpyAsync b numToCopy) q1 in
        Some (mkState AtCompute
                (mkLocals
                   (upd b (Some (mkCudaEvent copyStream (issued q2)))
                      (eventPinnedCopyDone l))
                   (eventGpuExecuteDone l)
                   (cur1 l) (cur1BufIndex l)
                   (to_idx_t (cur2 l + numToCopy)) (toggle b)
                   (cur2 l) (cur3BufIndex l))
                q2 (defaultQueue st)
                (bufPinned st) (bufGpus st) (outs st))
      else Some (goto AtCompute st)
  | AtCompute =>
      if negb (cur3 l =? -1) && (cur3 l <? n) then
        let numToProcess := Z.min pageSizeInVecs (n - cur3 l) in
        let b := cur3BufIndex l in
        match sel b (eventPinnedCopyDone l) with
        | None => Some (goto Aborted st)
        | Some eventPrev =>
            let q1 := issue (StreamWaitOnEvent eventPrev) (defaultQueue st) in
            let q2 := issue (SearchImpl b numToProcess (cur3 l)) q1 in
            Some (mkState AtCopyIn
                    (mkLocals
                       (eventPinnedCopyDone l)
                       (upd b (Some (mkCudaEvent defaultStream (issued q2)))
                          (eventGpuExecuteDone l))
                       (cur1 l) (cur1BufIndex l)
                       (cur2 l) (cur2BufIndex l)
                       (to_idx_t (cur3 l + numToProcess)) (toggle b))
                    (copyQueue st) q2
                    (bufPinned st) (bufGpus st) (outs st))
        end
      else Some (goto AtCopyIn st)
  | AtCopyIn =>
      if cur1 l <? n then
        let numToCopy := Z.min pageSizeInVecs (n - cur1 l) in
        let b := cur1BufIndex l in
        if match sel b (eventPinnedCopyDone l) with
           | Some eventPrev => happened eventPrev st
           | None => true
           end
        then
          Some (mkState AtWhile
                  (mkLocals
                     (eventPinnedCopyDone l) (eventGpuExecuteDone l)
                     (to_idx_t (cur1 l + numToCopy)) (toggle b)
                     (cur1 l) (cur2BufIndex l)
                     (cur3 l) (cur3BufIndex l))
                  (copyQueue st) (defaultQueue st)
                  (upd b (store_rows (rows numToCopy (advance x (cur1 l)))
                            (sel b (bufPinned st)))
                     (bufPinned st))
                  (bufGpus st) (outs st))
        else None
      else Some (goto AtWhile st)
  | Returned => None
  | Aborted => None
  end.

Section Device.

(** What the implementation answers for one query vector, as in
    [searchImpl_] above. *)
Variable searchOne : NumericType -> Z -> Vec -> DistRow * LabelRow.

(** What an operation does to the memories once it runs: a copy fills a
    device buffer from its pinned buffer as that buffer is then, a call of
    the implementation answers the queries its device buffer holds then. *)
Definition run_work (numeric_type : NumericType) (k : Z) (w : Work)
    (st : State) : option State :=
  match w with
  | StreamWaitOnEvent e => if happened e st then Some st else None
  | MemcpyAsync b num =>
      Some (mkState (statement st) (locals st)
              (copyQueue st) (defaultQueue st)
              (bufPinned st)
              (upd b (store_rows (firstn (Z.to_nat num) (sel b (bufPinned st)))
                        (sel b (bufGpus st)))
                 (bufGpus st))
              (outs st))
  | SearchImpl b num cur =>
      let res :=
        map (searchOne numeric_type k)
          (firstn (Z.to_nat num) (sel b (bufGpus st))) in
      Some (mkState (statement st) (locals st)
              (copyQueue st) (defaultQueue st)
              (bufPinned st) (bufGpus st)
              (write_rows cur (map fst res) (fst (outs st)),
               write_rows cur (map snd res) (snd (outs st))))
  end.

Definition set_queue (s : Stream) (q : Queue) (st : State) : State :=
  match s with
  | copyStream =>
      mkState (statement st) (locals st) q (defaultQueue st)
        (bufPinned st) (bufGpus st) (outs st)
  | defaultStream =>
      mkState (statement st) (locals st) (copyQueue st) q
        (bufPinned st) (bufGpus st) (outs st)
  end.

(** One operation of a stream: the oldest pending one, if it can run. *)
Definition stream_step (numeric_type : NumericType) (k : Z) (s : Stream)
    (st : State) : option State :=
  match pending (queue s st) with
  | [] => None
  | w :: rest =>
      match run_work numeric_type k w st with
      | Some st' =>
          Some (set_queue s (mkQueue (S (completed (queue s st))) rest) st')
      | None => None
      end
  end.

(** Who moves next is not determined: the host or one of the streams. *)
Inductive Agent : Type := Host | Device (s : Stream).

Definition step (n pageSizeInVecs : Z) (x : Buffer Vec)
    (numeric_type : NumericType) (k : Z) (a : Agent) (st : State)
  : option State :=
  match a with
  | Host => host_step n pageSizeInVecs x st
  | Device s => stream_step numeric_type k s st
  end.

(** A run: the agents move in the order of [schedule]; there is no run in
    which an agent moves that cannot. *)
Fixpoint run (n pageSizeInVecs : Z) (x : Buffer Vec)
    (numeric_type : NumericType) (k : Z) (schedule : list Agent) (st : State)
  : option State :=
  match schedule with
  | [] => Some st
  | a :: schedule' =>
      match step n pageSizeInVecs x numeric_type k a st with
      | Some st' => run n pageSizeInVecs x numeric_type k schedule' st'
      | None => None
      end
  end.

End Device.

(** The loop has been left and the default stream, on which the results are
    copied back afterwards, has run all its work. *)
Definition finished (st : State) : Prop :=
  statement st = Returned /\ pending (defaultQueue st) = [].

(** *** Vocabulary of the statements about the streams *)

Section Pages.

Variables n p : Z.
Variable x : Buffer Vec.

(** Start, size, buffer and content of page [j]. *)
Definition page_cur (j : nat) : Z := Z.min (Z.of_nat j * p) n.
Definition page_num (j : nat) : Z := Z.min p (n - page_cur j).
Definition page_buf (j : nat) : Z := if Nat.even j then 0 else 1.
Definition page (j : nat) : list Vec :=
  chunk (cells x) (page_cur j, page_num j).

Definition pages : nat := Z.to_nat (ceil_div n p).

(** The operations the copy stream has been issued once [K] pages are
    through the transfer stage, and their number. *)
Definition copy_length (K : nat) : nat :=
  if (K <=? 2)%nat then K else (2 * K - 2)%nat.

Definition executeDone (j : nat) : CudaEvent :=
  mkCudaEvent defaultStream (2 * j + 2).
Definition copyDone (j : nat) : CudaEvent :=
  mkCudaEvent copyStream (copy_length (S j)).

Definition copy_work (j : nat) : list Work :=
  (if (2 <=? j)%nat then [StreamWaitOnEvent (executeDone (j - 2))] else []) ++
  [MemcpyAsync (page_buf j) (page_num j)].

Definition default_work (j : nat) : list Work :=
  [StreamWaitOnEvent (copyDone j);
   SearchImpl (page_buf j) (page_num j) (page_cur j)].

(** The two handles of an event array once [K] pages went through the stage
    that resets them. *)
Fixpoint handles (ev : nat -> CudaEvent) (K : nat)
  : option CudaEvent * option CudaEvent :=
  match K with
  | O => (None, None)
  | S K' => upd (page_buf K') (Some (ev K')) (handles ev K')
  end.

(** The local variables once [KC] pages are copied in, [KT] transfers and
    [KS] calls of the implementation are issued. *)
Definition locals_at (KC KT KS : nat) : Locals :=
  mkLocals (handles copyDone KT) (handles executeDone KS)
    (page_cur KC) (page_buf KC)
    (match KC with O => -1 | _ => page_cur KT end) (page_buf KT)
    (match KT with O => -1 | _ => page_cur KS end) (page_buf KS).

(** Where the host is: in the first iteration, which only copies page 0 in,
    or at a statement of the iteration that transfers and computes page
    [t]. *)
Inductive host_at : Statement -> nat -> nat -> nat -> nat -> Prop :=
| at_first_while : host_at AtWhile 0 0 0 0
| at_first_transfer : host_at AtTransfer 0 0 0 1
| at_first_compute : host_at AtCompute 0 0 0 2
| at_first_copy_in : host_at AtCopyIn 0 0 0 3
| at_while (t : nat) :
    (t < pages)%nat -> host_at AtWhile (S t) t t (4 + 4 * t)
| at_last_while : host_at AtWhile pages pages pages (4 + 4 * pages)
| at_transfer (t : nat) :
    (t < pages)%nat -> host_at AtTransfer (S t) t t (5 + 4 * t)
| at_compute (t : nat) :
    (t < pages)%nat -> host_at AtCompute (S t) (S t) t (6 + 4 * t)
| at_copy_in (t : nat) :
    (t < pages)%nat -> host_at AtCopyIn (S t) (S t) (S t) (7 + 4 * t)
| at_returned : host_at Returned pages pages pages (5 + 4 * pages).

(** The queue of a stream that has completed [a] of the operations of [K]
    pages. *)
Definition queue_at (work : nat -> list Work) (K a : nat) : Queue :=
  mkQueue a (skipn a (flat_map work (seq 0 K))).

(** What holds of every state the pipeline can reach, after [steps] moves:
    the host has copied in [KC] pages and issued the work of [KT] transfers
    and [KS] calls; the copy stream has run the transfers of [jc] pages (and,
    if [ic = 1], the wait before the next), the default stream the calls of
    [jd] pages (and, if [id = 1], the wait before the next).  A pinned buffer
    holds the last page copied into it and no page is copied in before the
    page two before it is transferred; a device buffer holds the last page
    transferred into it and no page is transferred before the page two
    before it is computed; no page is computed before it is transferred. *)
Definition reach_inv (searchOne : NumericType -> Z -> Vec -> DistRow * LabelRow)
    (numeric_type : NumericType) (k : Z) (out0 : Out) (steps : nat)
    (st : State) : Prop :=
  exists KC KT KS rank jc ic jd id : nat,
    host_at (statement st) KC KT KS rank /\
    locals st = locals_at KC KT KS /\
    copyQueue st = queue_at copy_work KT (copy_length jc + ic) /\
    defaultQueue st = queue_at default_work KS (2 * jd + id) /\
    (jc <= KT /\ (ic = 0 \/ ic = 1 /\ 2 <= jc < KT))%nat /\
    (jd <= KS /\ (id = 0 \/ id = 1 /\ jd < KS))%nat /\
    (KC <= jc + 2 /\ jc + ic <= jd + 2 /\ jd + id <= jc)%nat /\
    (forall j, (j < KC <= j + 2)%nat ->
       firstn (Z.to_nat (page_num j)) (sel (page_buf j) (bufPinned st)) =
       page j) /\
    (forall j, (j < jc <= j + 2)%nat ->
       firstn (Z.to_nat (page_num j)) (sel (page_buf j) (bufGpus st)) =
       page j) /\
    outs st = searched searchOne x numeric_type k out0 (page_cur jd) /\
    steps = (rank + (copy_length jc + ic) + (2 * jd + id))%nat.

End Pages.

End Streams.

(** The vectors an implementation call was given. *)
Definition impl_vecs (e : Event) : list Vec :=
  match e with
  | EvAddImpl _ vecs _ _ => vecs
  | EvSearchImpl _ vecs _ _ _ => vecs
  | _ => []
  end.

(** What the pipeline issues from the page that starts at [c], which sits in
    the pinned buffer [b]: per page its transfer, its computation and the
    copy-in of the page after it into the other buffer. *)
Fixpoint pipeline_schedule (count : nat) (n p : Z) (x : Buffer Vec)
    (numeric_type : NumericType) (k : Z) (c b : Z) : list Event :=
  match count with
  | O => []
  | S count' =>
      let m := Z.min p (n - c) in
      [EvCopyPinnedToGpu b m; searchImpl_of_page x numeric_type k (c, m)] ++
      (if c + m <? n
       then [EvCopyToPinned (toggle b) (c + m) (Z.min p (n - (c + m)))]
       else []) ++
      pipeline_schedule count' n p x numeric_type k (c + p) (toggle b)
  end.

(** A reconstruction that records nothing and returns the buffer it was
    given. *)
Definition ex_reconstruct (n : Z) (labels : Buffer LabelRow)
    (recons : Buffer Vec) : M (Buffer Vec) :=
  ret recons.

Definition ex_device_queries : Buffer Vec :=
  mkBuffer 0 [[1; 2]; [3; 4]; [5; 6]].

(** ** Concrete instances *)

(** A device of compute capability 6: the alternative backend is never
    eligible on it. *)
Definition ex_deviceMajor (dev : Z) : Z := 6.

(** A device of compute capability 8. *)
Definition ex_deviceMajor8 (dev : Z) : Z := 8.

(** An element-size function that knows the three encodings of the dispatch
    sites and one more one-byte encoding, the tag 2, and raises on every
    other tag. *)
Definition ex_numeric_type_size (numeric_type : NumericType) : Result Z :=
  match numeric_type with
  | Float32 => Ok 4
  | Float16 => Ok 2
  | Int8 => Ok 1
  | UnknownNumeric 2 => Ok 1
  | UnknownNumeric _ => Throw ElementSizeError
  end.

Definition ex_maxK (use_cuvs : bool) : Z :=
  if use_cuvs then 16384 else 2048.

(** An implementation that answers a query with [k] copies of the sum of
    its elements and [k] copies of its length. *)
Definition ex_searchOne (numeric_type : NumericType) (k : Z) (v : Vec)
  : DistRow * LabelRow :=
  (repeat (fold_right Z.add 0 v) (Z.to_nat k),
   repeat (Z.of_nat (length v)) (Z.to_nat k)).

(** An index of dimension [dim] that holds 5 vectors, on device 0, with
    the given staging memory and paging threshold; stale rows lie in the
    staging and device buffers. *)
Definition ex_world (dim : Z) (trained : bool) (pinned : bool * Z)
    (minPaged : Z) (cuvs : bool) : World :=
  mkWorld
    (mkGpuIndex
       (mkIndex dim 1 0 5 trained)
       (mkResources pinned ([[7; 7]], []) ([], [[9; 9]; [9; 9]; [9; 9]]))
       (mkConfig 0 cuvs)
       minPaged)
    [].

Definition ex_queries : Buffer Vec := mkBuffer (-1) [[1; 2]; [3; 4]; [5; 6]].
Definition ex_distances : Buffer DistRow := mkBuffer (-1) [[0]; [0]; [0]].
Definition ex_labels : Buffer LabelRow := mkBuffer (-1) [[-1]; [-1]; [-1]].
Definition ex_ids : Buffer Z := mkBuffer (-1) [40; 41; 42].

(** The batch of the tiling example: 1,000,000 vectors of dimension 128. *)
Definition ex_big_batch : Buffer Vec :=
  mkBuffer (-1) (repeat (repeat 0 128%nat) (Z.to_nat 1000000)).

(** ** Proof steps *)

(** The first statement of a public operation on a trained index: read the
    object, pass the test of the flag. *)
Ltac pass_trained Htr :=
  unfold bind at 1, this at 1; cbv beta iota; rewrite Htr;
  change (negb true) with false; cbv beta iota.

(** Closed facts about integers and small runs, by evaluation. *)
Ltac evalZ := vm_compute; repeat split; (reflexivity || discriminate).
Ltac side := first [reflexivity | left; reflexivity | evalZ].

(** * Properties *)

(** ** Machine integers *)

Lemma to_idx_t_small (z : Z) :
  - 2 ^ 63 <= z < 2 ^ 63 -> to_idx_t z = z.
Proof.
  intros H. unfold to_idx_t.
  rewrite Z.mod_small by lia. lia.
Qed.

Lemma to_size_t_small (z : Z) :
  0 <= z < 2 ^ 64 -> to_size_t z = z.
Proof.
  intros H. unfold to_size_t. now apply Z.mod_small.
Qed.

Lemma to_int_small (z : Z) :
  - 2 ^ 31 <= z < 2 ^ 31 -> to_int z = z.
Proof.
  intros H. unfold to_int.
  rewrite Z.mod_small by lia. lia.
Qed.

(** ** Running the monad *)

Lemma bind_ok {A B} (m : M A) (f : A -> M B) (w w' : World) (a : A) :
  m w = (Ok a, w') -> bind m f w = f a w'.
Proof. intros H. unfold bind. now rewrite H. Qed.

Lemma bind_throw {A B} (m : M A) (f : A -> M B) (w w' : World) (e : Error) :
  m w = (Throw e, w') -> bind m f w = (Throw e, w').
Proof. intros H. unfold bind. now rewrite H. Qed.

(** ** Lists of rows *)

Lemma rows_rows {A} (n : Z) (dev : Z) (p : Buffer A) :
  rows n (mkBuffer dev (rows n p)) = rows n p.
Proof.
  unfold rows; simpl. rewrite firstn_firstn. now rewrite Nat.min_id.
Qed.

Lemma filter_snoc {A} (f : A -> bool) (l : list A) (a : A) :
  filter f (l ++ [a]) = filter f l ++ (if f a then [a] else []).
Proof.
  rewrite filter_app. simpl. now destruct (f a).
Qed.

Section InsertFacts.

Variable deviceMajor : Z -> Z.
Variable addImplRequiresIDs_ : bool.

(** One page: the implementation is called once, with the rows and the
    identifiers of the page, and the count grows by the page. *)
Lemma addPage__run (n : Z) (x : Buffer Vec) (nt : NumericType) (t : data_t)
    (ids : option (Buffer Z)) (w : World) :
  dispatch_type nt = Some t ->
  exists w',
    addPage_ n x nt ids w = (Ok tt, w') /\
    ntotal (base (self w')) = ntotal (base (self w)) + n /\
    config_ (self w') = config_ (self w) /\
    addImpl_events (trace w') =
      addImpl_events (trace w) ++
      [EvAddImpl n (rows n x) nt (option_map (rows n) ids)].
Proof.
  intros Hd. unfold addPage_. rewrite Hd.
  unfold bind, this, toDeviceTemporary, getDeviceForAddress, addImpl_,
    set_ntotal, emit, ret, addImpl_events.
  destruct (residence x =? device (config_ (self w))); simpl;
    destruct ids as [p|]; simpl;
    try destruct (residence p =? device (config_ (self w))); simpl;
    eexists; (split; [reflexivity|]); simpl;
    repeat rewrite filter_snoc; simpl; repeat rewrite app_nil_r;
    repeat rewrite rows_rows; auto.
Qed.

Lemma ceil_div_step (a b : Z) :
  0 < a -> 0 < b ->
  Z.to_nat (ceil_div a b) = S (Z.to_nat (ceil_div (a - b) b)).
Proof.
  intros Ha Hb. unfold ceil_div.
  replace (a + b - 1) with (a - b + b - 1 + 1 * b) by lia.
  rewrite Z.div_add by lia.
  assert (0 <= (a - b + b - 1) / b) by (apply Z.div_pos; lia).
  lia.
Qed.

Lemma ceil_div_nonpos (a b : Z) :
  a <= 0 -> 0 < b -> Z.to_nat (ceil_div a b) = 0%nat.
Proof.
  intros Ha Hb. unfold ceil_div.
  assert ((a + b - 1) / b < 1) by (apply Z.div_lt_upper_bound; lia).
  lia.
Qed.

(** The tiling loop: it ends, calls the implementation once per tile of
    [tiles_from], and the count grows by what was left of the batch. *)
Lemma addPaged_loop_run (n : Z) (x : Buffer Vec) (nt : NumericType)
    (t : data_t) (ids : option (Buffer Z)) (tileSize : Z) :
  dispatch_type nt = Some t ->
  1 <= tileSize <= kSearchVecSize ->
  n <= idx_max - kSearchVecSize ->
  forall (fuel : nat) (i : Z) (w : World),
    0 <= i ->
    (Z.to_nat (n - i) <= fuel)%nat ->
    exists w',
      addPaged_loop fuel n x nt ids tileSize i w = (Ok tt, w') /\
      ntotal (base (self w')) = ntotal (base (self w)) + Z.max 0 (n - i) /\
      config_ (self w') = config_ (self w) /\
      addImpl_events (trace w') =
        addImpl_events (trace w) ++
        map (addImpl_of_tile x nt ids)
          (tiles_from (Z.to_nat (ceil_div (n - i) tileSize)) n tileSize i).
Proof.
  intros Hd Ht Hn. unfold idx_max, kSearchVecSize in *.
  induction fuel as [|fuel IH]; intros i w Hi Hf.
  - assert (n <= i) by lia.
    simpl. destruct (Z.ltb_spec i n); [lia|].
    rewrite ceil_div_nonpos by lia. simpl.
    exists w. rewrite app_nil_r. repeat split; auto. lia.
  - simpl. destruct (Z.ltb_spec i n) as [Hlt|Hge].
    + destruct (addPage__run (Z.min tileSize (n - i)) (advance x i) nt t
                  (option_map (fun p => advance p i) ids) w Hd)
        as (w1 & E1 & N1 & C1 & T1).
      unfold bind at 1. rewrite E1.
      rewrite to_idx_t_small by lia.
      destruct (IH (i + tileSize) w1) as (w2 & E2 & N2 & C2 & T2);
        [lia | lia |].
      exists w2. split; [exact E2|]. split; [lia|]. split; [congruence|].
      rewrite T2, T1.
      rewrite (ceil_div_step (n - i) tileSize) by lia.
      replace (n - i - tileSize) with (n - (i + tileSize)) by lia.
      simpl. rewrite <- app_assoc. simpl.
      unfold addImpl_of_tile at 3. simpl.
      now destruct ids.
    + rewrite ceil_div_nonpos by lia. simpl.
      exists w. rewrite app_nil_r. repeat split; auto. lia.
Qed.

Lemma addPaged_tileSize_bounds (n dim : Z) (t : data_t) :
  1 <= n -> 1 <= addPaged_tileSize n dim t <= kSearchVecSize.
Proof.
  intros Hn. unfold addPaged_tileSize, kSearchVecSize. lia.
Qed.

Lemma sizeof_bounds (t : data_t) : 1 <= sizeof t <= 4.
Proof. destruct t; simpl; lia. Qed.

Lemma addPaged_tileSize_eq (n dim : Z) (t : data_t) :
  0 < dim <= int_max ->
  addPaged_tileSize n dim t =
    Z.min (Z.min n (Z.max 1 (kAddPageSize / (dim * sizeof t))))
      kSearchVecSize.
Proof.
  intros Hd. unfold addPaged_tileSize, int_max, kAddPageSize in *.
  pose proof (sizeof_bounds t) as Hs.
  rewrite (to_size_t_small dim) by lia.
  rewrite (to_size_t_small (dim * sizeof t)) by nia.
  rewrite (to_size_t_small (256 * 1024 * 1024)) by lia.
  assert (0 <= 256 * 1024 * 1024 / (dim * sizeof t) <= 256 * 1024 * 1024).
  { split; [apply Z.div_pos; nia|].
    apply Z.div_le_upper_bound; nia. }
  rewrite to_idx_t_small by lia.
  lia.
Qed.

Lemma addPaged_totalSize_test (n dim : Z) (t : data_t) :
  1 <= n -> 0 < dim <= int_max ->
  (kAddPageSize <? addPaged_totalSize n dim t) || (kAddVecSize <? n) = true
  <-> (kAddPageSize < n * dim * sizeof t \/ kAddVecSize < n).
Proof.
  intros Hn Hd. unfold int_max, kAddVecSize, kAddPageSize in *.
  pose proof (sizeof_bounds t) as Hs.
  rewrite orb_true_iff, !Z.ltb_lt.
  destruct (Z.lt_ge_cases (512 * 1024) n) as [Hbig|Hsmall].
  - split; intros _; right; exact Hbig.
  - unfold addPaged_totalSize.
    assert (H1 : 0 <= n * dim <= 524288 * 2147483647) by nia.
    assert (H2 : 0 <= n * dim * sizeof t <= 524288 * 2147483647 * 4) by nia.
    rewrite (to_idx_t_small (n * dim)) by lia.
    rewrite to_size_t_small by lia.
    rewrite to_idx_t_small by lia.
    tauto.
Qed.

(** [addPaged_] on a supported encoding: it returns, the implementation is
    called once per page of [addPaged_plan], and the count grows by [n]. *)
Lemma addPaged__run (n : Z) (x : Buffer Vec) (nt : NumericType) (t : data_t)
    (ids : option (Buffer Z)) (w : World) :
  dispatch_type nt = Some t ->
  1 <= n <= idx_max - kSearchVecSize ->
  exists w',
    addPaged_ deviceMajor n x nt ids w = (Ok tt, w') /\
    ntotal (base (self w')) = ntotal (base (self w)) + n /\
    addImpl_events (trace w') =
      addImpl_events (trace w) ++
      map (addImpl_of_tile x nt ids) (addPaged_plan deviceMajor (self w) n t).
Proof.
  intros Hd Hn. unfold addPaged_, addPaged_plan, addPaged_tiled.
  destruct (Z.leb_spec n 0); [lia|].
  rewrite Hd. unfold bind at 1, this at 1. cbv beta iota.
  fold (addPaged_totalSize n (d (base (self w))) t).
  destruct (negb (should_use_cuvs deviceMajor (config_ (self w))) &&
            ((kAddPageSize <? addPaged_totalSize n (d (base (self w))) t)
             || (kAddVecSize <? n))).
  - destruct (addPaged_loop_run n x nt t ids
                (addPaged_tileSize n (d (base (self w))) t) Hd
                (addPaged_tileSize_bounds n _ t (proj1 Hn)) (proj2 Hn)
                (Z.to_nat n) 0 w) as (w' & E & N & _ & T); [lia | lia |].
    exists w'. split; [exact E|]. split; [lia|].
    rewrite T. unfold tiles. now rewrite Z.sub_0_r.
  - destruct (addPage__run n x nt t ids w Hd) as (w' & E & N & _ & T).
    exists w'. split; [exact E|]. split; [exact N|].
    rewrite T. simpl. unfold addImpl_of_tile. simpl.
    destruct ids; reflexivity.
Qed.

(** *** The shape of a tiling *)

Lemma last_tile_shift (a tileSize : Z) :
  0 < tileSize -> last_tile (a - tileSize) tileSize = last_tile a tileSize.
Proof.
  intros Ht. unfold last_tile.
  replace (a - tileSize) with (a + (-1) * tileSize) by lia.
  now rewrite Z.mod_add by lia.
Qed.

Lemma last_tile_small (a tileSize : Z) :
  0 < a <= tileSize -> last_tile a tileSize = a.
Proof.
  intros Ha. unfold last_tile.
  destruct (Z.eq_dec a tileSize) as [->|Hne].
  - rewrite Z.mod_same by lia. reflexivity.
  - rewrite Z.mod_small by lia.
    destruct (Z.eqb_spec a 0); lia.
Qed.

Lemma tiles_from_length (count : nat) (n tileSize i : Z) :
  length (tiles_from count n tileSize i) = count.
Proof.
  revert i. induction count as [|c IH]; intros i; simpl; auto.
Qed.

Lemma tiles_from_sizes (n tileSize : Z) :
  0 < tileSize ->
  forall (count : nat) (i : Z),
    i < n ->
    count = Z.to_nat (ceil_div (n - i) tileSize) ->
    map snd (tiles_from count n tileSize i) =
      repeat tileSize (count - 1) ++ [last_tile (n - i) tileSize].
Proof.
  intros Ht. induction count as [|c IH]; intros i Hi Hc.
  - rewrite (ceil_div_step (n - i) tileSize) in Hc by lia. discriminate.
  - rewrite (ceil_div_step (n - i) tileSize) in Hc by lia.
    injection Hc as Hc. simpl.
    destruct (Z.le_gt_cases (n - i) tileSize) as [Hle|Hgt].
    + rewrite ceil_div_nonpos in Hc by lia. subst c. simpl.
      rewrite last_tile_small by lia. f_equal. lia.
    + replace (n - i - tileSize) with (n - (i + tileSize)) in Hc by lia.
      rewrite (IH (i + tileSize)) by (lia || assumption).
      replace (n - (i + tileSize)) with (n - i - tileSize) by lia.
      rewrite last_tile_shift by lia.
      rewrite Z.min_l by lia.
      assert (Hc1 : (1 <= c)%nat).
      { rewrite Hc.
        rewrite (ceil_div_step (n - (i + tileSize)) tileSize) by lia. lia. }
      rewrite Nat.sub_0_r.
      destruct c as [|c']; [lia|]. simpl. now rewrite Nat.sub_0_r.
Qed.

Lemma firstn_add_skipn {A} (a b : nat) (l : list A) :
  firstn a l ++ firstn b (skipn a l) = firstn (a + b) l.
Proof.
  revert l. induction a as [|a IH]; intros l; simpl; auto.
  destruct l as [|h tl]; simpl.
  - now rewrite firstn_nil.
  - now rewrite IH.
Qed.

(** The tiles of a batch, laid end to end, are the batch. *)
Lemma tiles_from_chunks {A} (l : list A) (n tileSize : Z) :
  0 < tileSize ->
  forall (count : nat) (i : Z),
    0 <= i ->
    count = Z.to_nat (ceil_div (n - i) tileSize) ->
    concat (map (chunk l) (tiles_from count n tileSize i)) =
      firstn (Z.to_nat (n - i)) (skipn (Z.to_nat i) l).
Proof.
  intros Ht. induction count as [|c IH]; intros i Hi Hc.
  - destruct (Z.lt_ge_cases 0 (n - i)) as [Hpos|Hnp].
    + rewrite (ceil_div_step (n - i) tileSize) in Hc by lia. discriminate.
    + simpl. replace (Z.to_nat (n - i)) with 0%nat by lia. reflexivity.
  - destruct (Z.lt_ge_cases 0 (n - i)) as [Hpos|Hnp].
    2:{ rewrite ceil_div_nonpos in Hc by lia. discriminate. }
    rewrite (ceil_div_step (n - i) tileSize) in Hc by lia.
    injection Hc as Hc.
    replace (n - i - tileSize) with (n - (i + tileSize)) in Hc by lia.
    simpl. rewrite (IH (i + tileSize)) by (lia || assumption).
    unfold chunk. simpl.
    replace (Z.to_nat (i + tileSize))
      with (Z.to_nat tileSize + Z.to_nat i)%nat by lia.
    rewrite <- skipn_skipn.
    destruct (Z.le_gt_cases (n - i) tileSize) as [Hle|Hgt].
    + rewrite Z.min_r by lia.
      replace (Z.to_nat (n - (i + tileSize))) with 0%nat by lia.
      simpl. now rewrite app_nil_r.
    + rewrite Z.min_l by lia.
      rewrite firstn_add_skipn. f_equal. lia.
Qed.

Lemma tiles_chunks {A} (l : list A) (n tileSize : Z) :
  0 < tileSize -> Z.of_nat (length l) = n ->
  concat (map (chunk l) (tiles n tileSize)) = l.
Proof.
  intros Ht Hl. unfold tiles.
  rewrite (tiles_from_chunks l n tileSize Ht _ 0);
    [| lia | now rewrite Z.sub_0_r].
  simpl. rewrite Z.sub_0_r. apply firstn_all2. lia.
Qed.

Lemma tiles_sizes (n tileSize : Z) :
  0 < tileSize -> 1 <= n ->
  map snd (tiles n tileSize) =
    repeat tileSize (Z.to_nat (ceil_div n tileSize) - 1) ++
    [last_tile n tileSize].
Proof.
  intros Ht Hn. unfold tiles.
  rewrite (tiles_from_sizes n tileSize Ht _ 0);
    [| lia | now rewrite Z.sub_0_r].
  now rewrite Z.sub_0_r.
Qed.

Lemma tiles_count (n tileSize : Z) :
  0 < tileSize -> 1 <= n ->
  Z.of_nat (length (tiles n tileSize)) = ceil_div n tileSize.
Proof.
  intros Ht Hn. unfold tiles. rewrite tiles_from_length.
  assert (0 <= ceil_div n tileSize).
  { unfold ceil_div. apply Z.div_pos; lia. }
  lia.
Qed.

Lemma should_use_cuvs_false (cfg : GpuIndexConfig) :
  deviceMajor (device cfg) < 7 \/ use_cuvs cfg = false ->
  should_use_cuvs deviceMajor cfg = false.
Proof.
  unfold should_use_cuvs. intros [H|H].
  - destruct (Z.ltb_spec (deviceMajor (device cfg)) 7); [reflexivity|lia].
  - rewrite H. now destruct (deviceMajor (device cfg) <? 7).
Qed.

Lemma should_use_cuvs_true (cfg : GpuIndexConfig) :
  7 <= deviceMajor (device cfg) /\ use_cuvs cfg = true ->
  should_use_cuvs deviceMajor cfg = true.
Proof.
  unfold should_use_cuvs. intros [H1 H2].
  destruct (Z.ltb_spec (deviceMajor (device cfg)) 7); [lia|exact H2].
Qed.

(** C3.  An insert of [n >= 1] vectors of a supported encoding of element
    size [s].  When the alternative backend is not eligible (compute
    capability below 7, or backend not requested) and [n*d*s] exceeds the
    page threshold of 256 MiB or [n] exceeds the vector-count threshold of
    512*1024, the batch is handed to the implementation tile by tile, in
    order, with [tileSize = min (n, max (1, threshold / (d*s)), 32*1024)]:
    there are [ceil (n / tileSize)] calls, all of size [tileSize] but the
    last, whose size is [n mod tileSize], or [tileSize] when that is zero.
    When the backend is eligible there is one call for the whole batch. *)
Theorem addPaged_tiling (n : Z) (x : Buffer Vec) (nt : NumericType)
    (t : data_t) (ids : option (Buffer Z)) (w : World) :
  dispatch_type nt = Some t ->
  1 <= n <= idx_max - kSearchVecSize ->
  0 < d (base (self w)) <= int_max ->
  let dim := d (base (self w)) in
  let s := sizeof t in
  let cfg := config_ (self w) in
  let tileSize :=
    Z.min (Z.min n (Z.max 1 (kAddPageSize / (dim * s)))) kSearchVecSize in
  exists (w' : World) (calls : list Event),
    addPaged_ deviceMajor n x nt ids w = (Ok tt, w') /\
    addImpl_events (trace w') = addImpl_events (trace w) ++ calls /\
    ((deviceMajor (device cfg) < 7 \/ use_cuvs cfg = false) ->
     (kAddPageSize < n * dim * s \/ kAddVecSize < n) ->
     calls = map (addImpl_of_tile x nt ids) (tiles n tileSize) /\
     Z.of_nat (length calls) = ceil_div n tileSize /\
     map impl_size calls =
       repeat tileSize (Z.to_nat (ceil_div n tileSize) - 1) ++
       [last_tile n tileSize]) /\
    ((7 <= deviceMajor (device cfg) /\ use_cuvs cfg = true) ->
     calls = [EvAddImpl n (rows n x) nt (option_map (rows n) ids)]).
Proof.
  intros Hd Hn Hdim dim s cfg tileSize.
  destruct (addPaged__run n x nt t ids w Hd Hn) as (w' & E & _ & T).
  exists w', (map (addImpl_of_tile x nt ids)
                (addPaged_plan deviceMajor (self w) n t)).
  split; [exact E|]. split; [exact T|].
  assert (Hts : 1 <= tileSize <= kSearchVecSize).
  { subst tileSize. unfold kSearchVecSize. lia. }
  unfold addPaged_plan, addPaged_tiled. fold dim cfg. split.
  - intros Hne Hbig.
    rewrite (should_use_cuvs_false cfg Hne).
    apply (addPaged_totalSize_test n dim t (proj1 Hn) Hdim) in Hbig.
    rewrite Hbig. simpl.
    rewrite (addPaged_tileSize_eq n dim t Hdim). fold s tileSize.
    split; [reflexivity|].
    rewrite length_map, (tiles_count n tileSize) by lia.
    split; [reflexivity|].
    rewrite map_map.
    rewrite <- (tiles_sizes n tileSize) by lia.
    apply map_ext. intros [o c]. reflexivity.
  - intros Hel. rewrite (should_use_cuvs_true cfg Hel). simpl.
    unfold addImpl_of_tile. simpl. now destruct ids.
Qed.

(** C8.  A successful insert of [n] vectors on a trained index increases the
    total count by exactly [n]. *)
Theorem add_with_ids_ntotal (n : Z) (x : Buffer Vec) (nt : NumericType)
    (ids : option (Buffer Z)) (w w' : World) :
  is_trained (base (self w)) = true ->
  0 <= n <= idx_max - kSearchVecSize ->
  add_with_ids deviceMajor addImplRequiresIDs_ n x nt ids w = (Ok tt, w') ->
  ntotal (base (self w')) = ntotal (base (self w)) + n.
Proof.
  intros Htr Hn. unfold add_with_ids.
  pass_trained Htr.
  destruct (Z.eqb_spec n 0) as [->|Hn0].
  - unfold ret. intros H. injection H as <-. lia.
  - assert (Hlt : (n <? 0) = false) by (apply Z.ltb_ge; lia).
    intros H.
    assert (exists ids', addPaged_ deviceMajor n x nt ids' w = (Ok tt, w'))
      as (ids' & E).
    { revert H. unfold bind at 1.
      destruct ids as [p|]; [|destruct addImplRequiresIDs_];
        rewrite ?Hlt; unfold ret; simpl; eauto. }
    destruct (dispatch_type nt) as [t|] eqn:Hd.
    + destruct (addPaged__run n x nt t ids' w Hd) as (w2 & E2 & N2 & _);
        [lia|].
      rewrite E in E2. injection E2 as <-. exact N2.
    + revert E. unfold addPaged_. rewrite Hd.
      destruct (Z.leb_spec n 0); [lia|].
      unfold throw. discriminate.
Qed.

(** *** Identifiers *)

Lemma generateIds_length (total n : Z) :
  length (generateIds total n) = Z.to_nat n.
Proof.
  unfold generateIds. now rewrite length_map, length_seq.
Qed.

Lemma generateIds_sequential (total n : Z) :
  0 <= total -> total + n <= idx_max ->
  generateIds total n =
    map (fun i => total + Z.of_nat i) (seq 0 (Z.to_nat n)).
Proof.
  intros H0 H1. unfold generateIds, idx_max in *.
  apply map_ext_in. intros i Hi. apply in_seq in Hi.
  apply to_idx_t_small. lia.
Qed.

Lemma vector_data_nonempty (v : list Z) :
  (0 < length v)%nat -> vector_data v = Some (mkBuffer (-1) v).
Proof.
  destruct v; simpl; [lia | reflexivity].
Qed.

Lemma addPaged_plan_chunks {A} (l : list A) (g : GpuIndex) (n : Z)
    (t : data_t) :
  1 <= n -> Z.of_nat (length l) = n ->
  concat (map (chunk l) (addPaged_plan deviceMajor g n t)) = l.
Proof.
  intros Hn Hl. unfold addPaged_plan.
  destruct (addPaged_tiled deviceMajor g n t).
  - apply tiles_chunks; [|exact Hl].
    pose proof (addPaged_tileSize_bounds n (d (base g)) t Hn). lia.
  - simpl. unfold chunk. simpl. rewrite app_nil_r.
    apply firstn_all2. lia.
Qed.

(** C9.  An insert of [n] vectors of dimension [0 < d <= INT_MAX] on a
    trained index.  When the caller passes no identifier array and the
    implementation requires identifiers, the identifiers handed to the
    implementation, over all its calls and in order, are
    [ntotal, ntotal + 1, ..., ntotal + n - 1] for the count [ntotal] at the
    start of the call; when the caller passes identifiers, the
    implementation is handed exactly those, in order. *)
Theorem add_with_ids_identifiers (n : Z) (x : Buffer Vec) (nt : NumericType)
    (t : data_t) (ids : option (Buffer Z)) (w : World) :
  is_trained (base (self w)) = true ->
  dispatch_type nt = Some t ->
  0 <= n <= idx_max - kSearchVecSize ->
  0 < d (base (self w)) <= int_max ->
  0 <= ntotal (base (self w)) ->
  ntotal (base (self w)) + n <= idx_max ->
  (ids = None -> addImplRequiresIDs_ = true) ->
  (forall p, ids = Some p -> Z.of_nat (length (cells p)) = n) ->
  exists (w' : World) (calls : list Event) (chunks : list (list Z)),
    add_with_ids deviceMajor addImplRequiresIDs_ n x nt ids w = (Ok tt, w') /\
    addImpl_events (trace w') = addImpl_events (trace w) ++ calls /\
    map impl_ids calls = map Some chunks /\
    concat chunks =
      match ids with
      | None =>
          map (fun i => ntotal (base (self w)) + Z.of_nat i)
            (seq 0 (Z.to_nat n))
      | Some p => cells p
      end.
Proof.
  intros Htr Hd Hn _ Hnt0 Hnt1 Hreq Hlen. unfold add_with_ids.
  pass_trained Htr.
  destruct (Z.eqb_spec n 0) as [->|Hn0].
  - exists w, [], []. unfold ret. rewrite app_nil_r.
    repeat split; auto.
    destruct ids as [p|]; simpl; auto.
    specialize (Hlen p eq_refl).
    destruct (cells p); [reflexivity | simpl in Hlen; lia].
  - assert (Hlt : (n <? 0) = false) by (apply Z.ltb_ge; lia).
    set (l := match ids with
              | None => generateIds (ntotal (base (self w))) n
              | Some p => cells p
              end).
    assert (Hl : Z.of_nat (length l) = n).
    { subst l. destruct ids as [p|]; [now apply Hlen|].
      rewrite generateIds_length. lia. }
    assert (exists r,
      (generatedIds <-
         match ids with
         | Some _ => ret []
         | None =>
             if addImplRequiresIDs_
             then if n <? 0 then throw AllocationFailure
                  else ret (generateIds (ntotal (base (self w))) n)
             else ret []
         end ;;
       addPaged_ deviceMajor n x nt
         match ids with
         | Some p => Some p
         | None => vector_data generatedIds
         end) w =
      addPaged_ deviceMajor n x nt (Some (mkBuffer r l)) w) as (r & E).
    { subst l. destruct ids as [[r c]|].
      - exists r. reflexivity.
      - exists (-1). rewrite (Hreq eq_refl), Hlt.
        unfold bind, ret. rewrite vector_data_nonempty; [reflexivity|].
        rewrite generateIds_length. lia. }
    simpl. rewrite E. clear E.
    destruct (addPaged__run n x nt t (Some (mkBuffer r l)) w Hd)
      as (w' & E & _ & T); [lia|].
    exists w', (map (addImpl_of_tile x nt (Some (mkBuffer r l)))
                  (addPaged_plan deviceMajor (self w) n t)),
      (map (chunk l) (addPaged_plan deviceMajor (self w) n t)).
    split; [exact E|]. split; [exact T|]. split.
    + rewrite !map_map. apply map_ext. intros [o c]. reflexivity.
    + rewrite addPaged_plan_chunks by lia.
      subst l. destruct ids as [p|]; [reflexivity|].
      now apply generateIds_sequential.
Qed.

End InsertFacts.

(** ** Metadata snapshots *)

(** C10.  [copyFrom] sets exactly the five metadata fields of the index from
    the mirror and leaves the rest of the object alone; [copyTo] writes
    exactly those five fields to the mirror and leaves the index alone;
    neither touches the device (the trace does not grow); and [copyFrom] of
    what [copyTo] wrote restores the metadata, whatever happened to them in
    between. *)
Theorem copy_metadata (mirror : Index) (w : World) :
  (exists w',
     GpuIndex_copyFrom mirror w = (Ok tt, w') /\
     trace w' = trace w /\
     d (base (self w')) = d mirror /\
     metric_type (base (self w')) = metric_type mirror /\
     metric_arg (base (self w')) = metric_arg mirror /\
     ntotal (base (self w')) = ntotal mirror /\
     is_trained (base (self w')) = is_trained mirror /\
     resources_ (self w') = resources_ (self w) /\
     config_ (self w') = config_ (self w) /\
     minPagedSize_ (self w') = minPagedSize_ (self w)) /\
  (exists m',
     GpuIndex_copyTo mirror w = (Ok m', w) /\
     d m' = d (base (self w)) /\
     metric_type m' = metric_type (base (self w)) /\
     metric_arg m' = metric_arg (base (self w)) /\
     ntotal m' = ntotal (base (self w)) /\
     is_trained m' = is_trained (base (self w))) /\
  (m' <- GpuIndex_copyTo mirror ;; GpuIndex_copyFrom m') w = (Ok tt, w) /\
  (forall altered : Index,
     (m' <- GpuIndex_copyTo mirror ;;
      GpuIndex_copyFrom altered ;;;
      GpuIndex_copyFrom m') w = (Ok tt, w)).
Proof.
  destruct w as [[[dim mt ma nt tr] res cfg mp] trc].
  repeat split.
  - eexists. split; [reflexivity|]. simpl. repeat split.
  - eexists. split; [reflexivity|]. simpl. repeat split.
Qed.

Section SearchFacts.

Variable deviceMajor : Z -> Z.
Variable addImplRequiresIDs_ : bool.
Variable get_numeric_type_size : NumericType -> Result Z.
Variable getMaxKSelection : bool -> Z.
Variable searchOne : NumericType -> Z -> Vec -> DistRow * LabelRow.

Local Notation "'search_'" :=
  (search deviceMajor get_numeric_type_size getMaxKSelection searchOne).
Local Notation "'assign_'" :=
  (assign deviceMajor get_numeric_type_size getMaxKSelection searchOne).
Local Notation "'searchFromCpuPaged'" :=
  (searchFromCpuPaged_ get_numeric_type_size searchOne).

(** ** Guards of the public operations *)

(** C7.  On an index whose trained flag is false, insert ([add],
    [add_with_ids]), [search] and [assign] fail with [NotTrained] for all
    arguments, and the state they leave is the state they found: nothing was
    moved and the implementation was not called. *)
Theorem untrained_fails (n k : Z) (x : Buffer Vec) (nt : NumericType)
    (ids : option (Buffer Z)) (distances : Buffer DistRow)
    (labels : Buffer LabelRow) (w : World) :
  is_trained (base (self w)) = false ->
  add_with_ids deviceMajor addImplRequiresIDs_ n x nt ids w
    = (Throw NotTrained, w) /\
  add deviceMajor addImplRequiresIDs_ n x nt w = (Throw NotTrained, w) /\
  search_ n x nt k distances labels w = (Throw NotTrained, w) /\
  assign_ n x labels k w = (Throw NotTrained, w).
Proof.
  intros Htr.
  unfold add, add_with_ids, search, assign, bind, this.
  rewrite Htr. simpl. auto.
Qed.

Lemma validateKSelect_ok (k : Z) (b : bool) (w : World) :
  0 < k <= getMaxKSelection b ->
  validateKSelect getMaxKSelection k b w = (Ok tt, w).
Proof.
  intros [H1 H2]. unfold validateKSelect.
  destruct (Z.ltb_spec 0 k); [|lia].
  destruct (Z.leb_spec k (getMaxKSelection b)); [|lia].
  reflexivity.
Qed.

Lemma validateKSelect_zero (b : bool) (w : World) :
  validateKSelect getMaxKSelection 0 b w = (Throw InvalidK, w).
Proof. reflexivity. Qed.

(** C6, as the code has it.  On a trained index, [search] with [n = 0] and a
    [k] that the validation accepts returns without calling the
    implementation and without writing the outputs; [search] with [k = 0] is
    rejected with [InvalidK] by the validation, which runs before the test
    for an empty request, and leaves everything as it was; an insert with
    [n = 0] returns with no effect. *)
Theorem empty_request_noop (n k : Z) (x : Buffer Vec) (nt : NumericType)
    (ids : option (Buffer Z)) (distances : Buffer DistRow)
    (labels : Buffer LabelRow) (w : World) :
  is_trained (base (self w)) = true ->
  (0 < to_int k <= getMaxKSelection
                     (should_use_cuvs deviceMajor (config_ (self w))) ->
   search_ 0 x nt k distances labels w = (Ok (distances, labels), w)) /\
  search_ n x nt 0 distances labels w = (Throw InvalidK, w) /\
  add_with_ids deviceMajor addImplRequiresIDs_ 0 x nt ids w = (Ok tt, w) /\
  add deviceMajor addImplRequiresIDs_ 0 x nt w = (Ok tt, w).
Proof.
  intros Htr. repeat split.
  - intros Hk. unfold search. pass_trained Htr.
    unfold bind at 1. rewrite (validateKSelect_ok _ _ _ Hk).
    reflexivity.
  - unfold search. pass_trained Htr.
    unfold bind at 1. now rewrite validateKSelect_zero.
  - unfold add_with_ids, bind, this. now rewrite Htr.
  - unfold add, add_with_ids, bind, this. now rewrite Htr.
Qed.

(** ** Page sizes *)

Lemma isPowerOf2_pow2 (v : Z) :
  isPowerOf2 v = true -> 0 <= v -> v = 2 ^ Z.log2 v.
Proof.
  unfold isPowerOf2. intros H Hv.
  apply andb_true_iff in H. destruct H as [Hnz Hland].
  apply negb_true_iff, Z.eqb_neq in Hnz. apply Z.eqb_eq in Hland.
  assert (Hpos : 0 < v) by lia.
  destruct (Z.log2_spec v Hpos) as [Hlo Hhi].
  destruct (Z.eq_dec v (2 ^ Z.log2 v)) as [|Hne]; [assumption|exfalso].
  assert (Hlog : Z.log2 (v - 1) = Z.log2 v).
  { apply Z.log2_unique; [apply Z.log2_nonneg | lia]. }
  assert (Hb1 : Z.testbit v (Z.log2 v) = true) by now apply Z.bit_log2.
  assert (Hb2 : Z.testbit (v - 1) (Z.log2 v) = true).
  { rewrite <- Hlog. apply Z.bit_log2.
    pose proof (Z.pow_pos_nonneg 2 (Z.log2 v) ltac:(lia) (Z.log2_nonneg v)).
    lia. }
  assert (Hb : Z.testbit (Z.land v (v - 1)) (Z.log2 v) = true)
    by now rewrite Z.land_spec, Hb1, Hb2.
  rewrite Hland, Z.bits_0 in Hb. discriminate.
Qed.

Lemma nextHighestPowerOf2_spec (v : Z) :
  0 <= v <= 2 ^ 62 ->
  v < nextHighestPowerOf2 v /\
  nextHighestPowerOf2 v = 2 ^ (Z.log2 v + 1).
Proof.
  intros Hv. unfold nextHighestPowerOf2.
  assert (Hl : 0 <= Z.log2 v) by apply Z.log2_nonneg.
  assert (Hp : 2 ^ (Z.log2 v + 1) = 2 * 2 ^ Z.log2 v)
    by (rewrite Z.pow_add_r by lia; lia).
  destruct (isPowerOf2 v) eqn:Hpow.
  - pose proof (isPowerOf2_pow2 v Hpow (proj1 Hv)) as Hv2.
    assert (v <> 0).
    { unfold isPowerOf2 in Hpow. apply andb_true_iff in Hpow.
      destruct Hpow as [Hnz _].
      now apply negb_true_iff, Z.eqb_neq in Hnz. }
    rewrite to_size_t_small by lia. lia.
  - rewrite Z.shiftl_1_l.
    destruct (Z.eq_dec v 0) as [->|Hnz].
    + simpl. rewrite to_size_t_small by lia. lia.
    + destruct (Z.log2_spec v ltac:(lia)) as [Hlo Hhi].
      replace (Z.succ (Z.log2 v)) with (Z.log2 v + 1) in Hhi by lia.
      rewrite to_size_t_small by lia. lia.
Qed.

Lemma fallback_quotient_bounds (s dim : Z) :
  0 <= to_size_t kNonPinnedPageSize / to_size_t (s * to_size_t dim)
    <= 2 ^ 28.
Proof.
  unfold kNonPinnedPageSize.
  rewrite (to_size_t_small (256 * 1024 * 1024)) by lia.
  set (q := to_size_t (s * to_size_t dim)).
  assert (Hq : 0 <= q) by (unfold q, to_size_t; apply Z.mod_pos_bound; lia).
  destruct (Z.eq_dec q 0) as [->|Hnz].
  - rewrite Z.div_0_r. lia.
  - split; [apply Z.div_pos; lia|].
    apply Z.div_le_upper_bound; nia.
Qed.

(** The page of the unbuffered paging is a power of two between 2 and 2^29,
    whatever the element size and the dimension. *)
Lemma batchSize_of_bounds (s dim : Z) :
  2 <= batchSize_of s dim <= 2 ^ 29 /\
  batchSize_of s dim =
    2 ^ (Z.log2 (to_size_t kNonPinnedPageSize /
                 to_size_t (s * to_size_t dim)) + 1).
Proof.
  unfold batchSize_of.
  pose proof (fallback_quotient_bounds s dim) as Hq.
  set (q := to_size_t kNonPinnedPageSize / to_size_t (s * to_size_t dim))
    in *.
  destruct (nextHighestPowerOf2_spec q ltac:(lia)) as [Hgt Heq].
  assert (Hl : 0 <= Z.log2 q <= 28).
  { split; [apply Z.log2_nonneg|].
    change 28 with (Z.log2 (2 ^ 28)). apply Z.log2_le_mono. lia. }
  assert (Hp : 2 ^ 1 <= 2 ^ (Z.log2 q + 1) <= 2 ^ 29)
    by (split; apply Z.pow_le_mono_r; lia).
  rewrite Heq. rewrite to_idx_t_small by lia. split; [lia|reflexivity].
Qed.

Lemma size_product (s dim : Z) :
  0 < dim <= int_max -> 0 < s <= 2 ^ 32 ->
  to_size_t (s * to_size_t dim) = s * dim /\ 0 < s * dim.
Proof.
  intros Hd Hs. unfold int_max in *.
  rewrite (to_size_t_small dim) by lia.
  rewrite to_size_t_small by nia. nia.
Qed.

(** C4.  For staging capacity [C], dimension [dim] and element size [s], the
    page of the buffered path is [floor ((C / 2) / (s * dim))] vectors.  If
    no staging memory is available or that value is below 1, the paged search
    is the sequential unbuffered paging, whose page is the fallback byte
    threshold divided by [s * dim] and rounded to the next highest power of
    two; that page is never zero vectors.  Otherwise the paged search is the
    overlapped pipeline with the buffered page. *)
Theorem page_size_derivation (n k s : Z) (x : Buffer Vec) (nt : NumericType)
    (out : Out) (w : World) :
  let C := snd (getPinnedMemory (resources_ (self w))) in
  let available := fst (getPinnedMemory (resources_ (self w))) in
  let dim := d (base (self w)) in
  get_numeric_type_size nt = Ok s ->
  0 <= C < 2 ^ 64 ->
  0 < dim <= int_max ->
  0 < s <= 2 ^ 32 ->
  pageSizeInVecs_of C s dim = (C / 2) / (s * dim) /\
  batchSize_of s dim = nextHighestPowerOf2 (kNonPinnedPageSize / (s * dim)) /\
  kNonPinnedPageSize / (s * dim) < batchSize_of s dim /\
  (exists e, 0 <= e /\ batchSize_of s dim = 2 ^ e) /\
  1 <= batchSize_of s dim /\
  (available = false \/ (C / 2) / (s * dim) < 1 ->
   searchFromCpuPaged n x nt k out w =
     searchUnbuffered_loop searchOne (Z.to_nat n) n x nt k
       (batchSize_of s dim) 0 out w) /\
  (available = true /\ 1 <= (C / 2) / (s * dim) ->
   searchFromCpuPaged n x nt k out w =
     (st <- searchOverlapped searchOne n x nt k ((C / 2) / (s * dim)) out ;;
      ret (outs st)) w).
Proof.
  intros C available dim Hs HC Hd Hs1.
  destruct (size_product s dim Hd Hs1) as [Hprod Hpos].
  assert (Hpage : pageSizeInVecs_of C s dim = (C / 2) / (s * dim)).
  { unfold pageSizeInVecs_of. rewrite Hprod, (to_size_t_small C) by lia.
    assert (0 <= C / 2 / (s * dim) <= C / 2).
    { split; [apply Z.div_pos; [apply Z.div_pos|]; lia|].
      apply Z.div_le_upper_bound; [lia|].
      assert (0 <= C / 2) by (apply Z.div_pos; lia). nia. }
    assert (C / 2 < 2 ^ 63) by (apply Z.div_lt_upper_bound; lia).
    apply to_idx_t_small. lia. }
  pose proof (batchSize_of_bounds s dim) as [Hb Hbe].
  pose proof (fallback_quotient_bounds s dim) as Hq.
  unfold kNonPinnedPageSize in *.
  rewrite Hprod, (to_size_t_small (256 * 1024 * 1024)) in Hbe, Hq by lia.
  destruct (nextHighestPowerOf2_spec (256 * 1024 * 1024 / (s * dim))
              ltac:(lia)) as [Hgt Heq].
  split; [exact Hpage|]. split; [congruence|].
  split; [rewrite Hbe, <- Heq; exact Hgt|].
  split.
  { eexists. split; [|exact Hbe].
    pose proof (Z.log2_nonneg (256 * 1024 * 1024 / (s * dim))). lia. }
  split; [lia|].
  assert (Hrun :
    searchFromCpuPaged n x nt k out w =
      if negb available || (C / 2 / (s * dim) <? 1)
      then searchUnbuffered_loop searchOne (Z.to_nat n) n x nt k
             (batchSize_of s dim) 0 out w
      else (st <- searchOverlapped searchOne n x nt k
                    ((C / 2) / (s * dim)) out ;;
            ret (outs st)) w).
  { unfold searchFromCpuPaged_. unfold bind at 1, this at 1.
    cbv beta iota. unfold bind at 1, lift at 1. rewrite Hs.
    cbv beta iota. fold C available dim. rewrite Hpage.
    destruct (negb available || (C / 2 / (s * dim) <? 1)); reflexivity. }
  rewrite Hrun. split.
  - intros Hfall.
    assert (Ht : negb available || (C / 2 / (s * dim) <? 1) = true).
    { destruct Hfall as [->|Hlt]; [reflexivity|].
      apply orb_true_iff. right. now apply Z.ltb_lt. }
    now rewrite Ht.
  - intros [Hav Hge].
    assert (Ht : negb available || (C / 2 / (s * dim) <? 1) = false).
    { rewrite Hav. simpl. apply Z.ltb_ge. lia. }
    now rewrite Ht.
Qed.

(** ** The stages of the pipeline *)

Lemma stage_transfer_run (n p : Z) (st : Pipeline) (w : World) :
  1 <= p -> n <= idx_max -> 0 <= cur2 st < n ->
  let m := Z.min p (n - cur2 st) in
  let b := cur2BufIndex st in
  stage_transfer n p st w =
    (Ok (mkPipeline
           (bufPinned st)
           (upd b (store_rows (firstn (Z.to_nat m) (sel b (bufPinned st)))
                     (sel b (bufGpus st)))
              (bufGpus st))
           (upd b true (eventPinnedCopyDone st))
           (eventGpuExecuteDone st)
           (cur1 st) (cur1BufIndex st)
           (cur2 st + m) (toggle b)
           (cur2 st) (cur3BufIndex st)
           (outs st)),
     mkWorld (self w) (trace w ++ [EvCopyPinnedToGpu b m])).
Proof.
  intros Hp Hn Hc m b. unfold stage_transfer, idx_max in *.
  destruct (Z.eqb_spec (cur2 st) (-1)); [lia|].
  destruct (Z.ltb_spec (cur2 st) n); [|lia].
  simpl. unfold bind, emit, ret. fold m b.
  rewrite to_idx_t_small by (subst m; lia). reflexivity.
Qed.

Lemma stage_transfer_skip (n p : Z) (st : Pipeline) (w : World) :
  cur2 st = -1 \/ n <= cur2 st ->
  stage_transfer n p st w = (Ok st, w).
Proof.
  intros H. unfold stage_transfer.
  destruct (Z.eqb_spec (cur2 st) (-1)); [reflexivity|].
  destruct (Z.ltb_spec (cur2 st) n); [lia|reflexivity].
Qed.

Lemma stage_compute_run (n p k : Z) (nt : NumericType) (st : Pipeline)
    (w : World) :
  1 <= p -> n <= idx_max -> 0 <= cur3 st < n ->
  sel (cur3BufIndex st) (eventPinnedCopyDone st) = true ->
  let m := Z.min p (n - cur3 st) in
  let b := cur3BufIndex st in
  let page := firstn (Z.to_nat m) (sel b (bufGpus st)) in
  let res := map (searchOne nt k) page in
  stage_compute searchOne n p nt k st w =
    (Ok (mkPipeline
           (bufPinned st) (bufGpus st)
           (eventPinnedCopyDone st)
           (upd b true (eventGpuExecuteDone st))
           (cur1 st) (cur1BufIndex st)
           (cur2 st) (cur2BufIndex st)
           (cur3 st + m) (toggle b)
           (write_rows (cur3 st) (map fst res) (fst (outs st)),
            write_rows (cur3 st) (map snd res) (snd (outs st)))),
     mkWorld (self w) (trace w ++ [EvSearchImpl m page nt k (cur3 st)])).
Proof.
  intros Hp Hn Hc He m b page res. unfold stage_compute, idx_max in *.
  destruct (Z.eqb_spec (cur3 st) (-1)); [lia|].
  destruct (Z.ltb_spec (cur3 st) n); [|lia].
  cbn [negb andb]. cbv zeta. rewrite He. cbn [negb].
  unfold bind, this, searchImpl_, bind, emit, ret, rows.
  cbn [cells]. fold m.
  rewrite to_idx_t_small by (subst m; lia). reflexivity.
Qed.

Lemma stage_compute_skip (n p k : Z) (nt : NumericType) (st : Pipeline)
    (w : World) :
  cur3 st = -1 \/ n <= cur3 st ->
  stage_compute searchOne n p nt k st w = (Ok st, w).
Proof.
  intros H. unfold stage_compute.
  destruct (Z.eqb_spec (cur3 st) (-1)); [reflexivity|].
  destruct (Z.ltb_spec (cur3 st) n); [lia|reflexivity].
Qed.

Lemma stage_copy_in_run (n p : Z) (x : Buffer Vec) (st : Pipeline)
    (w : World) :
  1 <= p -> n <= idx_max -> 0 <= cur1 st < n ->
  let m := Z.min p (n - cur1 st) in
  let b := cur1BufIndex st in
  stage_copy_in n p x st w =
    (Ok (mkPipeline
           (upd b (store_rows (chunk (cells x) (cur1 st, m))
                     (sel b (bufPinned st)))
              (bufPinned st))
           (bufGpus st)
           (eventPinnedCopyDone st) (eventGpuExecuteDone st)
           (cur1 st + m) (toggle b)
           (cur1 st) (cur2BufIndex st)
           (cur3 st) (cur3BufIndex st)
           (outs st)),
     mkWorld (self w) (trace w ++ [EvCopyToPinned b (cur1 st) m])).
Proof.
  intros Hp Hn Hc m b. unfold stage_copy_in, idx_max in *.
  destruct (Z.ltb_spec (cur1 st) n); [|lia].
  unfold bind, emit, ret. fold m b.
  rewrite to_idx_t_small by (subst m; lia). reflexivity.
Qed.

Lemma stage_copy_in_skip (n p : Z) (x : Buffer Vec) (st : Pipeline)
    (w : World) :
  n <= cur1 st -> stage_copy_in n p x st w = (Ok st, w).
Proof.
  intros H. unfold stage_copy_in.
  destruct (Z.ltb_spec (cur1 st) n); [lia|reflexivity].
Qed.

Lemma sel_upd {A} (i : Z) (v : A) (p : A * A) : sel i (upd i v p) = v.
Proof. unfold sel, upd. now destruct (i =? 0). Qed.

Lemma chunk_length {A} (l : list A) (c m : Z) :
  0 <= c -> 0 <= m -> c + m <= Z.of_nat (length l) ->
  length (chunk l (c, m)) = Z.to_nat m.
Proof.
  intros Hc Hm Hl. unfold chunk. simpl.
  rewrite firstn_length_le; [reflexivity|].
  rewrite length_skipn. lia.
Qed.

Lemma firstn_store_rows {A} (new old : list A) :
  firstn (length new) (store_rows new old) = new.
Proof.
  unfold store_rows. rewrite firstn_app, Nat.sub_diag. simpl.
  rewrite app_nil_r. apply firstn_all.
Qed.

Lemma write_rows_after {A} (c : Z) (done new o : list A) :
  length done = Z.to_nat c ->
  write_rows c new (done ++ skipn (Z.to_nat c) o) =
    (done ++ new) ++ skipn (Z.to_nat c + length new) o.
Proof.
  intros Hl. unfold write_rows.
  rewrite firstn_app, <- Hl, Nat.sub_diag, firstn_all. simpl.
  rewrite app_nil_r, <- app_assoc. do 2 f_equal.
  rewrite skipn_app, Hl.
  rewrite (skipn_all2 done) by lia. simpl.
  rewrite skipn_skipn. f_equal. lia.
Qed.

Lemma searched_0 (x : Buffer Vec) (nt : NumericType) (k : Z) (out0 : Out) :
  searched searchOne x nt k out0 0 = out0.
Proof. destruct out0. reflexivity. Qed.

(** Answering the page at [c] after the queries before [c]. *)
Lemma searched_step (x : Buffer Vec) (nt : NumericType) (k : Z) (out0 : Out)
    (c m : Z) :
  0 <= c -> 0 <= m -> c + m <= Z.of_nat (length (cells x)) ->
  let res := map (searchOne nt k) (chunk (cells x) (c, m)) in
  (write_rows c (map fst res) (fst (searched searchOne x nt k out0 c)),
   write_rows c (map snd res) (snd (searched searchOne x nt k out0 c))) =
  searched searchOne x nt k out0 (c + m).
Proof.
  intros Hc Hm Hl res. unfold searched. simpl.
  assert (Hlen : length (firstn (Z.to_nat c) (cells x)) = Z.to_nat c)
    by (apply firstn_length_le; lia).
  assert (Hsplit : firstn (Z.to_nat (c + m)) (cells x) =
                   firstn (Z.to_nat c) (cells x) ++ chunk (cells x) (c, m)).
  { unfold chunk. simpl. rewrite firstn_add_skipn. f_equal. lia. }
  rewrite !write_rows_after by (now rewrite !length_map).
  unfold res. rewrite !length_map, chunk_length by lia.
  rewrite Hsplit, !map_app.
  replace (Z.to_nat c + Z.to_nat m)%nat with (Z.to_nat (c + m)) by lia.
  reflexivity.
Qed.

(** ** One iteration of the pipeline *)

(** The first iteration: only the copy-in stage runs. *)
Lemma pipeline_body_first (n p k : Z) (x : Buffer Vec) (nt : NumericType)
    (res : GpuResources) (out0 : Out) (w : World) :
  1 <= p -> 1 <= n <= idx_max -> Z.of_nat (length (cells x)) = n ->
  exists st',
    pipeline_body searchOne n p x nt k (pipeline_init res out0) w =
      (Ok st',
       mkWorld (self w) (trace w ++ [EvCopyToPinned 0 0 (Z.min p n)])) /\
    pipe_inv searchOne n p x nt k out0 0 st'.
Proof.
  intros Hp Hn Hl. unfold pipeline_body.
  unfold bind at 1. rewrite stage_transfer_skip by (left; reflexivity).
  unfold bind at 1. rewrite stage_compute_skip by (left; reflexivity).
  pose proof (stage_copy_in_run n p x (pipeline_init res out0) w Hp
                (proj2 Hn)) as E.
  cbv zeta in E. rewrite E by (simpl; lia). clear E.
  simpl. rewrite Z.sub_0_r. eexists. split; [reflexivity|].
  unfold pipe_inv. simpl. rewrite Z.sub_0_r.
  repeat split; try lia; auto.
  - rewrite <- (chunk_length (cells x) 0 (Z.min p n)) by lia.
    apply firstn_store_rows.
  - now rewrite searched_0.
Qed.

(** A later iteration: the page at [c] is transferred and computed, and the
    page after it, if there is one, is copied in. *)
Lemma pipeline_body_steady (n p k : Z) (x : Buffer Vec) (nt : NumericType)
    (out0 : Out) (c : Z) (st : Pipeline) (w : World) :
  1 <= p -> 1 <= n <= idx_max -> Z.of_nat (length (cells x)) = n ->
  pipe_inv searchOne n p x nt k out0 c st -> c < n ->
  let m := Z.min p (n - c) in
  let b := cur2BufIndex st in
  exists st',
    pipeline_body searchOne n p x nt k st w =
      (Ok st',
       mkWorld (self w)
         (trace w ++
          [EvCopyPinnedToGpu b m; searchImpl_of_page x nt k (c, m)] ++
          (if c + m <? n
           then [EvCopyToPinned (toggle b) (c + m) (Z.min p (n - (c + m)))]
           else []))) /\
    pipe_inv searchOne n p x nt k out0 (c + m) st'.
Proof.
  intros Hp Hn Hl Hinv Hc m b.
  destruct Hinv as (Hc0 & H2 & H3 & H1 & Hb & Hpin & Hout).
  destruct (Hpin Hc) as [Hb1 Hpage]. clear Hpin.
  assert (Hm : 1 <= m <= n - c) by (subst m; lia).
  assert (Hlen : length (chunk (cells x) (c, m)) = Z.to_nat m)
    by (apply chunk_length; lia).
  unfold pipeline_body.
  (* transfer *)
  pose proof (stage_transfer_run n p st w Hp (proj2 Hn)) as E2.
  cbv zeta in E2. unfold bind at 1. rewrite E2 by lia. clear E2.
  rewrite H2. fold m b. cbv beta iota. unfold bind at 1.
  fold m in Hpage. fold b in Hpage. rewrite Hpage, Hb, Hout. fold b.
  (* compute *)
  match goal with
  | |- context [stage_compute _ _ _ _ _ ?s ?w'] =>
      pose proof (stage_compute_run n p k nt s w' Hp (proj2 Hn)) as E3
  end.
  cbv zeta in E3. cbn [cur3 cur3BufIndex eventPinnedCopyDone bufGpus
                       bufPinned cur1 cur2 cur1BufIndex cur2BufIndex outs
                       eventGpuExecuteDone self trace] in E3.
  rewrite !sel_upd in E3.
  specialize (E3 ltac:(lia) eq_refl). fold m in E3.
  rewrite <- Hlen, firstn_store_rows in E3.
  rewrite (searched_step x nt k out0 c m) in E3 by lia.
  rewrite E3. clear E3. cbv beta iota.
  (* copy-in *)
  rewrite <- !app_assoc. simpl app.
  fold m in H1. rewrite H1, Hb1. fold b.
  destruct (Z.ltb_spec (c + m) n) as [Hmore|Hlast].
  - match goal with
    | |- context [stage_copy_in _ _ _ ?s ?w'] =>
        pose proof (stage_copy_in_run n p x s w' Hp (proj2 Hn)) as E1
    end.
    cbv zeta in E1. cbn [cur3 cur3BufIndex eventPinnedCopyDone bufGpus
                         bufPinned cur1 cur2 cur1BufIndex cur2BufIndex outs
                         eventGpuExecuteDone self trace] in E1.
    rewrite E1 by lia. clear E1.
    rewrite <- !app_assoc. simpl app.
    eexists. split; [reflexivity|].
    unfold pipe_inv. cbn [cur3 cur3BufIndex bufPinned cur1 cur2
                            cur1BufIndex cur2BufIndex outs].
    repeat split; try lia; auto.
    rewrite sel_upd.
    rewrite <- (chunk_length (cells x) (c + m) (Z.min p (n - (c + m))))
      by lia.
    apply firstn_store_rows.
  - rewrite stage_copy_in_skip by (cbn [cur1]; lia).
    eexists. split; [reflexivity|].
    unfold pipe_inv. cbn [cur3 cur3BufIndex bufPinned cur1 cur2
                            cur1BufIndex cur2BufIndex outs].
    repeat split; try lia; auto.
Qed.

(** ** The loop of the pipeline *)

Lemma searchImpl_events_app (l1 l2 : list Event) :
  searchImpl_events (l1 ++ l2) = searchImpl_events l1 ++ searchImpl_events l2.
Proof. apply filter_app. Qed.

Lemma tiles_from_rest (n p c : Z) :
  0 < p -> c < n ->
  tiles_from (Z.to_nat (ceil_div (n - (c + Z.min p (n - c))) p)) n p
    (c + Z.min p (n - c)) =
  tiles_from (Z.to_nat (ceil_div (n - c - p) p)) n p (c + p).
Proof.
  intros Hp Hc. destruct (Z.le_gt_cases (n - c) p).
  - rewrite Z.min_r by lia. now rewrite !ceil_div_nonpos by lia.
  - rewrite Z.min_l by lia. now replace (n - (c + p)) with (n - c - p) by lia.
Qed.

(** From a head of the loop at which the invariant holds, the loop ends with
    the three cursors at [n], all queries answered, and one call of the
    implementation per page that was left. *)
Lemma pipeline_loop_run (n p k : Z) (x : Buffer Vec) (nt : NumericType)
    (out0 : Out) :
  1 <= p -> 1 <= n <= idx_max -> Z.of_nat (length (cells x)) = n ->
  forall (fuel : nat) (c : Z) (st : Pipeline) (w : World),
    pipe_inv searchOne n p x nt k out0 c st ->
    (Z.to_nat (n - c) <= fuel)%nat ->
    exists st' w',
      pipeline_loop searchOne fuel n p x nt k st w = (Ok st', w') /\
      cur1 st' = n /\ cur2 st' = n /\ cur3 st' = n /\
      outs st' = searched searchOne x nt k out0 n /\
      self w' = self w /\
      searchImpl_events (trace w') =
        searchImpl_events (trace w) ++
        map (searchImpl_of_page x nt k)
          (tiles_from (Z.to_nat (ceil_div (n - c) p)) n p c).
Proof.
  intros Hp Hn Hl.
  assert (Hdone : forall fuel c st w,
    pipe_inv searchOne n p x nt k out0 c st -> n <= c ->
    exists st' w',
      pipeline_loop searchOne fuel n p x nt k st w = (Ok st', w') /\
      cur1 st' = n /\ cur2 st' = n /\ cur3 st' = n /\
      outs st' = searched searchOne x nt k out0 n /\
      self w' = self w /\
      searchImpl_events (trace w') =
        searchImpl_events (trace w) ++
        map (searchImpl_of_page x nt k)
          (tiles_from (Z.to_nat (ceil_div (n - c) p)) n p c)).
  { intros fuel c st w (Hc0 & H2 & H3 & H1 & _ & _ & Hout) Hge.
    assert (c = n) by lia. subst c.
    assert (H3' : cur3 st = n) by lia.
    exists st, w.
    rewrite ceil_div_nonpos by lia. simpl. rewrite app_nil_r.
    repeat split; auto; try lia; try congruence.
    destruct fuel; simpl; rewrite H3';
      destruct (Z.ltb_spec n n); (lia || reflexivity). }
  induction fuel as [|fuel IH]; intros c st w Hinv Hf.
  - apply Hdone; [exact Hinv|lia].
  - destruct (Z.lt_ge_cases c n) as [Hc|Hc]; [|now apply Hdone].
    destruct (pipeline_body_steady n p k x nt out0 c st w Hp Hn Hl Hinv Hc)
      as (st1 & E1 & Hinv1).
    assert (H3 : cur3 st < n).
    { destruct Hinv as (_ & _ & H3 & _). lia. }
    simpl. destruct (Z.ltb_spec (cur3 st) n); [|lia].
    unfold bind at 1. rewrite E1.
    cbv beta iota.
    match goal with
    | |- context [pipeline_loop _ _ _ _ _ _ _ st1 ?w1] =>
        destruct (IH (c + Z.min p (n - c)) st1 w1 Hinv1)
          as (st' & w' & E & F1 & F2 & F3 & Fo & Fs & Ft); [lia|]
    end.
    exists st', w'. split; [exact E|].
    repeat (split; [assumption|]).
    rewrite Ft. simpl self. simpl trace.
    rewrite !searchImpl_events_app. simpl.
    rewrite (ceil_div_step (n - c) p) by lia.
    simpl. rewrite <- !app_assoc.
    rewrite (tiles_from_rest n p c) by lia.
    destruct (c + Z.min p (n - c) <? n); reflexivity.
Qed.

(** The overlapped path on a supported encoding. *)
Lemma searchOverlapped_run (n p k : Z) (x : Buffer Vec) (nt : NumericType)
    (t : data_t) (out0 : Out) (w : World) :
  dispatch_type nt = Some t ->
  1 <= p -> 1 <= n <= idx_max -> Z.of_nat (length (cells x)) = n ->
  exists st' w',
    searchOverlapped searchOne n x nt k p out0 w = (Ok st', w') /\
    cur1 st' = n /\ cur2 st' = n /\ cur3 st' = n /\
    outs st' = searched searchOne x nt k out0 n /\
    self w' = self w /\
    searchImpl_events (trace w') =
      searchImpl_events (trace w) ++
      map (searchImpl_of_page x nt k) (tiles n p).
Proof.
  intros Hd Hp Hn Hl. unfold searchOverlapped. rewrite Hd.
  unfold bind at 1, this at 1. cbv beta iota.
  destruct (pipeline_body_first n p k x nt (resources_ (self w)) out0 w
              Hp Hn Hl) as (st1 & E1 & Hinv1).
  cbn [pipeline_loop]. cbn [pipeline_init cur3].
  destruct (Z.ltb_spec (-1) n); [|lia].
  unfold bind at 1. rewrite E1. cbv beta iota.
  match goal with
  | |- context [pipeline_loop _ _ _ _ _ _ _ st1 ?w1] =>
      destruct (pipeline_loop_run n p k x nt out0 Hp Hn Hl (Z.to_nat n) 0
                  st1 w1 Hinv1)
        as (st' & w' & E & F1 & F2 & F3 & Fo & Fs & Ft); [lia|]
  end.
  exists st', w'. split; [exact E|].
  repeat (split; [assumption|]).
  rewrite Ft. cbn [trace]. rewrite searchImpl_events_app. simpl.
  rewrite app_nil_r, Z.sub_0_r. reflexivity.
Qed.

(** The pages of a batch cover the indices [0, n), each once and in
    order. *)
Lemma tiles_from_indices (n p : Z) :
  0 < p ->
  forall (count : nat) (i : Z),
    0 <= i ->
    count = Z.to_nat (ceil_div (n - i) p) ->
    concat (map (fun tl => map Z.of_nat
                             (seq (Z.to_nat (fst tl)) (Z.to_nat (snd tl))))
              (tiles_from count n p i)) =
      map Z.of_nat (seq (Z.to_nat i) (Z.to_nat (n - i))).
Proof.
  intros Hp. induction count as [|c IH]; intros i Hi Hc.
  - destruct (Z.lt_ge_cases 0 (n - i)) as [Hpos|Hnp].
    + rewrite (ceil_div_step (n - i) p) in Hc by lia. discriminate.
    + simpl. replace (Z.to_nat (n - i)) with 0%nat by lia. reflexivity.
  - destruct (Z.lt_ge_cases 0 (n - i)) as [Hpos|Hnp].
    2:{ rewrite ceil_div_nonpos in Hc by lia. discriminate. }
    rewrite (ceil_div_step (n - i) p) in Hc by lia.
    injection Hc as Hc.
    replace (n - i - p) with (n - (i + p)) in Hc by lia.
    simpl. rewrite (IH (i + p)) by (lia || assumption).
    rewrite <- map_app. f_equal.
    destruct (Z.le_gt_cases (n - i) p) as [Hle|Hgt].
    + rewrite Z.min_r by lia.
      replace (Z.to_nat (n - (i + p))) with 0%nat by lia.
      simpl. now rewrite app_nil_r.
    + rewrite Z.min_l by lia.
      replace (Z.to_nat (i + p)) with (Z.to_nat i + Z.to_nat p)%nat by lia.
      rewrite <- seq_app. f_equal. lia.
Qed.

Lemma searchImpl_pages_cover (n p k : Z) (x : Buffer Vec)
    (nt : NumericType) :
  0 < p -> 0 <= n ->
  concat (map queries_of (map (searchImpl_of_page x nt k) (tiles n p))) =
    map Z.of_nat (seq 0 (Z.to_nat n)).
Proof.
  intros Hp Hn. rewrite map_map. unfold tiles.
  rewrite (map_ext _ (fun tl => map Z.of_nat
                                  (seq (Z.to_nat (fst tl))
                                     (Z.to_nat (snd tl)))))
    by (intros [c m]; reflexivity).
  rewrite (tiles_from_indices n p Hp _ 0);
    [| lia | now rewrite Z.sub_0_r].
  now rewrite Z.sub_0_r.
Qed.

(** ** Order of the stages and heads of the loop *)

(** Whatever the state, an iteration that completes runs its stages in the
    order transfer, compute, copy-in. *)
Lemma pipeline_body_order (n p k : Z) (x : Buffer Vec) (nt : NumericType)
    (st st' : Pipeline) (w w' : World) :
  pipeline_body searchOne n p x nt k st w = (Ok st', w') ->
  exists evs, trace w' = trace w ++ evs /\ stage_order evs.
Proof.
  unfold pipeline_body, stage_transfer, stage_compute, stage_copy_in,
    searchImpl_, bind, this, emit, ret, throw.
  destruct (negb (cur2 st =? -1) && (cur2 st <? n)); cbn -[Z.min];
    repeat match goal with
           | |- context [if ?c then _ else _] => destruct c; cbn -[Z.min]
           end;
    intros H; inversion H; subst; clear H; cbn [trace];
    rewrite <- ?app_assoc; cbn [app];
    try (eexists; split; [reflexivity|]);
    try (exists []; split; [now rewrite app_nil_r|]);
    unfold stage_order; cbn [map stage_of].
  all: try (exists true, true, true; reflexivity).
  all: try (exists true, true, false; reflexivity).
  all: try (exists true, false, true; reflexivity).
  all: try (exists true, false, false; reflexivity).
  all: try (exists false, true, true; reflexivity).
  all: try (exists false, true, false; reflexivity).
  all: try (exists false, false, true; reflexivity).
  all: try (exists false, false, false; reflexivity).
Qed.

Lemma loop_head_inv (n p k : Z) (x : Buffer Vec) (nt : NumericType)
    (res : GpuResources) (out0 : Out) (w0 : World) :
  1 <= p -> 1 <= n <= idx_max -> Z.of_nat (length (cells x)) = n ->
  forall (st : Pipeline) (w : World),
    loop_head searchOne n p x nt k (pipeline_init res out0) w0 st w ->
    st = pipeline_init res out0 \/
    exists c, pipe_inv searchOne n p x nt k out0 c st.
Proof.
  intros Hp Hn Hl st w H.
  induction H as [|st w st' w' _ IH Hlt Hbody]; [now left|right].
  destruct IH as [->|[c Hinv]].
  - destruct (pipeline_body_first n p k x nt res out0 w Hp Hn Hl)
      as (st1 & E1 & Hinv1).
    rewrite E1 in Hbody. injection Hbody as <- _. now exists 0.
  - assert (Hc : c < n).
    { destruct Hinv as (_ & _ & H3 & _). lia. }
    destruct (pipeline_body_steady n p k x nt out0 c st w Hp Hn Hl Hinv Hc)
      as (st1 & E1 & Hinv1).
    rewrite E1 in Hbody. injection Hbody as <- _.
    now exists (c + Z.min p (n - c)).
Qed.

(** C2.  An overlapped pipeline over [n >= 1] queries with pages of
    [pageSizeInVecs >= 1] vectors: the loop terminates; every iteration runs
    its stages in the order transfer, compute, copy-in; at every head of the
    loop [cur3 <= cur2 <= cur1]; at the end the three cursors are at [n];
    and the calls of the implementation are the pages of the batch in order,
    so that every query index of [0, n) is passed to it exactly once. *)
Theorem pipeline_terminates_in_order (n p k : Z) (x : Buffer Vec)
    (nt : NumericType) (t : data_t) (out0 : Out) (w : World) :
  dispatch_type nt = Some t ->
  1 <= n <= idx_max -> 1 <= p -> Z.of_nat (length (cells x)) = n ->
  let st0 := pipeline_init (resources_ (self w)) out0 in
  (exists st' w' calls,
     searchOverlapped searchOne n x nt k p out0 w = (Ok st', w') /\
     cur1 st' = n /\ cur2 st' = n /\ cur3 st' = n /\
     searchImpl_events (trace w') = searchImpl_events (trace w) ++ calls /\
     calls = map (searchImpl_of_page x nt k) (tiles n p) /\
     concat (map queries_of calls) = map Z.of_nat (seq 0 (Z.to_nat n))) /\
  (forall st w1,
     loop_head searchOne n p x nt k st0 w st w1 ->
     cur3 st <= cur2 st <= cur1 st) /\
  (forall st w1 st' w2,
     loop_head searchOne n p x nt k st0 w st w1 ->
     pipeline_body searchOne n p x nt k st w1 = (Ok st', w2) ->
     exists evs, trace w2 = trace w1 ++ evs /\ stage_order evs).
Proof.
  intros Hd Hn Hp Hl st0. split; [|split].
  - destruct (searchOverlapped_run n p k x nt t out0 w Hd Hp Hn Hl)
      as (st' & w' & E & F1 & F2 & F3 & _ & _ & Ft).
    exists st', w', (map (searchImpl_of_page x nt k) (tiles n p)).
    repeat (split; [assumption|]). split; [reflexivity|].
    apply searchImpl_pages_cover; lia.
  - intros st w1 H.
    destruct (loop_head_inv n p k x nt _ out0 w Hp Hn Hl st w1 H)
      as [->|[c (Hc & H2 & H3 & H1 & _)]].
    + simpl. lia.
    + lia.
  - intros st w1 st' w2 _ Hbody.
    exact (pipeline_body_order n p k x nt st st' w1 w2 Hbody).
Qed.

(** ** The unbuffered paging *)

Lemma toDeviceTemporary_run {A} (dev n : Z) (src : Buffer A) (w : World) :
  exists b' w',
    toDeviceTemporary dev src n w = (Ok b', w') /\
    rows n b' = rows n src /\
    self w' = self w /\
    searchImpl_events (trace w') = searchImpl_events (trace w).
Proof.
  unfold toDeviceTemporary, bind, emit, ret.
  destruct (getDeviceForAddress src =? dev).
  - exists src, w. auto.
  - eexists. eexists. split; [reflexivity|]. simpl.
    rewrite rows_rows. repeat split.
    unfold searchImpl_events. rewrite filter_app. simpl.
    now rewrite app_nil_r.
Qed.

Lemma searchNonPaged__run (num k cur : Z) (xb : Buffer Vec)
    (nt : NumericType) (t : data_t) (out : Out) (w : World) :
  dispatch_type nt = Some t ->
  let res := map (searchOne nt k) (rows num xb) in
  exists w',
    searchNonPaged_ searchOne num xb nt k out cur w =
      (Ok (write_rows cur (map fst res) (fst out),
           write_rows cur (map snd res) (snd out)), w') /\
    self w' = self w /\
    searchImpl_events (trace w') =
      searchImpl_events (trace w) ++ [EvSearchImpl num (rows num xb) nt k cur].
Proof.
  intros Hd res. unfold searchNonPaged_.
  unfold bind at 1, this at 1. cbv beta iota.
  destruct (toDeviceTemporary_run (device (config_ (self w))) num xb w)
    as (b' & w1 & E1 & R1 & S1 & T1).
  destruct nt; try discriminate;
    rewrite (bind_ok _ _ _ _ _ E1);
    unfold searchImpl_, bind, emit, ret; rewrite R1; fold res;
    (eexists; split; [reflexivity|]); simpl;
    (split; [assumption|]);
    unfold searchImpl_events; rewrite filter_app; simpl;
    fold (searchImpl_events (trace w1)); now rewrite T1.
Qed.

Lemma searchUnbuffered_loop_run (n k batchSize : Z) (x : Buffer Vec)
    (nt : NumericType) (t : data_t) (out0 : Out) :
  dispatch_type nt = Some t ->
  1 <= batchSize <= 2 ^ 29 ->
  0 <= n <= idx_max - 2 ^ 29 ->
  Z.of_nat (length (cells x)) = n ->
  forall (fuel : nat) (cur : Z) (w : World),
    0 <= cur ->
    (Z.to_nat (n - cur) <= fuel)%nat ->
    exists w',
      searchUnbuffered_loop searchOne fuel n x nt k batchSize cur
        (searched searchOne x nt k out0 (Z.min cur n)) w =
        (Ok (searched searchOne x nt k out0 n), w') /\
      self w' = self w /\
      searchImpl_events (trace w') =
        searchImpl_events (trace w) ++
        map (searchImpl_of_page x nt k)
          (tiles_from (Z.to_nat (ceil_div (n - cur) batchSize)) n batchSize
             cur).
Proof.
  intros Hd Hb Hn Hl. unfold idx_max in Hn.
  assert (Hdone : forall fuel cur w, n <= cur ->
    exists w',
      searchUnbuffered_loop searchOne fuel n x nt k batchSize cur
        (searched searchOne x nt k out0 (Z.min cur n)) w =
        (Ok (searched searchOne x nt k out0 n), w') /\
      self w' = self w /\
      searchImpl_events (trace w') =
        searchImpl_events (trace w) ++
        map (searchImpl_of_page x nt k)
          (tiles_from (Z.to_nat (ceil_div (n - cur) batchSize)) n batchSize
             cur)).
  { intros fuel cur w Hge. exists w.
    rewrite ceil_div_nonpos by lia. simpl. rewrite app_nil_r.
    rewrite (Z.min_r cur n) by lia.
    destruct fuel; simpl; destruct (Z.ltb_spec cur n); (lia || auto). }
  induction fuel as [|fuel IH]; intros cur w Hcur Hf.
  - apply Hdone. lia.
  - destruct (Z.lt_ge_cases cur n) as [Hlt|Hge]; [|now apply Hdone].
    simpl. destruct (Z.ltb_spec cur n); [|lia].
    rewrite (Z.min_l cur n) by lia.
    set (num := Z.min batchSize (n - cur)).
    assert (Hnum : 1 <= num <= n - cur) by (subst num; lia).
    destruct (searchNonPaged__run num k cur (advance x cur) nt t
                (searched searchOne x nt k out0 cur) w Hd)
      as (w1 & E1 & S1 & T1).
    change (rows num (advance x cur)) with (chunk (cells x) (cur, num))
      in E1, T1.
    rewrite (searched_step x nt k out0 cur num) in E1 by lia.
    assert (Ebody :
      match nt with
      | Float32 | Float16 | Int8 =>
          searchNonPaged_ searchOne num (advance x cur) nt k
            (searched searchOne x nt k out0 cur) cur
      | UnknownNumeric _ => ret (searched searchOne x nt k out0 cur)
      end w = (Ok (searched searchOne x nt k out0 (cur + num)), w1)).
    { destruct nt; try discriminate; exact E1. }
    rewrite (bind_ok _ _ _ _ _ Ebody).
    rewrite to_idx_t_small by lia.
    replace (cur + num) with (Z.min (cur + batchSize) n) by (subst num; lia).
    destruct (IH (cur + batchSize) w1) as (w' & E & S & T); [lia|lia|].
    exists w'. split; [exact E|]. split; [congruence|].
    rewrite T, T1. rewrite (ceil_div_step (n - cur) batchSize) by lia.
    replace (n - cur - batchSize) with (n - (cur + batchSize)) by lia.
    simpl. now rewrite <- app_assoc.
Qed.

(** ** The two paged paths and the search that selects them *)

Lemma searchFromCpuPaged_overlapped_run (n k s : Z) (x : Buffer Vec)
    (nt : NumericType) (t : data_t) (out0 : Out) (w : World) :
  let pinned := getPinnedMemory (resources_ (self w)) in
  let page := pageSizeInVecs_of (snd pinned) s (d (base (self w))) in
  dispatch_type nt = Some t ->
  get_numeric_type_size nt = Ok s ->
  fst pinned = true -> 1 <= page ->
  1 <= n <= idx_max -> Z.of_nat (length (cells x)) = n ->
  exists w',
    searchFromCpuPaged n x nt k out0 w =
      (Ok (searched searchOne x nt k out0 n), w') /\
    self w' = self w /\
    searchImpl_events (trace w') =
      searchImpl_events (trace w) ++
      map (searchImpl_of_page x nt k) (tiles n page).
Proof.
  intros pinned page Hd Hs Hav Hpage Hn Hl.
  unfold searchFromCpuPaged_. unfold bind at 1, this at 1. cbv beta iota.
  unfold bind at 1, lift at 1. rewrite Hs. cbv beta iota.
  fold pinned. fold page. rewrite Hav.
  destruct (Z.ltb_spec page 1); [lia|]. cbn [negb orb].
  destruct (searchOverlapped_run n page k x nt t out0 w Hd Hpage Hn Hl)
    as (st' & w' & E & _ & _ & _ & Fo & Fs & Ft).
  rewrite (bind_ok _ _ _ _ _ E). unfold ret. rewrite Fo.
  exists w'. auto.
Qed.

Lemma searchFromCpuPaged_unbuffered_run (n k s : Z) (x : Buffer Vec)
    (nt : NumericType) (t : data_t) (out0 : Out) (w : World) :
  let pinned := getPinnedMemory (resources_ (self w)) in
  let page := pageSizeInVecs_of (snd pinned) s (d (base (self w))) in
  dispatch_type nt = Some t ->
  get_numeric_type_size nt = Ok s ->
  fst pinned = false \/ page < 1 ->
  0 <= n <= idx_max - 2 ^ 29 -> Z.of_nat (length (cells x)) = n ->
  exists w',
    searchFromCpuPaged n x nt k out0 w =
      (Ok (searched searchOne x nt k out0 n), w') /\
    self w' = self w /\
    searchImpl_events (trace w') =
      searchImpl_events (trace w) ++
      map (searchImpl_of_page x nt k)
        (tiles n (batchSize_of s (d (base (self w))))).
Proof.
  intros pinned page Hd Hs Hfall Hn Hl.
  unfold searchFromCpuPaged_. unfold bind at 1, this at 1. cbv beta iota.
  unfold bind at 1, lift at 1. rewrite Hs. cbv beta iota.
  fold pinned. fold page.
  assert (Ht : negb (fst pinned) || (page <? 1) = true).
  { destruct Hfall as [->|Hlt]; [reflexivity|].
    apply orb_true_iff. right. now apply Z.ltb_lt. }
  rewrite Ht. unfold bind at 1, lift at 1. cbv beta iota.
  pose proof (batchSize_of_bounds s (d (base (self w)))) as [Hb _].
  destruct (searchUnbuffered_loop_run n k (batchSize_of s (d (base (self w))))
              x nt t out0 Hd ltac:(lia) Hn Hl (Z.to_nat n) 0 w)
    as (w' & E & S & T); [lia|lia|].
  rewrite (Z.min_l 0 n) in E by lia. rewrite searched_0 in E.
  rewrite Z.sub_0_r in T.
  exists w'. auto.
Qed.

Lemma fromDevice_run {A} (dev n : Z) (src : list A) (dst : Buffer A)
    (w : World) :
  exists w',
    fromDevice dev n src dst w =
      (Ok (mkBuffer (residence dst) (store_rows src (cells dst))), w') /\
    searchImpl_events (trace w') = searchImpl_events (trace w).
Proof.
  unfold fromDevice, bind, emit, ret.
  destruct (getDeviceForAddress dst =? dev); eexists;
    (split; [reflexivity|]); [reflexivity|].
  simpl. rewrite searchImpl_events_app. simpl. now rewrite app_nil_r.
Qed.

Lemma search_dataSize (n dim s : Z) :
  1 <= n -> 0 < dim -> 0 < s -> n * dim * s < 2 ^ 64 ->
  to_size_t (to_size_t (to_size_t n * to_size_t dim) * s) = n * dim * s.
Proof.
  intros Hn Hd Hs Hb.
  assert (n <= n * dim) by nia.
  assert (n * dim <= n * dim * s) by nia.
  assert (dim <= n * dim) by nia.
  rewrite (to_size_t_small n), (to_size_t_small dim) by lia.
  rewrite (to_size_t_small (n * dim)) by lia.
  apply to_size_t_small. nia.
Qed.

(** A host-resident batch at or above the paging threshold: [search] returns
    what the paged search computed, copied back over the caller's buffers. *)
Lemma search_paged (n k s : Z) (x : Buffer Vec) (nt : NumericType)
    (distances : Buffer DistRow) (labels : Buffer LabelRow) (out' : Out)
    (calls : list Event) (w : World) :
  let g := self w in
  is_trained (base g) = true ->
  0 < to_int k <= getMaxKSelection (should_use_cuvs deviceMajor (config_ g)) ->
  1 <= n ->
  getDeviceForAddress x = -1 ->
  get_numeric_type_size nt = Ok s ->
  0 < d (base g) -> 0 < s -> n * d (base g) * s < 2 ^ 64 ->
  0 <= minPagedSize_ g <= n * d (base g) * s ->
  (forall wa, self wa = self w ->
     exists wb,
       searchFromCpuPaged n x nt (to_int k)
         (rows n distances, rows n labels) wa = (Ok out', wb) /\
       searchImpl_events (trace wb) = searchImpl_events (trace wa) ++ calls) ->
  exists w',
    search_ n x nt k distances labels w =
      (Ok (mkBuffer (residence distances)
             (store_rows (fst out') (cells distances)),
           mkBuffer (residence labels)
             (store_rows (snd out') (cells labels))), w') /\
    searchImpl_events (trace w') = searchImpl_events (trace w) ++ calls.
Proof.
  intros g Htr Hk Hn Hx Hs Hd Hs0 Hsz Hmin Hpath.
  unfold search. unfold g in Htr. pass_trained Htr. fold g.
  rewrite (bind_ok _ _ _ _ _ (validateKSelect_ok _ _ w Hk)).
  assert (Hk0 : (k =? 0) = false).
  { apply Z.eqb_neq. intros ->. unfold to_int in Hk. simpl in Hk. lia. }
  destruct (Z.eqb_spec n 0); [lia|]. rewrite Hk0. cbn [orb].
  destruct (toDeviceTemporary_run (device (config_ g)) n distances w)
    as (oD & w1 & E1 & R1 & S1 & T1).
  rewrite (bind_ok _ _ _ _ _ E1).
  destruct (toDeviceTemporary_run (device (config_ g)) n labels w1)
    as (oL & w2 & E2 & R2 & S2 & T2).
  rewrite (bind_ok _ _ _ _ _ E2).
  rewrite R1, R2, Hx. cbn [Z.eqb Pos.eqb].
  destruct (Hpath w2 ltac:(congruence)) as (wb & Eb & Tb).
  assert (Epaged :
    (s0 <- lift (get_numeric_type_size nt) ;;
     (if to_size_t (minPagedSize_ g) <=?
         to_size_t (to_size_t (to_size_t n * to_size_t (d (base g))) * s0)
      then out'0 <- searchFromCpuPaged n x nt (to_int k)
                      (rows n distances, rows n labels) ;;
           ret (true, out'0)
      else ret (false, (rows n distances, rows n labels)))) w2 =
    (Ok (true, out'), wb)).
  { unfold bind at 1, lift at 1. rewrite Hs. cbv beta iota.
    rewrite search_dataSize by lia.
    rewrite (to_size_t_small (minPagedSize_ g)) by lia.
    destruct (Z.leb_spec (minPagedSize_ g) (n * d (base g) * s)); [|lia].
    rewrite (bind_ok _ _ _ _ _ Eb). reflexivity. }
  rewrite (bind_ok _ _ _ _ _ Epaged). cbn [fst snd negb].
  unfold bind at 1, ret at 1. cbv beta iota.
  destruct (fromDevice_run (device (config_ g)) n (fst out') distances wb)
    as (w3 & E3 & T3).
  rewrite (bind_ok _ _ _ _ _ E3).
  destruct (fromDevice_run (device (config_ g)) n (snd out') labels w3)
    as (w4 & E4 & T4).
  rewrite (bind_ok _ _ _ _ _ E4).
  exists w4. split; [reflexivity|]. congruence.
Qed.

Lemma searched_all (n k : Z) (x : Buffer Vec) (nt : NumericType)
    (distances : Buffer DistRow) (labels : Buffer LabelRow) :
  Z.of_nat (length (cells x)) = n ->
  searched searchOne x nt k (rows n distances, rows n labels) n =
    (map fst (map (searchOne nt k) (cells x)),
     map snd (map (searchOne nt k) (cells x))).
Proof.
  intros Hl. unfold searched, rows. cbn [fst snd].
  rewrite (firstn_all2 (cells x)) by lia.
  rewrite !skipn_all2, !app_nil_r; auto; rewrite length_firstn; lia.
Qed.

(** ** Unsupported encodings at the dispatch sites *)

Lemma addPaged__unsupported (n : Z) (x : Buffer Vec) (nt : NumericType)
    (ids : option (Buffer Z)) (w : World) :
  dispatch_type nt = None -> 1 <= n ->
  addPaged_ deviceMajor n x nt ids w = (Throw UnsupportedEncoding, w).
Proof.
  intros Hd Hn. unfold addPaged_. rewrite Hd.
  destruct (Z.leb_spec n 0); [lia|reflexivity].
Qed.

Lemma addPage__unsupported (n : Z) (x : Buffer Vec) (nt : NumericType)
    (ids : option (Buffer Z)) (w : World) :
  dispatch_type nt = None ->
  addPage_ n x nt ids w = (Throw UnsupportedEncoding, w).
Proof.
  intros Hd. unfold addPage_. now rewrite Hd.
Qed.

Lemma searchNonPaged__unsupported (n k cur : Z) (x : Buffer Vec)
    (nt : NumericType) (out : Out) (w : World) :
  dispatch_type nt = None ->
  searchNonPaged_ searchOne n x nt k out cur w =
    (Throw UnsupportedEncoding, w).
Proof.
  intros Hd. destruct nt; try discriminate. reflexivity.
Qed.

Lemma searchOverlapped_unsupported (n k p : Z) (x : Buffer Vec)
    (nt : NumericType) (out : Out) (w : World) :
  dispatch_type nt = None ->
  searchOverlapped searchOne n x nt k p out w =
    (Throw UnsupportedEncoding, w).
Proof.
  intros Hd. unfold searchOverlapped. now rewrite Hd.
Qed.

(** The unbuffered paging on a tag none of its three tests matches: every
    page is skipped, the loop ends, nothing is computed and nothing is
    raised. *)
Lemma searchUnbuffered_loop_unsupported (n k batchSize : Z) (x : Buffer Vec)
    (nt : NumericType) (out : Out) :
  dispatch_type nt = None ->
  1 <= batchSize <= 2 ^ 29 ->
  n <= idx_max - 2 ^ 29 ->
  forall (fuel : nat) (cur : Z) (w : World),
    0 <= cur ->
    (Z.to_nat (n - cur) <= fuel)%nat ->
    searchUnbuffered_loop searchOne fuel n x nt k batchSize cur out w =
      (Ok out, w).
Proof.
  intros Hd Hb Hn. unfold idx_max in Hn.
  destruct nt as [| | |tag]; try discriminate.
  induction fuel as [|fuel IH]; intros cur w Hcur Hf; simpl;
    destruct (Z.ltb_spec cur n); try lia; try reflexivity.
  unfold bind at 1, ret at 1. cbv beta iota.
  rewrite to_idx_t_small by lia. apply IH; lia.
Qed.

Lemma searchFromCpuPaged_unsupported (n k s : Z) (x : Buffer Vec)
    (nt : NumericType) (out : Out) (w : World) :
  let pinned := getPinnedMemory (resources_ (self w)) in
  let page := pageSizeInVecs_of (snd pinned) s (d (base (self w))) in
  dispatch_type nt = None ->
  get_numeric_type_size nt = Ok s ->
  0 <= n <= idx_max - 2 ^ 29 ->
  (fst pinned = true /\ 1 <= page ->
   searchFromCpuPaged n x nt k out w = (Throw UnsupportedEncoding, w)) /\
  (fst pinned = false \/ page < 1 ->
   searchFromCpuPaged n x nt k out w = (Ok out, w)).
Proof.
  intros pinned page Hd Hs Hn.
  assert (Hrun :
    searchFromCpuPaged n x nt k out w =
      if negb (fst pinned) || (page <? 1)
      then searchUnbuffered_loop searchOne (Z.to_nat n) n x nt k
             (batchSize_of s (d (base (self w)))) 0 out w
      else (st <- searchOverlapped searchOne n x nt k page out ;;
            ret (outs st)) w).
  { unfold searchFromCpuPaged_. unfold bind at 1, this at 1.
    cbv beta iota. unfold bind at 1, lift at 1. rewrite Hs.
    cbv beta iota. fold pinned. fold page.
    destruct (negb (fst pinned) || (page <? 1)); reflexivity. }
  rewrite Hrun. split.
  - intros [Hav Hpage]. rewrite Hav.
    destruct (Z.ltb_spec page 1); [lia|]. cbn [negb orb].
    now rewrite (bind_throw _ _ _ _ _
                   (searchOverlapped_unsupported n k page x nt out w Hd)).
  - intros Hfall.
    assert (Ht : negb (fst pinned) || (page <? 1) = true).
    { destruct Hfall as [->|Hlt]; [reflexivity|].
      apply orb_true_iff. right. now apply Z.ltb_lt. }
    rewrite Ht.
    pose proof (batchSize_of_bounds s (d (base (self w)))) as [Hb _].
    apply searchUnbuffered_loop_unsupported; try assumption; lia.
Qed.

End SearchFacts.

(** ** The pipeline on its two streams *)

Section StreamFacts.

Import Streams.

Variable searchOne : NumericType -> Z -> Vec -> DistRow * LabelRow.
Variables n p : Z.
Variable x : Buffer Vec.
Variable numeric_type : NumericType.
Variable k : Z.
Variable res : GpuResources.
Variable out0 : Out.

Hypothesis Hn : 1 <= n <= idx_max.
Hypothesis Hp : 1 <= p.
Hypothesis Hl : Z.of_nat (length (cells x)) = n.

Local Notation "'cur_'" := (page_cur n p).
Local Notation "'num_'" := (page_num n p).
Local Notation "'pages_'" := (pages n p).
Local Notation "'page_'" := (page n p x).
Local Notation "'copy_work_'" := (copy_work n p).
Local Notation "'default_work_'" := (default_work n p).
Local Notation "'locals_at_'" := (locals_at n p).
Local Notation "'step_'" := (step searchOne n p x numeric_type k).
Local Notation "'run_'" := (run searchOne n p x numeric_type k).
Local Notation "'reach_inv_'" :=
  (reach_inv n p x searchOne numeric_type k out0).

(** *** Pages *)

Lemma pages_spec (j : nat) : (j < pages_)%nat <-> Z.of_nat j * p < n.
Proof.
  unfold pages, ceil_div. split; intros H.
  - assert (Hq : Z.of_nat j + 1 <= (n + p - 1) / p) by lia.
    pose proof (Z.mul_div_le (n + p - 1) p ltac:(lia)) as Hm. nia.
  - assert (Hq : Z.of_nat j + 1 <= (n + p - 1) / p).
    { apply Z.div_le_lower_bound; lia. }
    lia.
Qed.

Lemma pages_pos : (1 <= pages_)%nat.
Proof.
  assert (H : (0 < pages_)%nat) by (apply pages_spec; simpl; lia). lia.
Qed.

Lemma page_cur_lt (j : nat) :
  (j < pages_)%nat ->
  page_cur n p j = Z.of_nat j * p /\ 0 <= cur_ j < n /\ 1 <= num_ j.
Proof.
  intros H. apply pages_spec in H. unfold page_num, page_cur.
  assert (0 <= Z.of_nat j * p) by nia. lia.
Qed.

Lemma page_cur_ge (j : nat) : (pages_ <= j)%nat -> cur_ j = n.
Proof.
  intros H. unfold page_cur.
  destruct (Z.lt_ge_cases (Z.of_nat j * p) n) as [Hlt|Hge]; [|lia].
  apply pages_spec in Hlt. lia.
Qed.

Lemma page_cur_range (j : nat) : 0 <= cur_ j <= n.
Proof.
  unfold page_cur. assert (0 <= Z.of_nat j * p) by nia. lia.
Qed.

Lemma page_cur_S (j : nat) :
  (j < pages_)%nat -> cur_ j + num_ j = cur_ (S j).
Proof.
  intros H. destruct (page_cur_lt j H) as (E & Hr & _).
  unfold page_num. rewrite E. unfold page_cur.
  rewrite Nat2Z.inj_succ, Z.mul_succ_l. lia.
Qed.

Lemma page_cur_next (j : nat) :
  (j < pages_)%nat -> to_idx_t (cur_ j + num_ j) = cur_ (S j).
Proof.
  intros H. rewrite page_cur_S by exact H.
  apply to_idx_t_small. pose proof (page_cur_range (S j)).
  unfold idx_max in Hn. lia.
Qed.

Lemma page_cur_test (j : nat) :
  (cur_ j <? n) = (j <? pages_)%nat.
Proof.
  destruct (Nat.ltb_spec j pages_) as [H|H].
  - apply Z.ltb_lt. now apply page_cur_lt.
  - apply Z.ltb_ge. rewrite page_cur_ge by exact H. lia.
Qed.

Lemma page_cur_not_minus_one (j : nat) : (cur_ j =? -1) = false.
Proof. apply Z.eqb_neq. pose proof (page_cur_range j). lia. Qed.

Lemma page_buf_S (j : nat) : toggle (page_buf j) = page_buf (S j).
Proof.
  unfold page_buf. rewrite Nat.even_succ, <- Nat.negb_even.
  now destruct (Nat.even j).
Qed.

Lemma page_buf_SS (j : nat) : page_buf (S (S j)) = page_buf j.
Proof. unfold page_buf. now rewrite Nat.even_succ_succ. Qed.

Lemma page_buf_neq (j : nat) : (page_buf j =? page_buf (S j)) = false.
Proof.
  unfold page_buf. rewrite Nat.even_succ, <- Nat.negb_even.
  now destruct (Nat.even j).
Qed.

Lemma sel_upd_other {A} (i j : Z) (v : A) (q : A * A) :
  (j =? 0) = negb (i =? 0) -> sel j (upd i v q) = sel j q.
Proof.
  unfold sel, upd. intros ->. now destruct (i =? 0).
Qed.

Lemma sel_upd_next {A} (j : nat) (v : A) (q : A * A) :
  sel (page_buf j) (upd (page_buf (S j)) v q) = sel (page_buf j) q.
Proof.
  apply sel_upd_other. unfold page_buf. rewrite Nat.even_succ.
  rewrite <- Nat.negb_even. now destruct (Nat.even j).
Qed.

Lemma sel_upd_prev {A} (j : nat) (v : A) (q : A * A) :
  sel (page_buf (S j)) (upd (page_buf j) v q) = sel (page_buf (S j)) q.
Proof.
  apply sel_upd_other. unfold page_buf. rewrite Nat.even_succ.
  rewrite <- Nat.negb_even. now destruct (Nat.even j).
Qed.

Lemma page_length (j : nat) :
  (j < pages_)%nat -> length (page_ j) = Z.to_nat (num_ j).
Proof.
  intros H. destruct (page_cur_lt j H) as (_ & Hr & Hnum).
  unfold page. apply chunk_length; try lia.
  rewrite Hl. unfold page_num. lia.
Qed.

(** *** Event handles *)

Lemma handles_last (ev : nat -> CudaEvent) (K : nat) :
  sel (page_buf K) (handles ev (S K)) = Some (ev K).
Proof. simpl. apply sel_upd. Qed.

Lemma handles_before (ev : nat -> CudaEvent) (K : nat) :
  sel (page_buf K) (handles ev K) =
    if (2 <=? K)%nat then Some (ev (K - 2)%nat) else None.
Proof.
  destruct K as [|[|K]]; [reflexivity | reflexivity |].
  cbn [handles]. rewrite sel_upd_prev, page_buf_SS, sel_upd.
  simpl. now rewrite Nat.sub_0_r.
Qed.

(** *** Queues *)

Lemma copy_work_length (j : nat) :
  length (copy_work_ j) = if (2 <=? j)%nat then 2%nat else 1%nat.
Proof. unfold copy_work. now destruct (2 <=? j)%nat. Qed.

Lemma copy_issued (K : nat) :
  length (flat_map copy_work_ (seq 0 K)) = copy_length K.
Proof.
  induction K as [|K IH]; [reflexivity|].
  rewrite seq_S, flat_map_app, length_app, IH. simpl flat_map.
  rewrite app_nil_r, copy_work_length. unfold copy_length.
  destruct K as [|[|[|K]]]; simpl; lia.
Qed.

Lemma default_issued (K : nat) :
  length (flat_map default_work_ (seq 0 K)) = (2 * K)%nat.
Proof.
  induction K as [|K IH]; [reflexivity|].
  rewrite seq_S, flat_map_app, length_app, IH. simpl. lia.
Qed.

Lemma copy_length_S (j : nat) :
  copy_length (S j) = (copy_length j + length (copy_work_ j))%nat.
Proof.
  rewrite copy_work_length. unfold copy_length.
  destruct j as [|[|[|j]]]; simpl; lia.
Qed.

Lemma copy_length_mono (i j : nat) :
  (i <= j)%nat -> (copy_length i <= copy_length j)%nat.
Proof.
  unfold copy_length. intros H.
  destruct (Nat.leb_spec i 2), (Nat.leb_spec j 2); lia.
Qed.

Lemma queue_at_issue (work : nat -> list Work) (K a : nat) :
  (a <= length (flat_map work (seq 0 K)))%nat ->
  fold_left (fun q w => issue w q) (work K) (queue_at work K a) =
    queue_at work (S K) a.
Proof.
  intros Ha. unfold queue_at. rewrite seq_S, flat_map_app. simpl flat_map.
  rewrite app_nil_r, skipn_app.
  replace (a - length (flat_map work (seq 0 K)))%nat with 0%nat by lia.
  cbn [skipn].
  generalize (skipn a (flat_map work (seq 0 K))) as q.
  induction (work K) as [|w ws IH]; intros q; cbn [fold_left].
  - now rewrite app_nil_r.
  - unfold issue at 2. cbn [completed pending]. rewrite IH.
    now rewrite <- app_assoc.
Qed.

Lemma queue_at_issued (work : nat -> list Work) (K a : nat) :
  (a <= length (flat_map work (seq 0 K)))%nat ->
  issued (queue_at work K a) = length (flat_map work (seq 0 K)).
Proof.
  intros Ha. unfold issued, queue_at. cbn [completed pending].
  rewrite length_skipn. lia.
Qed.

Lemma skipn_flat_map (work : nat -> list Work) (len : nat -> nat)
    (K j i : nat) :
  (forall J, length (flat_map work (seq 0 J)) = len J) ->
  (j < K)%nat ->
  skipn (len j + i) (flat_map work (seq 0 K)) =
    skipn i (work j ++ flat_map work (seq (S j) (K - S j))).
Proof.
  intros Hlen Hj.
  replace K with (j + (K - j))%nat at 1 by lia.
  rewrite seq_app, flat_map_app. cbn [Nat.add].
  rewrite <- Hlen, skipn_app, skipn_all2 by lia.
  replace (length (flat_map work (seq 0 j)) + i -
           length (flat_map work (seq 0 j)))%nat with i by lia.
  replace (K - j)%nat with (S (K - S j)) by lia.
  reflexivity.
Qed.

Lemma queue_at_done (work : nat -> list Work) (len : nat -> nat) (K : nat) :
  (forall J, length (flat_map work (seq 0 J)) = len J) ->
  pending (queue_at work K (len K)) = [].
Proof.
  intros Hlen. unfold queue_at. cbn [pending].
  apply skipn_all2. rewrite Hlen. lia.
Qed.


(** *** What the invariant says of the queues *)

Lemma host_at_order (s : Statement) (KC KT KS rank : nat) :
  host_at n p s KC KT KS rank ->
  (KS <= KT <= KC /\ KC <= pages_ /\ rank <= 5 + 4 * pages_ /\
   KT <= S KS)%nat.
Proof.
  pose proof pages_pos as Hpos.
  intros H; inversion H; subst; lia.
Qed.

Lemma copy_mark_reached (j jc ic : nat) :
  (ic = 0 \/ ic = 1 /\ 2 <= jc)%nat ->
  (copy_length (S j) <= copy_length jc + ic)%nat <-> (S j <= jc)%nat.
Proof.
  unfold copy_length. intros Hic.
  destruct (Nat.leb_spec (S j) 2), (Nat.leb_spec jc 2); lia.
Qed.

Lemma copy_completed_le (jc ic K : nat) :
  (jc <= K)%nat -> (ic = 0 \/ ic = 1 /\ 2 <= jc < K)%nat ->
  (copy_length jc + ic <= copy_length K)%nat.
Proof.
  unfold copy_length. intros Hj Hic.
  destruct (Nat.leb_spec jc 2), (Nat.leb_spec K 2); lia.
Qed.

Lemma skipn_head {A} (a : nat) (l rest : list A) (w : A) :
  skipn a l = w :: rest -> skipn (S a) l = rest.
Proof.
  revert l. induction a as [|a IH]; intros [|y l] H; simpl in *;
    try discriminate.
  - now inversion H.
  - now apply IH.
Qed.

Lemma queue_at_pop (work : nat -> list Work) (K a : nat) (w : Work)
    (rest : list Work) :
  pending (queue_at work K a) = w :: rest ->
  mkQueue (S a) rest = queue_at work K (S a).
Proof.
  unfold queue_at. cbn [pending]. intros H.
  now rewrite (skipn_head _ _ _ _ H).
Qed.

Lemma copy_head (KT jc ic : nat) :
  (jc < KT)%nat -> (ic = 0 \/ ic = 1 /\ 2 <= jc)%nat ->
  exists rest,
    pending (queue_at copy_work_ KT (copy_length jc + ic)) =
      (if (2 <=? jc)%nat && (ic =? 0)%nat
       then StreamWaitOnEvent (executeDone (jc - 2))
       else MemcpyAsync (page_buf jc) (num_ jc)) :: rest.
Proof.
  intros Hj Hic. unfold queue_at. cbn [pending].
  rewrite (skipn_flat_map copy_work_ copy_length) by (exact copy_issued || lia).
  unfold copy_work.
  destruct (Nat.leb_spec 2 jc) as [H2|H2];
    destruct Hic as [->|[-> Hc]]; try lia; simpl; eauto.
Qed.

Lemma default_head (KS jd id : nat) :
  (jd < KS)%nat -> (id = 0 \/ id = 1)%nat ->
  exists rest,
    pending (queue_at default_work_ KS (2 * jd + id)) =
      (if (id =? 0)%nat
       then StreamWaitOnEvent (copyDone jd)
       else SearchImpl (page_buf jd) (num_ jd) (cur_ jd)) :: rest.
Proof.
  intros Hj Hid. unfold queue_at. cbn [pending].
  rewrite (skipn_flat_map default_work_ (fun J => 2 * J)%nat)
    by (exact default_issued || lia).
  unfold default_work. destruct Hid as [->| ->]; simpl; eauto.
Qed.


(** *** The invariant is kept by the host *)

Lemma copied_in (j : nat) (old : list Vec) :
  (j < pages_)%nat ->
  firstn (Z.to_nat (num_ j))
    (store_rows (rows (num_ j) (advance x (cur_ j))) old) = page_ j.
Proof.
  intros Hj.
  change (rows (num_ j) (advance x (cur_ j))) with (page_ j).
  rewrite <- (page_length j Hj). apply firstn_store_rows.
Qed.

Lemma host_preserves (steps : nat) (st st' : State) :
  reach_inv_ steps st ->
  host_step n p x st = Some st' ->
  reach_inv_ (S steps) st'.
Proof.
  intros (KC & KT & KS & rank & jc & ic & jd & id & Hat & Hloc & Hcq & Hdq &
          Hc & Hd & Hsync & Hpin & Hgpu & Hout & Hsteps) Hstep.
  destruct st as [stmt l cq dq bp bg o]. cbn [statement locals copyQueue
    defaultQueue bufPinned bufGpus outs] in *. subst l cq dq o.
  pose proof pages_pos as Hpos.
  unfold host_step in Hstep. cbn [statement locals] in Hstep.
  inversion Hat as [ | | | | t Ht | | t Ht | t Ht | t Ht | ];
    try subst stmt; try subst KC; try subst KT; try subst KS;
    try subst rank;
    cbn [locals_at cur1 cur2 cur3 cur1BufIndex
    cur2BufIndex cur3BufIndex eventPinnedCopyDone eventGpuExecuteDone]
    in Hstep.
  - (* first iteration, the test of the loop *)
    replace (-1 <? n) with true in Hstep by (symmetry; apply Z.ltb_lt; lia).
    injection Hstep as <-.
    exists 0%nat, 0%nat, 0%nat, 1%nat, jc, ic, jd, id.
    cbn [goto statement locals copyQueue defaultQueue bufPinned bufGpus outs].
    repeat split; try assumption; try apply Hc; try apply Hd; try apply Hsync;
      try lia. constructor.
  - (* first iteration, no page to transfer *)
    cbn in Hstep. injection Hstep as <-.
    exists 0%nat, 0%nat, 0%nat, 2%nat, jc, ic, jd, id.
    cbn [goto statement locals copyQueue defaultQueue bufPinned bufGpus outs].
    repeat split; try assumption; try apply Hc; try apply Hd; try apply Hsync;
      try lia. constructor.
  - (* first iteration, no page to compute *)
    cbn in Hstep. injection Hstep as <-.
    exists 0%nat, 0%nat, 0%nat, 3%nat, jc, ic, jd, id.
    cbn [goto statement locals copyQueue defaultQueue bufPinned bufGpus outs].
    repeat split; try assumption; try apply Hc; try apply Hd; try apply Hsync;
      try lia. constructor.
  - (* first iteration, page 0 is copied in *)
    rewrite page_cur_test in Hstep.
    replace (0 <? pages_)%nat with true in Hstep
      by (symmetry; apply Nat.ltb_lt; lia).
    cbn [handles sel fst snd page_buf Nat.even Z.eqb] in Hstep.
    injection Hstep as <-.
    exists 1%nat, 0%nat, 0%nat, 4%nat, jc, ic, jd, id.
    cbn [statement locals copyQueue defaultQueue bufPinned bufGpus outs].
    split; [apply (at_while n p 0); lia|].
    split.
    { unfold locals_at. cbn [handles].
      fold (page_num n p 0).
      rewrite page_cur_next by lia. reflexivity. }
    repeat split; try assumption; try apply Hc; try apply Hd; try apply Hsync;
      try lia.
    intros j Hj. assert (j = 0)%nat as -> by lia.
    fold (page_num n p 0). fold (page_buf 0).
    rewrite sel_upd. apply copied_in. lia.
  - (* the test of the loop, a page is left *)
    replace (match t with O => -1 | S _ => cur_ t end <? n) with true
      in Hstep.
    2:{ symmetry. destruct t; [apply Z.ltb_lt; lia|].
        rewrite page_cur_test. apply Nat.ltb_lt. lia. }
    injection Hstep as <-.
    exists (S t), t, t, (5 + 4 * t)%nat, jc, ic, jd, id.
    cbn [goto statement locals copyQueue defaultQueue bufPinned bufGpus
      outs].
    repeat split; try assumption; try apply Hc; try apply Hd;
      try apply Hsync; try lia. now constructor.
  - (* the test of the loop, all pages are through *)
    replace (match pages_ with O => -1 | S _ => cur_ pages_ end <? n)
      with false in Hstep.
    2:{ symmetry. destruct pages_ eqn:E; [lia|]. rewrite <- E.
        rewrite page_cur_test. apply Nat.ltb_ge. lia. }
    injection Hstep as <-.
    exists pages_, pages_, pages_, (5 + 4 * pages_)%nat, jc, ic, jd, id.
    cbn [goto statement locals copyQueue defaultQueue bufPinned bufGpus
      outs].
    repeat split; try assumption; try apply Hc; try apply Hd;
      try apply Hsync; try lia. constructor.
  - (* the transfer of page t is issued *)
    rewrite page_cur_not_minus_one, page_cur_test in Hstep.
    replace (t <? pages_)%nat with true in Hstep
      by (symmetry; apply Nat.ltb_lt; lia).
    cbn [negb andb] in Hstep. rewrite handles_before in Hstep.
    fold (page_num n p t) in Hstep.
    assert (Ha : (copy_length jc + ic <= copy_length t)%nat).
    { apply copy_completed_le; apply Hc. }
    assert (Hq :
      fold_left (fun q w => issue w q) (copy_work_ t)
        (queue_at copy_work_ t (copy_length jc + ic)) =
      queue_at copy_work_ (S t) (copy_length jc + ic)).
    { apply queue_at_issue. rewrite copy_issued. exact Ha. }
    unfold copy_work in Hq at 1.
    destruct (2 <=? t)%nat eqn:E2;
      cbn [app fold_left] in Hq;
      cbn [copyQueue defaultQueue bufPinned bufGpus outs] in Hstep;
      rewrite Hq in Hstep; rewrite queue_at_issued in Hstep
        by (rewrite copy_issued; pose proof (copy_length_mono t (S t)); lia);
      rewrite copy_issued, page_cur_next in Hstep by lia;
      rewrite page_buf_S in Hstep; injection Hstep as <-;
      exists (S t), (S t), t, (6 + 4 * t)%nat, jc, ic, jd, id;
      cbn [statement locals copyQueue defaultQueue bufPinned bufGpus outs];
      (split; [now constructor|]); (split; [reflexivity|]);
      repeat split; try assumption; try apply Hc; try apply Hd;
        try apply Hsync; try lia.
  - (* the call on page t is issued *)
    rewrite page_cur_not_minus_one, page_cur_test in Hstep.
    replace (t <? pages_)%nat with true in Hstep
      by (symmetry; apply Nat.ltb_lt; lia).
    cbn [negb andb] in Hstep. rewrite handles_last in Hstep.
    fold (page_num n p t) in Hstep.
    assert (Hb : (2 * jd + id <= 2 * t)%nat) by lia.
    assert (Hq :
      fold_left (fun q w => issue w q) (default_work_ t)
        (queue_at default_work_ t (2 * jd + id)) =
      queue_at default_work_ (S t) (2 * jd + id)).
    { apply queue_at_issue. rewrite default_issued. exact Hb. }
    unfold default_work in Hq at 1. cbn [fold_left] in Hq.
    cbn [copyQueue defaultQueue bufPinned bufGpus outs] in Hstep.
    rewrite Hq in Hstep. rewrite queue_at_issued in Hstep
      by (rewrite default_issued; lia).
    rewrite default_issued, page_cur_next in Hstep by lia.
    replace (2 * S t)%nat with (2 * t + 2)%nat in Hstep by lia.
    change (mkCudaEvent defaultStream (2 * t + 2)) with (executeDone t)
      in Hstep.
    rewrite page_buf_S in Hstep. injection Hstep as <-.
    exists (S t), (S t), (S t), (7 + 4 * t)%nat, jc, ic, jd, id.
    cbn [statement locals copyQueue defaultQueue bufPinned bufGpus outs].
    split; [now constructor|]. split; [reflexivity|].
    repeat split; try assumption; try apply Hc; try apply Hd;
      try apply Hsync; try lia.
  - (* page S t is copied in, if there is one *)
    rewrite page_cur_test in Hstep.
    destruct (Nat.ltb_spec (S t) pages_) as [Hlt|Hge].
    + rewrite handles_before in Hstep.
      fold (page_num n p (S t)) in Hstep.
      assert (Hjc : (S (S t) <= jc + 2)%nat).
      { destruct (2 <=? S t)%nat eqn:E2; [|apply Nat.leb_gt in E2; lia].
        apply Nat.leb_le in E2.
        destruct (happened _ _) eqn:Eh in Hstep; [|discriminate].
        unfold happened, copyDone in Eh.
        cbn [mark stream queue copyQueue queue_at completed] in Eh.
        apply Nat.leb_le in Eh.
        replace (S (S t - 2)) with (S (t - 1)) in Eh by lia.
        apply copy_mark_reached in Eh; lia. }
      assert (Hgo :
        (if match (if (2 <=? S t)%nat
                    then Some (copyDone (S t - 2)) else None) with
            | Some eventPrev =>
                happened eventPrev
                  (mkState AtCopyIn (locals_at_ (S t) (S t) (S t))
                     (queue_at copy_work_ (S t) (copy_length jc + ic))
                     (queue_at default_work_ (S t) (2 * jd + id))
                     bp bg
                     (searched searchOne x numeric_type k out0 (cur_ jd)))
            | None => true
            end then true else false) = true).
      { destruct (2 <=? S t)%nat; [|reflexivity].
        destruct (happened _ _); [reflexivity|discriminate]. }
      destruct (match (if (2 <=? S t)%nat then _ else _) with
                | Some _ => _ | None => _ end) in Hstep, Hgo;
        [|discriminate].
      rewrite page_cur_next, page_buf_S in Hstep by lia.
      injection Hstep as <-.
      exists (S (S t)), (S t), (S t), (4 + 4 * S t)%nat, jc, ic, jd, id.
      cbn [statement locals copyQueue defaultQueue bufPinned bufGpus outs].
      split; [apply (at_while n p (S t)); lia|]. split; [reflexivity|].
      repeat split; try assumption; try apply Hc; try apply Hd;
        try apply Hsync; try lia.
      intros j Hj. assert (j = t \/ j = S t) as [->| ->] by lia.
      * rewrite sel_upd_next. apply Hpin. lia.
      * rewrite sel_upd. apply copied_in. lia.
    + injection Hstep as <-.
      assert (Hlast : S t = pages_) by lia.
      exists (S t), (S t), (S t), (4 + 4 * S t)%nat, jc, ic, jd, id.
      cbn [goto statement locals copyQueue defaultQueue bufPinned bufGpus
        outs].
      split; [rewrite Hlast; constructor|].
      repeat split; try assumption; try apply Hc; try apply Hd;
        try apply Hsync; try lia.
  - (* after the loop *)
    discriminate.
Qed.

(** *** The invariant is kept by the streams *)

Lemma transferred (j : nat) (pinned old : list Vec) :
  (j < pages_)%nat ->
  firstn (Z.to_nat (num_ j)) pinned = page_ j ->
  firstn (Z.to_nat (num_ j))
    (store_rows (firstn (Z.to_nat (num_ j)) pinned) old) = page_ j.
Proof.
  intros Hj ->. rewrite <- (page_length j Hj). apply firstn_store_rows.
Qed.

Lemma copy_preserves (steps : nat) (st st' : State) :
  reach_inv_ steps st ->
  stream_step searchOne numeric_type k copyStream st = Some st' ->
  reach_inv_ (S steps) st'.
Proof.
  intros (KC & KT & KS & rank & jc & ic & jd & id & Hat & Hloc & Hcq & Hdq &
          Hc & Hd & Hsync & Hpin & Hgpu & Hout & Hsteps) Hstep.
  destruct st as [stmt l cq dq bp bg o]. cbn [statement locals copyQueue
    defaultQueue bufPinned bufGpus outs] in *. subst l cq dq o.
  destruct (host_at_order _ _ _ _ _ Hat) as (Hord & Hpages & _ & _).
  unfold stream_step in Hstep. cbn [queue copyQueue] in Hstep.
  destruct Hc as (Hjc & Hic).
  destruct (Nat.eq_dec jc KT) as [->|Hne].
  { assert (ic = 0)%nat as -> by lia. rewrite Nat.add_0_r in Hstep.
    rewrite <- copy_issued in Hstep at 1.
    unfold queue_at in Hstep. cbn [pending] in Hstep.
    rewrite skipn_all in Hstep. discriminate. }
  destruct (copy_head KT jc ic) as (rest & Hhead); [lia|lia|].
  rewrite Hhead in Hstep.
  pose proof (queue_at_pop _ _ _ _ _ Hhead) as Hpop.
  cbn [queue_at completed] in Hstep.
  destruct (Nat.leb_spec 2 jc) as [H2|H2];
    [destruct Hic as [->|[-> Hic]]|]; cbn [andb Nat.eqb] in Hstep.
  - (* the wait for the call on page jc - 2 *)
    unfold run_work, happened, executeDone in Hstep.
    cbn [mark stream queue defaultQueue queue_at completed] in Hstep.
    destruct (Nat.leb_spec (2 * (jc - 2) + 2) (2 * jd + id)) as [Hev|];
      [|discriminate].
    injection Hstep as <-. rewrite Hpop.
    exists KC, KT, KS, rank, jc, 1%nat, jd, id.
    cbn [set_queue statement locals copyQueue defaultQueue bufPinned bufGpus
      outs].
    split; [exact Hat|]. split; [reflexivity|].
    split; [f_equal; lia|]. split; [reflexivity|].
    repeat split; try assumption; try apply Hd; try lia.
  - (* the transfer of page jc, after its wait *)
    unfold run_work in Hstep. injection Hstep as <-. rewrite Hpop.
    exists KC, KT, KS, rank, (S jc), 0%nat, jd, id.
    cbn [set_queue statement locals copyQueue defaultQueue bufPinned bufGpus
      outs].
    split; [exact Hat|]. split; [reflexivity|].
    split. { f_equal. rewrite copy_length_S, copy_work_length.
             replace (2 <=? jc)%nat with true
               by (symmetry; apply Nat.leb_le; lia). lia. }
    split; [reflexivity|].
    repeat split; try assumption; try apply Hd; try lia.
    + intros j Hj. assert (S j = jc \/ j = jc) as [<-| ->] by lia.
      * rewrite sel_upd_next. apply Hgpu. lia.
      * rewrite sel_upd. apply transferred; [lia|]. apply Hpin. lia.
    + rewrite copy_length_S, copy_work_length.
      replace (2 <=? jc)%nat with true
        by (symmetry; apply Nat.leb_le; lia). lia.
  - (* the transfer of page 0 or 1 *)
    assert (ic = 0)%nat as -> by lia.
    replace (2 <=? jc)%nat with false in Hstep
      by (symmetry; apply Nat.leb_gt; lia).
    cbn [andb] in Hstep.
    unfold run_work in Hstep. injection Hstep as <-. rewrite Hpop.
    exists KC, KT, KS, rank, (S jc), 0%nat, jd, id.
    cbn [set_queue statement locals copyQueue defaultQueue bufPinned bufGpus
      outs].
    split; [exact Hat|]. split; [reflexivity|].
    split. { f_equal. rewrite copy_length_S, copy_work_length.
             replace (2 <=? jc)%nat with false
               by (symmetry; apply Nat.leb_gt; lia). lia. }
    split; [reflexivity|].
    repeat split; try assumption; try apply Hd; try lia.
    + intros j Hj. assert (S j = jc \/ j = jc) as [<-| ->] by lia.
      * rewrite sel_upd_next. apply Hgpu. lia.
      * rewrite sel_upd. apply transferred; [lia|]. apply Hpin. lia.
    + rewrite copy_length_S, copy_work_length.
      replace (2 <=? jc)%nat with false
        by (symmetry; apply Nat.leb_gt; lia). lia.
Qed.

Lemma default_preserves (steps : nat) (st st' : State) :
  reach_inv_ steps st ->
  stream_step searchOne numeric_type k defaultStream st = Some st' ->
  reach_inv_ (S steps) st'.
Proof.
  intros (KC & KT & KS & rank & jc & ic & jd & id & Hat & Hloc & Hcq & Hdq &
          Hc & Hd & Hsync & Hpin & Hgpu & Hout & Hsteps) Hstep.
  destruct st as [stmt l cq dq bp bg o]. cbn [statement locals copyQueue
    defaultQueue bufPinned bufGpus outs] in *. subst l cq dq o.
  destruct (host_at_order _ _ _ _ _ Hat) as (Hord & Hpages & _ & _).
  unfold stream_step in Hstep. cbn [queue defaultQueue] in Hstep.
  destruct Hd as (Hjd & Hid).
  destruct (Nat.eq_dec jd KS) as [->|Hne].
  { assert (id = 0)%nat as -> by lia. rewrite Nat.add_0_r in Hstep.
    rewrite <- (default_issued KS) in Hstep at 1.
    unfold queue_at in Hstep. cbn [pending] in Hstep.
    rewrite skipn_all in Hstep. discriminate. }
  destruct (default_head KS jd id) as (rest & Hhead); [lia|lia|].
  rewrite Hhead in Hstep.
  pose proof (queue_at_pop _ _ _ _ _ Hhead) as Hpop.
  cbn [queue_at completed] in Hstep. rewrite Hpop in Hstep.
  destruct Hid as [->|[-> Hid]]; cbn [Nat.eqb] in Hstep.
  - (* the wait for the transfer of page jd *)
    unfold run_work, happened, copyDone in Hstep.
    cbn [mark stream queue copyQueue queue_at completed] in Hstep.
    destruct (Nat.leb_spec (copy_length (S jd)) (copy_length jc + ic))
      as [Hev|]; [|discriminate].
    apply copy_mark_reached in Hev; [|lia].
    injection Hstep as <-.
    exists KC, KT, KS, rank, jc, ic, jd, 1%nat.
    cbn [set_queue statement locals copyQueue defaultQueue bufPinned bufGpus
      outs].
    split; [exact Hat|]. split; [reflexivity|]. split; [reflexivity|].
    split; [f_equal; lia|].
    repeat split; try assumption; try apply Hc; try lia.
  - (* the call on page jd *)
    unfold run_work in Hstep. cbn [bufGpus outs] in Hstep.
    rewrite Hgpu in Hstep by lia.
    destruct (page_cur_lt jd ltac:(lia)) as (_ & Hcur & Hnum).
    pose proof (page_cur_range (S jd)) as Hnext.
    rewrite <- page_cur_S in Hnext by lia.
    pose proof (searched_step searchOne x numeric_type k out0 (cur_ jd)
                  (num_ jd) ltac:(lia) ltac:(lia) ltac:(lia)) as Hs.
    cbv zeta in Hs. fold (page_ jd) in Hs. rewrite Hs in Hstep.
    rewrite page_cur_S in Hstep by lia.
    injection Hstep as <-.
    exists KC, KT, KS, rank, jc, ic, (S jd), 0%nat.
    cbn [set_queue statement locals copyQueue defaultQueue bufPinned bufGpus
      outs].
    split; [exact Hat|]. split; [reflexivity|]. split; [reflexivity|].
    split; [f_equal; lia|].
    repeat split; try assumption; try apply Hc; try lia.
Qed.


(** *** Every run of the pipeline *)

Lemma init_inv : reach_inv_ 0 (init res out0).
Proof.
  exists 0%nat, 0%nat, 0%nat, 0%nat, 0%nat, 0%nat, 0%nat, 0%nat.
  unfold init.
  cbn [statement locals copyQueue defaultQueue bufPinned bufGpus outs].
  assert (Hc0 : cur_ 0 = 0) by (unfold page_cur; simpl; lia).
  split; [constructor|]. split.
  { unfold locals_at. cbn [handles page_buf Nat.even]. now rewrite Hc0. }
  split; [reflexivity|]. split; [reflexivity|].
  repeat split; try lia.
  rewrite Hc0. symmetry. apply searched_0.
Qed.

Lemma step_preserves (steps : nat) (a : Agent) (st st' : State) :
  reach_inv_ steps st -> step_ a st = Some st' -> reach_inv_ (S steps) st'.
Proof.
  destruct a as [|[|]]; cbn [step].
  - apply host_preserves.
  - apply copy_preserves.
  - apply default_preserves.
Qed.

Lemma run_preserves (schedule : list Agent) (steps : nat) (st st' : State) :
  reach_inv_ steps st -> run_ schedule st = Some st' ->
  reach_inv_ (steps + length schedule) st'.
Proof.
  revert steps st. induction schedule as [|a schedule IH]; intros steps st Hi.
  - cbn [run length]. intros [= <-]. now rewrite Nat.add_0_r.
  - cbn [run length]. destruct (step_ a st) as [st1|] eqn:E; [|discriminate].
    intros Hr. rewrite <- Nat.add_succ_comm.
    apply (IH _ st1); [|exact Hr]. now apply (step_preserves steps a st).
Qed.

Lemma stream_step_enabled (s : Stream) (st : State) (w : Work)
    (rest : list Work) :
  pending (queue s st) = w :: rest ->
  match w with StreamWaitOnEvent e => happened e st = true | _ => True end ->
  exists st', stream_step searchOne numeric_type k s st = Some st'.
Proof.
  intros Hq Hw. unfold stream_step. rewrite Hq.
  destruct w; cbn [run_work]; [rewrite Hw|..]; eauto.
Qed.

Lemma host_step_blocked (st : State) :
  host_step n p x st = None ->
  statement st = Returned \/ statement st = Aborted \/
  (statement st = AtCopyIn /\
   exists e,
     sel (cur1BufIndex (locals st)) (eventPinnedCopyDone (locals st)) =
       Some e /\ happened e st = false).
Proof.
  unfold host_step.
  destruct (statement st); auto.
  - now destruct (cur3 (locals st) <? n).
  - now destruct (negb _ && _).
  - destruct (negb _ && _); [|discriminate].
    now destruct (sel _ _).
  - destruct (cur1 (locals st) <? n); [|discriminate].
    destruct (sel _ _) as [e|]; [|discriminate].
    destruct (happened e st) eqn:E; [discriminate|].
    intros _. right. right. split; [reflexivity|]. now exists e.
Qed.

(** While a stream has work left, one of the two streams can run. *)
Lemma device_progress (KT KS jc ic jd id : nat) (st : State) :
  copyQueue st = queue_at copy_work_ KT (copy_length jc + ic) ->
  defaultQueue st = queue_at default_work_ KS (2 * jd + id) ->
  (jc <= KT /\ (ic = 0 \/ ic = 1 /\ 2 <= jc < KT))%nat ->
  (jd <= KS /\ (id = 0 \/ id = 1 /\ jd < KS))%nat ->
  (KS <= KT <= S KS)%nat ->
  (jc < KT \/ jd < KS)%nat ->
  exists s st', stream_step searchOne numeric_type k s st = Some st'.
Proof.
  intros Hcq Hdq (Hjc & Hic) (Hjd & Hid) Hord Hleft.
  assert (Hcopy :
    (jc < KT)%nat -> (jc < 2 \/ ic = 1 \/ jc <= jd + 1)%nat ->
    exists st', stream_step searchOne numeric_type k copyStream st = Some st').
  { intros Hlt Hen.
    destruct (copy_head KT jc ic) as (rest & Hhead); [lia|lia|].
    eapply (stream_step_enabled copyStream st).
    - cbn [queue]. rewrite Hcq. exact Hhead.
    - destruct (Nat.leb_spec 2 jc), (Nat.eqb_spec ic 0); cbn [andb]; auto.
      unfold happened, executeDone.
      cbn [mark stream queue]. rewrite Hdq. cbn [queue_at completed].
      apply Nat.leb_le. lia. }
  assert (Hdefault :
    (jd < KS)%nat -> (id = 1 \/ S jd <= jc)%nat ->
    exists st',
      stream_step searchOne numeric_type k defaultStream st = Some st').
  { intros Hlt Hen.
    destruct (default_head KS jd id) as (rest & Hhead); [lia|lia|].
    eapply (stream_step_enabled defaultStream st).
    - cbn [queue]. rewrite Hdq. exact Hhead.
    - destruct (Nat.eqb_spec id 0); auto.
      unfold happened, copyDone.
      cbn [mark stream queue]. rewrite Hcq. cbn [queue_at completed].
      apply Nat.leb_le. apply copy_mark_reached; lia. }
  destruct (Nat.lt_ge_cases jd KS) as [Hd|Hd].
  - destruct (Nat.eq_dec id 1) as [->|Hid1];
      [exists defaultStream; apply Hdefault; lia|].
    destruct (Nat.le_gt_cases (S jd) jc) as [Hr|Hr];
      [exists defaultStream; apply Hdefault; lia|].
    exists copyStream. apply Hcopy; lia.
  - assert (Hc : (jc < KT)%nat) by lia.
    destruct (Nat.le_gt_cases jc (jd + 1)) as [Hr|Hr];
      [exists copyStream; apply Hcopy; lia|].
    lia.
Qed.

(** A state the pipeline can reach is the end of the run or has a move. *)
Lemma reach_progress (steps : nat) (st : State) :
  reach_inv_ steps st ->
  finished st \/ exists a st', step_ a st = Some st'.
Proof.
  intros (KC & KT & KS & rank & jc & ic & jd & id & Hat & Hloc & Hcq & Hdq &
          Hc & Hd & Hsync & Hpin & Hgpu & Hout & Hsteps).
  destruct (host_at_order _ _ _ _ _ Hat) as (Hord & Hpages & _ & Hlag).
  destruct (host_step n p x st) as [st'|] eqn:Eh;
    [right; exists Host, st'; exact Eh|].
  assert (Hdev :
    (jc < KT \/ jd < KS)%nat -> exists a st', step_ a st = Some st').
  { intros Hleft.
    destruct (device_progress KT KS jc ic jd id st Hcq Hdq Hc Hd
                ltac:(lia) Hleft) as (s & st' & E).
    now exists (Device s), st'. }
  destruct (host_step_blocked st Eh) as [Hs|[Hs|(Hs & e & He & Hno)]];
    rewrite Hs in Hat.
  - (* after the loop *)
    inversion Hat as [ | | | | | | | | | ].
    destruct (Nat.eq_dec jd KS) as [Hj|Hj].
    + left. split; [exact Hs|]. rewrite Hdq, Hj.
      assert (id = 0)%nat as -> by lia. rewrite Nat.add_0_r.
      apply (queue_at_done default_work_ (fun J => 2 * J)%nat).
      exact default_issued.
    + right. apply Hdev. lia.
  - inversion Hat.
  - (* the host waits for a transfer *)
    right. apply Hdev. left.
    rewrite Hloc in He.
    inversion Hat as [ | | | | | | | | t Ht | ];
      try subst KC; try subst KT; try subst KS; try subst rank;
      cbn [locals_at cur1BufIndex eventPinnedCopyDone] in He.
    + discriminate He.
    + rewrite handles_before in He.
      destruct (Nat.leb_spec 2 (S t)); [|discriminate].
      injection He as <-.
      replace (S t - 2)%nat with (t - 1)%nat in Hno by lia.
      unfold happened, copyDone in Hno. cbn [mark stream queue] in Hno.
      rewrite Hcq in Hno. cbn [queue_at completed] in Hno.
      apply Nat.leb_gt in Hno.
      destruct (Nat.le_gt_cases (S (t - 1)) jc) as [Hr|Hr]; [|lia].
      apply (proj2 (copy_mark_reached (t - 1) jc ic ltac:(lia))) in Hr.
      lia.
Qed.

(** Every run has at most [8 * pages + 5] moves. *)
Lemma reach_bound (steps : nat) (st : State) :
  reach_inv_ steps st -> (steps <= 8 * pages_ + 5)%nat.
Proof.
  intros (KC & KT & KS & rank & jc & ic & jd & id & Hat & Hloc & Hcq & Hdq &
          Hc & Hd & Hsync & Hpin & Hgpu & Hout & Hsteps).
  destruct (host_at_order _ _ _ _ _ Hat) as (Hord & Hpages & Hrank & _).
  pose proof (copy_completed_le jc ic KT (proj1 Hc) (proj2 Hc)) as Ha.
  pose proof (copy_length_mono KT pages_ ltac:(lia)) as Hm.
  assert (copy_length pages_ <= 2 * pages_)%nat.
  { unfold copy_length. destruct (Nat.leb_spec pages_ 2); lia. }
  lia.
Qed.

(** At the end of a run the queries are all answered, each row holding the
    answer for its query, and the copy stream has run all its work too. *)
Lemma reach_finished (steps : nat) (st : State) :
  reach_inv_ steps st -> finished st ->
  outs st = searched searchOne x numeric_type k out0 n /\
  pending (copyQueue st) = [].
Proof.
  intros (KC & KT & KS & rank & jc & ic & jd & id & Hat & Hloc & Hcq & Hdq &
          Hc & Hd & Hsync & Hpin & Hgpu & Hout & Hsteps) (Hs & Hempty).
  rewrite Hs in Hat.
  inversion Hat as [ | | | | | | | | | ].
  subst KC KT KS.
  assert (Hjd : jd = pages_).
  { destruct (Nat.eq_dec jd pages_) as [E|E]; [exact E|].
    destruct (default_head pages_ jd id) as (rest & Hhead); [lia|lia|].
    rewrite Hdq, Hhead in Hempty. discriminate. }
  subst jd. split.
  - rewrite Hout. now rewrite page_cur_ge by lia.
  - assert (jc = pages_) as -> by lia. assert (ic = 0)%nat as -> by lia.
    rewrite Hcq, Nat.add_0_r.
    apply (queue_at_done copy_work_ copy_length). exact copy_issued.
Qed.

(** From every state the pipeline can reach, the run can be brought to its
    end. *)
Lemma reach_complete (budget steps : nat) (st : State) :
  reach_inv_ steps st -> (8 * pages_ + 5 < steps + budget)%nat ->
  exists schedule st', run_ schedule st = Some st' /\ finished st'.
Proof.
  revert steps st. induction budget as [|budget IH]; intros steps st Hi Hb.
  - pose proof (reach_bound _ _ Hi). lia.
  - destruct (reach_progress _ _ Hi) as [Hf|(a & st1 & E)].
    + now exists [], st.
    + destruct (IH (S steps) st1) as (schedule & st' & Hr & Hf);
        [now apply (step_preserves steps a st)|lia|].
      exists (a :: schedule), st'. cbn [run]. now rewrite E.
Qed.

(** The pipeline on its streams, whatever the order in which the host and
    the two streams move: the run is finite, it cannot get stuck before the
    loop has returned and the default stream has run all its work, and at
    that point the output tensors hold the answer for every query. *)
Lemma streams_run (schedule : list Agent) (st : State) :
  run_ schedule (init res out0) = Some st ->
  (length schedule <= 8 * pages_ + 5)%nat /\
  (finished st \/ exists a st', step_ a st = Some st') /\
  (finished st ->
   outs st = searched searchOne x numeric_type k out0 n /\
   pending (copyQueue st) = []).
Proof.
  intros Hr.
  pose proof (run_preserves schedule 0 _ st init_inv Hr) as Hi.
  cbn [Nat.add] in Hi.
  split; [exact (reach_bound _ _ Hi)|].
  split; [exact (reach_progress _ _ Hi)|].
  exact (reach_finished _ _ Hi).
Qed.

(** There are runs that reach the end. *)
Lemma streams_complete :
  exists schedule st, run_ schedule (init res out0) = Some st /\ finished st.
Proof.
  apply (reach_complete (8 * pages_ + 6) 0 _ init_inv). lia.
Qed.

End StreamFacts.

(** ** The overlapped pipeline against the unbuffered paging *)

Section PipelineEquivalence.

Variable deviceMajor : Z -> Z.
Variable get_numeric_type_size : NumericType -> Result Z.
Variable getMaxKSelection : bool -> Z.
Variable searchOne : NumericType -> Z -> Vec -> DistRow * LabelRow.

Local Notation "'search_'" :=
  (search deviceMajor get_numeric_type_size getMaxKSelection searchOne).

(** C1.  A host-resident query batch whose byte size [n * d * s] is at least
    the minimum paged size is searched twice on the same index, with a [k]
    that fits in [int]: once with pinned staging memory that gives pages of
    at least one vector (the overlapped pipeline), once with staging memory
    unavailable or too small for one vector (the sequential unbuffered
    paging).  Both searches succeed and return the same distances and
    labels, bit for bit: row [i] holds the answer of the implementation for
    query [i].  The first search called the implementation on the pages of
    the pipeline, the second on the pages of the unbuffered paging.

    The outputs of the pipeline do not depend on the order in which the
    device runs what the loop issues.  When the host, the copy stream and
    the default stream advance in any order that the stream queues and the
    event waits of the loop allow, the run is finite, it is never stuck
    before the loop has returned and the default stream has run all its
    work, some run gets there, and every run that gets there leaves in the
    output tensors the rows both searches return. *)
Theorem pipeline_equivalence (n k s : Z) (x : Buffer Vec) (nt : NumericType)
    (t : data_t) (distances : Buffer DistRow) (labels : Buffer LabelRow)
    (w1 w2 : World) :
  let g1 := self w1 in
  let g2 := self w2 in
  let dim := d (base g1) in
  let page := pageSizeInVecs_of (snd (getPinnedMemory (resources_ g1))) s dim in
  let start :=
    Streams.init (resources_ g1) (rows n distances, rows n labels) in
  base g2 = base g1 ->
  config_ g2 = config_ g1 ->
  minPagedSize_ g2 = minPagedSize_ g1 ->
  is_trained (base g1) = true ->
  dispatch_type nt = Some t ->
  get_numeric_type_size nt = Ok s ->
  0 < s -> 0 < dim ->
  1 <= n <= idx_max - 2 ^ 29 ->
  Z.of_nat (length (cells x)) = n ->
  k = to_int k ->
  0 < to_int k <= getMaxKSelection (should_use_cuvs deviceMajor (config_ g1)) ->
  getDeviceForAddress x = -1 ->
  n * dim * s < 2 ^ 64 ->
  0 <= minPagedSize_ g1 <= n * dim * s ->
  fst (getPinnedMemory (resources_ g1)) = true ->
  1 <= page ->
  (fst (getPinnedMemory (resources_ g2)) = false \/
   pageSizeInVecs_of (snd (getPinnedMemory (resources_ g2))) s dim < 1) ->
  exists r w1' w2',
    search_ n x nt k distances labels w1 = (Ok r, w1') /\
    search_ n x nt k distances labels w2 = (Ok r, w2') /\
    cells (fst r) =
      store_rows (map fst (map (searchOne nt (to_int k)) (cells x)))
        (cells distances) /\
    cells (snd r) =
      store_rows (map snd (map (searchOne nt (to_int k)) (cells x)))
        (cells labels) /\
    searchImpl_events (trace w1') =
      searchImpl_events (trace w1) ++
      map (searchImpl_of_page x nt (to_int k)) (tiles n page) /\
    searchImpl_events (trace w2') =
      searchImpl_events (trace w2) ++
      map (searchImpl_of_page x nt (to_int k)) (tiles n (batchSize_of s dim)) /\
    (exists schedule st,
       Streams.run searchOne n page x nt (to_int k) schedule start = Some st /\
       Streams.finished st) /\
    (forall schedule st,
       Streams.run searchOne n page x nt (to_int k) schedule start = Some st ->
       (length schedule <= 8 * Streams.pages n page + 5)%nat /\
       (Streams.finished st \/
        exists a st',
          Streams.step searchOne n page x nt (to_int k) a st = Some st') /\
       (Streams.finished st ->
        cells (fst r) =
          store_rows (fst (Streams.outs st)) (cells distances) /\
        cells (snd r) =
          store_rows (snd (Streams.outs st)) (cells labels))).
Proof.
  intros g1 g2 dim page start Hbase Hcfg Hmin Htr Hd Hs Hs0 Hdim Hn Hl _ Hk
    Hx Hsz Hthr Hav Hpage Hfall.
  unfold idx_max in Hn.
  set (out' := searched searchOne x nt (to_int k)
                 (rows n distances, rows n labels) n).
  destruct (search_paged deviceMajor get_numeric_type_size getMaxKSelection
              searchOne n k s x nt distances labels out'
              (map (searchImpl_of_page x nt (to_int k)) (tiles n page))
              w1)
    as (w1' & E1 & T1); try assumption; try lia.
  { intros wa Hwa.
    destruct (searchFromCpuPaged_overlapped_run get_numeric_type_size
                searchOne n (to_int k) s x nt t
                (rows n distances, rows n labels) wa)
      as (wb & Eb & _ & Tb); try assumption;
      try (rewrite Hwa; assumption); try (unfold idx_max; lia).
    exists wb. split; [exact Eb|]. rewrite Tb, Hwa. reflexivity. }
  destruct (search_paged deviceMajor get_numeric_type_size getMaxKSelection
              searchOne n k s x nt distances labels out'
              (map (searchImpl_of_page x nt (to_int k))
                 (tiles n (batchSize_of s dim)))
              w2)
    as (w2' & E2 & T2); fold g2;
    try (rewrite ?Hbase, ?Hcfg, ?Hmin; assumption);
    try (rewrite ?Hbase, ?Hcfg, ?Hmin; fold dim; lia).
  { intros wa Hwa.
    destruct (searchFromCpuPaged_unbuffered_run get_numeric_type_size
                searchOne n (to_int k) s x nt t
                (rows n distances, rows n labels) wa)
      as (wb & Eb & _ & Tb); try assumption;
      try (rewrite Hwa; fold g2; rewrite ?Hbase; assumption);
      try (unfold idx_max; lia).
    exists wb. split; [exact Eb|]. rewrite Tb, Hwa. fold g2.
    rewrite Hbase. reflexivity. }
  assert (Hn' : 1 <= n <= idx_max) by (unfold idx_max; lia).
  eexists. exists w1', w2'. split; [exact E1|]. split; [exact E2|].
  cbn [fst snd cells].
  split; [unfold out'; now rewrite (searched_all searchOne n)|].
  split; [unfold out'; now rewrite (searched_all searchOne n)|].
  split; [exact T1|]. split; [exact T2|]. split.
  - apply (streams_complete searchOne n page x nt (to_int k) (resources_ g1)
             (rows n distances, rows n labels) Hn' Hpage Hl).
  - intros schedule st Hrun.
    destruct (streams_run searchOne n page x nt (to_int k) (resources_ g1)
                (rows n distances, rows n labels) Hn' Hpage Hl schedule st
                Hrun) as (Hlen & Hprog & Hfin).
    split; [exact Hlen|]. split; [exact Hprog|].
    intros Hf. destruct (Hfin Hf) as [-> _]. now split.
Qed.

End PipelineEquivalence.


(** * The statements at concrete inputs *)

(** The pipeline on three queries with pages of two: the first page is
    copied in; then, page by page, transfer, compute, and copy-in of the
    page that follows, the buffers alternating. *)
Example pipeline_trace_example :
  trace (snd (searchOverlapped ex_searchOne 3 ex_queries Float32 1 2
                (cells ex_distances, cells ex_labels)
                (ex_world 2 true (true, 32) 16 false))) =
    [EvCopyToPinned 0 0 2;
     EvCopyPinnedToGpu 0 2; EvSearchImpl 2 [[1; 2]; [3; 4]] Float32 1 0;
     EvCopyToPinned 1 2 1;
     EvCopyPinnedToGpu 1 1; EvSearchImpl 1 [[5; 6]] Float32 1 2].
Proof. reflexivity. Qed.

(** An insert of three vectors below both thresholds: one page, identifiers
    generated from the count. *)
Example add_trace_example :
  add ex_deviceMajor true 3 ex_queries Float32
    (ex_world 2 true (true, 32) 16 false) =
    (Ok tt,
     mkWorld
       (mkGpuIndex (mkIndex 2 1 0 8 true)
          (resources_ (self (ex_world 2 true (true, 32) 16 false)))
          (mkConfig 0 false) 16)
       [EvToDevice 3; EvToDevice 3;
        EvAddImpl 3 [[1; 2]; [3; 4]; [5; 6]] Float32 (Some [5; 6; 7])]).
Proof. reflexivity. Qed.

(** The arithmetic of the tiling example. *)
Example tiling_numbers_example :
  addPaged_tileSize 1000000 128 float = 32768 /\
  ceil_div 1000000 32768 = 31 /\
  last_tile 1000000 32768 = 16960 /\
  map snd (tiles 100 32) = [32; 32; 32; 4].
Proof. repeat split. Qed.

(** What the waits of the pipeline hold back.  Three queries in pages of one
    vector, the host running ahead of the device: after the copy-in of
    page 1 and the issue of the work on pages 0 and 1, the host cannot copy
    page 2 into pinned buffer 0, which page 0 still occupies, and the default
    stream cannot start the call on page 0, which is not on the device yet;
    once the copy stream has transferred page 0, both can move. *)
Example pipeline_waits_example :
  exists st st1,
    Streams.run ex_searchOne 3 1 ex_queries Float32 1
      (repeat Streams.Host 11)
      (Streams.init (resources_ (self (ex_world 2 true (true, 32) 16 false)))
         (cells ex_distances, cells ex_labels)) = Some st /\
    Streams.step ex_searchOne 3 1 ex_queries Float32 1 Streams.Host st =
      None /\
    Streams.step ex_searchOne 3 1 ex_queries Float32 1
      (Streams.Device Streams.defaultStream) st = None /\
    Streams.step ex_searchOne 3 1 ex_queries Float32 1
      (Streams.Device Streams.copyStream) st = Some st1 /\
    Streams.step ex_searchOne 3 1 ex_queries Float32 1 Streams.Host st1 <>
      None /\
    Streams.step ex_searchOne 3 1 ex_queries Float32 1
      (Streams.Device Streams.defaultStream) st1 <> None.
Proof.
  eexists. eexists.
  split; [vm_compute; reflexivity|].
  split; [vm_compute; reflexivity|].
  split; [vm_compute; reflexivity|].
  split; [vm_compute; reflexivity|].
  split; vm_compute; discriminate.
Qed.

(** Three queries of dimension 2 in 32-bit floats, 24 bytes against a paging
    threshold of 16: with 32 bytes of staging memory the pipeline runs on
    pages of 2 vectors, without staging memory the unbuffered paging runs;
    the outputs agree.  They are also the outputs of the run of the pipeline
    in which the host issues everything before the device starts, the copy
    stream then runs its two transfers and the default stream its two
    calls. *)
Lemma pipeline_equivalence_witness :
  exists r w1' w2' st,
    search ex_deviceMajor ex_numeric_type_size ex_maxK ex_searchOne
      3 ex_queries Float32 1 ex_distances ex_labels
      (ex_world 2 true (true, 32) 16 false) = (Ok r, w1') /\
    search ex_deviceMajor ex_numeric_type_size ex_maxK ex_searchOne
      3 ex_queries Float32 1 ex_distances ex_labels
      (ex_world 2 true (false, 0) 16 false) = (Ok r, w2') /\
    cells (fst r) = [[3]; [7]; [11]] /\
    cells (snd r) = [[2]; [2]; [2]] /\
    map impl_size (searchImpl_events (trace w1')) = [2; 1] /\
    map impl_size (searchImpl_events (trace w2')) = [3] /\
    Streams.run ex_searchOne 3 2 ex_queries Float32 1
      (repeat Streams.Host 13 ++
       repeat (Streams.Device Streams.copyStream) 2 ++
       repeat (Streams.Device Streams.defaultStream) 4)
      (Streams.init (resources_ (self (ex_world 2 true (true, 32) 16 false)))
         (cells ex_distances, cells ex_labels)) = Some st /\
    Streams.finished st /\
    cells (fst r) = store_rows (fst (Streams.outs st)) (cells ex_distances) /\
    cells (snd r) = store_rows (snd (Streams.outs st)) (cells ex_labels).
Proof.
  destruct (pipeline_equivalence ex_deviceMajor ex_numeric_type_size ex_maxK
              ex_searchOne 3 1 4 ex_queries Float32 float ex_distances
              ex_labels (ex_world 2 true (true, 32) 16 false)
              (ex_world 2 true (false, 0) 16 false))
    as (r & w1' & w2' & E1 & E2 & Cd & Cl & T1 & T2 & _ & Hall);
    [side .. |].
  assert (Hex :
    exists st,
      Streams.run ex_searchOne 3 2 ex_queries Float32 1
        (repeat Streams.Host 13 ++
         repeat (Streams.Device Streams.copyStream) 2 ++
         repeat (Streams.Device Streams.defaultStream) 4)
        (Streams.init
           (resources_ (self (ex_world 2 true (true, 32) 16 false)))
           (cells ex_distances, cells ex_labels)) = Some st /\
      Streams.finished st).
  { eexists. split; [vm_compute; reflexivity|]. split; reflexivity. }
  destruct Hex as (st & Hrun & Hf).
  destruct (Hall _ st Hrun) as (_ & _ & Hfin).
  destruct (Hfin Hf) as (Hd & Hl).
  exists r, w1', w2', st. rewrite <- Hd, <- Hl, Cd, Cl, T1, T2.
  repeat split; try assumption; apply Hf.
Defined.

(** The same three queries through the pipeline with pages of 2 vectors: two
    calls of the implementation, for the queries 0, 1 and for the query 2. *)
Lemma pipeline_terminates_in_order_witness :
  exists st' w',
    searchOverlapped ex_searchOne 3 ex_queries Float32 1 2
      (cells ex_distances, cells ex_labels)
      (ex_world 2 true (true, 32) 16 false) = (Ok st', w') /\
    cur1 st' = 3 /\ cur2 st' = 3 /\ cur3 st' = 3 /\
    map queries_of (searchImpl_events (trace w')) = [[0; 1]; [2]].
Proof.
  destruct (pipeline_terminates_in_order ex_searchOne 3 2 1 ex_queries
              Float32 float (cells ex_distances, cells ex_labels)
              (ex_world 2 true (true, 32) 16 false))
    as [(st' & w' & calls & E & F1 & F2 & F3 & T & C & _) _]; [side .. |].
  exists st', w'. rewrite T, C. repeat split; assumption.
Defined.

(** The example of the specification: 1,000,000 vectors of dimension 128 in
    32-bit floats on a device where the backend is not eligible are inserted
    in 31 tiles, 30 of 32768 vectors and a last one of 16960; on a device of
    compute capability 8 with the backend requested they are inserted in one
    call. *)
Lemma addPaged_tiling_witness :
  (exists w' calls,
     addPaged_ ex_deviceMajor 1000000 ex_big_batch Float32 None
       (ex_world 128 true (false, 0) kMinPageSize false) = (Ok tt, w') /\
     addImpl_events (trace w') = calls /\
     Z.of_nat (length calls) = 31 /\
     map impl_size calls = repeat 32768 30 ++ [16960]) /\
  (exists w' calls,
     addPaged_ ex_deviceMajor8 1000000 ex_big_batch Float32 None
       (ex_world 128 true (false, 0) kMinPageSize true) = (Ok tt, w') /\
     addImpl_events (trace w') = calls /\
     map impl_size calls = [1000000]).
Proof.
  split.
  - destruct (addPaged_tiling ex_deviceMajor 1000000 ex_big_batch Float32
                float None (ex_world 128 true (false, 0) kMinPageSize false))
      as (w' & calls & E & T & Htiled & _); [side .. |].
    destruct Htiled as (_ & Hlen & Hsizes); [side .. |].
    exists w', calls. repeat split; assumption.
  - destruct (addPaged_tiling ex_deviceMajor8 1000000 ex_big_batch Float32
                float None (ex_world 128 true (false, 0) kMinPageSize true))
      as (w' & calls & E & T & _ & Hone); [side .. |].
    exists w', calls. repeat split; try assumption.
    rewrite Hone; [reflexivity|]. split; [evalZ|reflexivity].
Defined.

(** Staging memory of 32 bytes, dimension 2, 32-bit floats: pages of 2
    vectors for the pipeline, and a fallback page of 2^26 vectors. *)
Lemma page_size_derivation_witness :
  pageSizeInVecs_of 32 4 2 = 2 /\ batchSize_of 4 2 = 2 ^ 26 /\
  1 <= batchSize_of 4 2.
Proof.
  destruct (page_size_derivation ex_numeric_type_size ex_searchOne 3 1 4
              ex_queries Float32 (cells ex_distances, cells ex_labels)
              (ex_world 2 true (true, 32) 16 false))
    as (Hpage & _ & _ & _ & Hbatch & _); [side .. |].
  split; [exact Hpage|]. split; [reflexivity|exact Hbatch].
Defined.

(** An empty search and an empty insert on a trained index. *)
Lemma empty_request_noop_witness :
  search ex_deviceMajor ex_numeric_type_size ex_maxK ex_searchOne
    0 ex_queries Float32 1 ex_distances ex_labels
    (ex_world 2 true (true, 32) 16 false) =
    (Ok (ex_distances, ex_labels), ex_world 2 true (true, 32) 16 false) /\
  add_with_ids ex_deviceMajor true 0 ex_queries Float32 None
    (ex_world 2 true (true, 32) 16 false) =
    (Ok tt, ex_world 2 true (true, 32) 16 false).
Proof.
  destruct (empty_request_noop ex_deviceMajor true ex_numeric_type_size
              ex_maxK ex_searchOne 3 1 ex_queries Float32 None ex_distances
              ex_labels (ex_world 2 true (true, 32) 16 false))
    as (Hs & _ & Ha & _); [side |].
  split; [apply Hs; side | exact Ha].
Defined.

(** The three operations on an index that was not trained. *)
Lemma untrained_fails_witness :
  add_with_ids ex_deviceMajor true 3 ex_queries Float32 (Some ex_ids)
    (ex_world 2 false (true, 32) 16 false) =
    (Throw NotTrained, ex_world 2 false (true, 32) 16 false) /\
  search ex_deviceMajor ex_numeric_type_size ex_maxK ex_searchOne
    3 ex_queries Float32 1 ex_distances ex_labels
    (ex_world 2 false (true, 32) 16 false) =
    (Throw NotTrained, ex_world 2 false (true, 32) 16 false) /\
  assign ex_deviceMajor ex_numeric_type_size ex_maxK ex_searchOne
    3 ex_queries ex_labels 1 (ex_world 2 false (true, 32) 16 false) =
    (Throw NotTrained, ex_world 2 false (true, 32) 16 false).
Proof.
  destruct (untrained_fails ex_deviceMajor true ex_numeric_type_size ex_maxK
              ex_searchOne 3 1 ex_queries Float32 (Some ex_ids) ex_distances
              ex_labels (ex_world 2 false (true, 32) 16 false))
    as (Ha & _ & Hs & Hg); [side |].
  repeat split; assumption.
Defined.

(** Three vectors inserted into an index that holds 5: it holds 8. *)
Lemma add_with_ids_ntotal_witness :
  ntotal
    (base
       (self
          (snd (add_with_ids ex_deviceMajor true 3 ex_queries Float32
                  (Some ex_ids) (ex_world 2 true (true, 32) 16 false))))) =
    5 + 3.
Proof.
  apply (add_with_ids_ntotal ex_deviceMajor true 3 ex_queries Float32
           (Some ex_ids) (ex_world 2 true (true, 32) 16 false)); side.
Defined.

(** Three vectors inserted without identifiers into an index that holds 5 and
    whose implementation requires identifiers: it is handed 5, 6, 7. *)
Lemma add_with_ids_identifiers_witness :
  exists w',
    add_with_ids ex_deviceMajor true 3 ex_queries Float32 None
      (ex_world 2 true (true, 32) 16 false) = (Ok tt, w') /\
    concat (map (fun e => match impl_ids e with Some l => l | None => [] end)
              (addImpl_events (trace w'))) = [5; 6; 7].
Proof.
  destruct (add_with_ids_identifiers ex_deviceMajor true 3 ex_queries Float32
              float None (ex_world 2 true (true, 32) 16 false))
    as (w' & calls & chunks & E & T & Hids & Hcat);
    [side | side | side | side | side | side | reflexivity | discriminate |].
  exists w'. split; [exact E|].
  rewrite T. cbn [ex_world trace addImpl_events filter app].
  rewrite <- (map_map impl_ids
                (fun o => match o with Some l => l | None => [] end)).
  rewrite Hids, map_map. cbn beta iota.
  rewrite map_id. exact Hcat.
Defined.

(** C6, the counterexample.  A search for [k = 0] neighbours on a trained
    index does not return successfully: it is rejected with [InvalidK]. *)
Lemma search_k_zero_counterexample :
  search ex_deviceMajor ex_numeric_type_size ex_maxK ex_searchOne
    3 ex_queries Float32 0 ex_distances ex_labels
    (ex_world 2 true (true, 32) 16 false) =
    (Throw InvalidK, ex_world 2 true (true, 32) 16 false) /\
  ~ (exists r w',
       search ex_deviceMajor ex_numeric_type_size ex_maxK ex_searchOne
         3 ex_queries Float32 0 ex_distances ex_labels
         (ex_world 2 true (true, 32) 16 false) = (Ok r, w')).
Proof.
  split; [reflexivity|].
  intros (r & w' & H). vm_compute in H. discriminate.
Qed.

(** C5, at the input where the code departs from it.  Three host-resident
    queries of one byte per element in an encoding that no dispatch site
    supports, above the paging threshold.  Without staging memory the
    unbuffered paging skips every page and the search returns as if it had
    succeeded: the implementation was never called and the outputs are what
    they were.  With staging memory, or below the paging threshold, the same
    request is rejected with [UnsupportedEncoding]. *)
Theorem unsupported_encoding_unbuffered_paging :
  (exists w',
     search ex_deviceMajor ex_numeric_type_size ex_maxK ex_searchOne
       3 ex_queries (UnknownNumeric 2) 1 ex_distances ex_labels
       (ex_world 2 true (false, 0) 3 false) =
       (Ok (ex_distances, ex_labels), w') /\
     searchImpl_events (trace w') = []) /\
  searchFromCpuPaged_ ex_numeric_type_size ex_searchOne
    3 ex_queries (UnknownNumeric 2) 1 (cells ex_distances, cells ex_labels)
    (ex_world 2 true (false, 0) 3 false) =
    (Ok (cells ex_distances, cells ex_labels),
     ex_world 2 true (false, 0) 3 false) /\
  fst (search ex_deviceMajor ex_numeric_type_size ex_maxK ex_searchOne
         3 ex_queries (UnknownNumeric 2) 1 ex_distances ex_labels
         (ex_world 2 true (true, 32) 3 false)) =
    Throw UnsupportedEncoding /\
  fst (search ex_deviceMajor ex_numeric_type_size ex_maxK ex_searchOne
         3 ex_queries (UnknownNumeric 2) 1 ex_distances ex_labels
         (ex_world 2 true (true, 32) 300 false)) =
    Throw UnsupportedEncoding.
Proof.
  split; [eexists; split; [vm_compute; reflexivity | reflexivity]|].
  split; [|split; reflexivity].
  apply (searchFromCpuPaged_unsupported ex_numeric_type_size ex_searchOne
           3 1 1 ex_queries (UnknownNumeric 2)); try side.
Qed.

(** * Further properties *)

Lemma bind_assoc {A B C} (m : M A) (f : A -> M B) (g : B -> M C) (w : World) :
  bind (bind m f) g w = bind m (fun a => bind (f a) g) w.
Proof.
  unfold bind. destruct (m w) as [[a|e] w']; reflexivity.
Qed.

Lemma fromDevice_self {A} (dev n : Z) (src : list A) (dst : Buffer A)
    (w : World) :
  self (snd (fromDevice dev n src dst w)) = self w.
Proof.
  unfold fromDevice, bind, emit, ret.
  destruct (getDeviceForAddress dst =? dev); reflexivity.
Qed.

(** ** What a search returns, whatever the path *)

Section SearchResult.

Variable deviceMajor : Z -> Z.
Variable get_numeric_type_size : NumericType -> Result Z.
Variable getMaxKSelection : bool -> Z.
Variable searchOne : NumericType -> Z -> Vec -> DistRow * LabelRow.

Local Notation "'search_'" :=
  (search deviceMajor get_numeric_type_size getMaxKSelection searchOne).
Local Notation "'page_of'" := (search_page_of get_numeric_type_size).

Lemma tiles_whole (n : Z) : 1 <= n -> tiles n n = [(0, n)].
Proof.
  intros Hn. unfold tiles.
  rewrite (ceil_div_step n n) by lia.
  rewrite ceil_div_nonpos by lia. simpl.
  now rewrite Z.sub_0_r, Z.min_id.
Qed.

(** The untiled path: one call of the implementation on the whole batch. *)
Lemma searchNonPaged__whole (n k : Z) (x : Buffer Vec) (nt : NumericType)
    (t : data_t) (distances : Buffer DistRow) (labels : Buffer LabelRow)
    (w : World) :
  dispatch_type nt = Some t ->
  1 <= n -> Z.of_nat (length (cells x)) = n ->
  exists w',
    searchNonPaged_ searchOne n x nt k (rows n distances, rows n labels) 0 w =
      (Ok (searched searchOne x nt k (rows n distances, rows n labels) n),
       w') /\
    self w' = self w /\
    searchImpl_events (trace w') =
      searchImpl_events (trace w) ++
      map (searchImpl_of_page x nt k) (tiles n n).
Proof.
  intros Hd Hn Hl.
  destruct (searchNonPaged__run searchOne n k 0 x nt t
              (rows n distances, rows n labels) w Hd)
    as (w' & E & S & T).
  change (rows n x) with (chunk (cells x) (0, n)) in E, T.
  pose proof (searched_step searchOne x nt k
                (rows n distances, rows n labels) 0 n) as Hstep.
  cbv zeta in Hstep. rewrite searched_0 in Hstep.
  cbv zeta in E. rewrite Hstep in E by lia.
  exists w'. rewrite tiles_whole by lia. auto.
Qed.

(** The search of a non-empty batch in a supported encoding on a trained
    index, on every path. *)
Lemma search_run (n k : Z) (x : Buffer Vec) (nt : NumericType) (t : data_t)
    (distances : Buffer DistRow) (labels : Buffer LabelRow) (w : World) :
  let g := self w in
  is_trained (base g) = true ->
  0 < to_int k <= getMaxKSelection (should_use_cuvs deviceMajor (config_ g)) ->
  dispatch_type nt = Some t ->
  1 <= n <= idx_max - 2 ^ 29 ->
  Z.of_nat (length (cells x)) = n ->
  (getDeviceForAddress x = -1 ->
   exists s, get_numeric_type_size nt = Ok s) ->
  exists w',
    search_ n x nt k distances labels w =
      (Ok (mkBuffer (residence distances)
             (store_rows (map fst (map (searchOne nt (to_int k)) (cells x)))
                (cells distances)),
           mkBuffer (residence labels)
             (store_rows (map snd (map (searchOne nt (to_int k)) (cells x)))
                (cells labels))), w') /\
    self w' = self w /\
    searchImpl_events (trace w') =
      searchImpl_events (trace w) ++
      map (searchImpl_of_page x nt (to_int k)) (tiles n (page_of g n x nt)).
Proof.
  intros g Htr Hk Hd Hn Hl Hsz.
  unfold search. unfold g in Htr. pass_trained Htr. fold g.
  rewrite (bind_ok _ _ _ _ _
             (validateKSelect_ok getMaxKSelection _ _ w Hk)).
  assert (Hk0 : (k =? 0) = false).
  { apply Z.eqb_neq. intros ->. unfold to_int in Hk. simpl in Hk. lia. }
  destruct (Z.eqb_spec n 0); [lia|]. rewrite Hk0. cbn [orb].
  destruct (toDeviceTemporary_run (device (config_ g)) n distances w)
    as (oD & w1 & E1 & R1 & S1 & T1).
  rewrite (bind_ok _ _ _ _ _ E1).
  destruct (toDeviceTemporary_run (device (config_ g)) n labels w1)
    as (oL & w2 & E2 & R2 & S2 & T2).
  rewrite (bind_ok _ _ _ _ _ E2).
  rewrite R1, R2.
  set (out := (rows n distances, rows n labels)).
  set (out' := searched searchOne x nt (to_int k) out n).
  assert (Hself2 : self w2 = self w) by congruence.
  (* the choice of the path and the path *)
  match goal with
  | |- context [bind ?B1 (fun r => bind (@?B2 r) _) w2] =>
      assert (Hpath : exists wb,
                bind B1 B2 w2 = (Ok out', wb) /\
                self wb = self w /\
                searchImpl_events (trace wb) =
                  searchImpl_events (trace w2) ++
                  map (searchImpl_of_page x nt (to_int k))
                    (tiles n (page_of g n x nt)))
  end.
  { unfold search_page_of.
    destruct (Z.eqb_spec (getDeviceForAddress x) (-1)) as [Hhost|Hdev].
    - destruct (Hsz Hhost) as (s & Hs). rewrite Hs.
      rewrite bind_assoc. unfold bind at 1, lift at 1. cbv beta iota.
      fold (search_dataSize_of n (d (base g)) s).
      destruct (to_size_t (minPagedSize_ g) <=?
                search_dataSize_of n (d (base g)) s).
      + rewrite bind_assoc.
        assert (Hpaged : exists wb,
          searchFromCpuPaged_ get_numeric_type_size searchOne n x nt
            (to_int k) out w2 = (Ok out', wb) /\
          self wb = self w /\
          searchImpl_events (trace wb) =
            searchImpl_events (trace w2) ++
            map (searchImpl_of_page x nt (to_int k))
              (tiles n
                 (if negb (fst (getPinnedMemory (resources_ g))) ||
                     (pageSizeInVecs_of (snd (getPinnedMemory (resources_ g)))
                        s (d (base g)) <? 1)
                  then batchSize_of s (d (base g))
                  else pageSizeInVecs_of
                         (snd (getPinnedMemory (resources_ g))) s
                         (d (base g))))).
        { destruct (fst (getPinnedMemory (resources_ g))) eqn:Hav;
            [destruct (Z.ltb_spec
                         (pageSizeInVecs_of
                            (snd (getPinnedMemory (resources_ g))) s
                            (d (base g))) 1) as [Hlt|Hge]|]; cbn [negb orb].
          - destruct (searchFromCpuPaged_unbuffered_run get_numeric_type_size
                        searchOne n (to_int k) s x nt t out w2)
              as (wb & Eb & Sb & Tb); try assumption;
              [right; rewrite Hself2; exact Hlt | lia |].
            exists wb. rewrite Hself2 in Tb. fold g in Tb.
            split; [exact Eb|]. split; [congruence|exact Tb].
          - destruct (searchFromCpuPaged_overlapped_run get_numeric_type_size
                        searchOne n (to_int k) s x nt t out w2)
              as (wb & Eb & Sb & Tb); try assumption;
              try (rewrite Hself2; assumption);
              [unfold idx_max in *; lia |].
            exists wb. rewrite Hself2 in Tb. fold g in Tb.
            split; [exact Eb|]. split; [congruence|exact Tb].
          - destruct (searchFromCpuPaged_unbuffered_run get_numeric_type_size
                        searchOne n (to_int k) s x nt t out w2)
              as (wb & Eb & Sb & Tb); try assumption;
              [left; rewrite Hself2; exact Hav | lia |].
            exists wb. rewrite Hself2 in Tb. fold g in Tb.
            split; [exact Eb|]. split; [congruence|exact Tb]. }
        destruct Hpaged as (wb & Eb & Sb & Tb).
        rewrite (bind_ok _ _ _ _ _ Eb).
        unfold bind at 1, ret at 1. cbv beta iota. cbn [fst snd negb].
        exists wb. auto.
      + unfold bind at 1, ret at 1. cbv beta iota. cbn [fst snd negb].
        destruct (searchNonPaged__whole n (to_int k) x nt t distances labels
                    w2 Hd) as (wb & Eb & Sb & Tb); [lia|assumption|].
        exists wb. split; [exact Eb|]. split; [congruence|exact Tb].
    - unfold bind at 1, ret at 1. cbv beta iota. cbn [fst snd negb].
      destruct (searchNonPaged__whole n (to_int k) x nt t distances labels
                  w2 Hd) as (wb & Eb & Sb & Tb); [lia|assumption|].
      exists wb. split; [exact Eb|]. split; [congruence|exact Tb]. }
  destruct Hpath as (wb & Eb & Sb & Tb).
  rewrite <- bind_assoc. rewrite (bind_ok _ _ _ _ _ Eb).
  destruct (fromDevice_run (device (config_ g)) n (fst out') distances wb)
    as (w3 & E3 & T3).
  rewrite (bind_ok _ _ _ _ _ E3).
  destruct (fromDevice_run (device (config_ g)) n (snd out') labels w3)
    as (w4 & E4 & T4).
  rewrite (bind_ok _ _ _ _ _ E4).
  exists w4. unfold ret.
  unfold out', out. rewrite (searched_all searchOne n) by assumption.
  cbn [fst snd]. split; [reflexivity|].
  split; [|congruence].
  pose proof (fromDevice_self (device (config_ g)) n (fst out') distances wb)
    as O3.
  pose proof (fromDevice_self (device (config_ g)) n (snd out') labels w3)
    as O4.
  rewrite E3 in O3. rewrite E4 in O4. simpl in O3, O4.
  rewrite O4, O3. exact Sb.
Qed.

Lemma search_invalid_k (n k : Z) (x : Buffer Vec) (nt : NumericType)
    (distances : Buffer DistRow) (labels : Buffer LabelRow) (w : World) :
  is_trained (base (self w)) = true ->
  (to_int k <= 0 \/
   getMaxKSelection (should_use_cuvs deviceMajor (config_ (self w)))
     < to_int k) ->
  validateKSelect getMaxKSelection (to_int k)
    (should_use_cuvs deviceMajor (config_ (self w))) w = (Throw InvalidK, w) /\
  search_ n x nt k distances labels w = (Throw InvalidK, w).
Proof.
  intros Htr Hk.
  assert (Hv : validateKSelect getMaxKSelection (to_int k)
                 (should_use_cuvs deviceMajor (config_ (self w))) w =
               (Throw InvalidK, w)).
  { unfold validateKSelect.
    destruct (Z.ltb_spec 0 (to_int k)); [|reflexivity].
    destruct (Z.leb_spec (to_int k)
                (getMaxKSelection
                   (should_use_cuvs deviceMajor (config_ (self w)))));
      [lia|reflexivity]. }
  split; [exact Hv|].
  unfold search. pass_trained Htr.
  now rewrite (bind_throw _ _ _ _ _ Hv).
Qed.

Lemma search_empty (k : Z) (x : Buffer Vec) (nt : NumericType)
    (distances : Buffer DistRow) (labels : Buffer LabelRow) (w : World) :
  is_trained (base (self w)) = true ->
  0 < to_int k <=
    getMaxKSelection (should_use_cuvs deviceMajor (config_ (self w))) ->
  search_ 0 x nt k distances labels w = (Ok (distances, labels), w).
Proof.
  intros Htr Hk. unfold search. pass_trained Htr.
  now rewrite (bind_ok _ _ _ _ _
                 (validateKSelect_ok getMaxKSelection _ _ w Hk)).
Qed.

Lemma search_page_of_pos (g : GpuIndex) (n : Z) (x : Buffer Vec)
    (nt : NumericType) :
  1 <= n -> 1 <= page_of g n x nt.
Proof.
  intros Hn. unfold search_page_of.
  destruct (getDeviceForAddress x =? -1); [|exact Hn].
  destruct (get_numeric_type_size nt) as [s|e]; [|exact Hn].
  destruct (to_size_t (minPagedSize_ g) <=?
            search_dataSize_of n (d (base g)) s); [|exact Hn].
  cbv zeta.
  destruct (fst (getPinnedMemory (resources_ g))); cbn [negb orb].
  - destruct (Z.ltb_spec (pageSizeInVecs_of
                            (snd (getPinnedMemory (resources_ g))) s
                            (d (base g))) 1); [|assumption].
    pose proof (batchSize_of_bounds s (d (base g))) as [Hb _]. lia.
  - pose proof (batchSize_of_bounds s (d (base g))) as [Hb _]. lia.
Qed.

Lemma searchImpl_pages_vecs (n p k : Z) (x : Buffer Vec) (nt : NumericType) :
  0 < p -> Z.of_nat (length (cells x)) = n ->
  concat (map impl_vecs (map (searchImpl_of_page x nt k) (tiles n p))) =
    cells x.
Proof.
  intros Hp Hl. rewrite map_map.
  rewrite (map_ext _ (chunk (cells x))) by (intros [c m]; reflexivity).
  now apply tiles_chunks.
Qed.

(** X1.  A search of [n >= 1] queries of dimension [0 < d <= INT_MAX] in a
    supported encoding on a trained index, with a [k] that fits in [int] and
    is valid, and for host queries an element size [0 < s <= 2^32], succeeds
    on every path (device-resident or host queries, below or above the
    paging threshold, with or without staging memory): row [i] of the
    distances and of the labels is the answer of the implementation for
    query [i], rows of the caller's buffers after row [n] keep their
    content, the index is left as it was, and the calls of the
    implementation receive the queries in order, each query once. *)
Theorem search_result (n k : Z) (x : Buffer Vec) (nt : NumericType)
    (t : data_t) (distances : Buffer DistRow) (labels : Buffer LabelRow)
    (w : World) :
  let g := self w in
  is_trained (base g) = true ->
  k = to_int k ->
  0 < to_int k <= getMaxKSelection (should_use_cuvs deviceMajor (config_ g)) ->
  dispatch_type nt = Some t ->
  1 <= n <= idx_max - 2 ^ 29 ->
  0 < d (base g) <= int_max ->
  Z.of_nat (length (cells x)) = n ->
  (getDeviceForAddress x = -1 ->
   exists s, get_numeric_type_size nt = Ok s /\ 0 < s <= 2 ^ 32) ->
  exists r w' calls,
    search_ n x nt k distances labels w = (Ok r, w') /\
    cells (fst r) =
      map fst (map (searchOne nt (to_int k)) (cells x)) ++
      skipn (Z.to_nat n) (cells distances) /\
    cells (snd r) =
      map snd (map (searchOne nt (to_int k)) (cells x)) ++
      skipn (Z.to_nat n) (cells labels) /\
    residence (fst r) = residence distances /\
    residence (snd r) = residence labels /\
    self w' = self w /\
    searchImpl_events (trace w') = searchImpl_events (trace w) ++ calls /\
    concat (map queries_of calls) = map Z.of_nat (seq 0 (Z.to_nat n)) /\
    concat (map impl_vecs calls) = cells x.
Proof.
  intros g Htr _ Hk Hd Hn _ Hl Hsz0.
  assert (Hsz : getDeviceForAddress x = -1 ->
                exists s, get_numeric_type_size nt = Ok s).
  { intros Hx. destruct (Hsz0 Hx) as (s & Hs & _). now exists s. }
  destruct (search_run n k x nt t distances labels w Htr Hk Hd Hn Hl Hsz)
    as (w' & E & S & T).
  pose proof (search_page_of_pos g n x nt (proj1 Hn)) as Hp.
  unfold g in *. eexists. exists w'. eexists.
  split; [exact E|]. cbn [fst snd cells residence]. unfold store_rows.
  rewrite !length_map.
  replace (length (cells x)) with (Z.to_nat n) by lia.
  repeat (split; [reflexivity|]). split; [exact S|]. split; [exact T|].
  split.
  - apply searchImpl_pages_cover; lia.
  - apply searchImpl_pages_vecs; [lia|assumption].
Qed.



(** X4.  For [n >= 1] queries of dimension [0 < d <= INT_MAX], a [k] that
    fits in [int] and is valid and, for host queries, an element size
    [0 < s <= 2^32], [assign] returns the labels [search] returns for 32-bit
    float queries, whatever distance buffer the search is given: row [i] is
    the label row of the implementation for query [i]. *)
Theorem assign_labels (n k : Z) (x : Buffer Vec)
    (distances : Buffer DistRow) (labels : Buffer LabelRow) (w : World) :
  let g := self w in
  is_trained (base g) = true ->
  k = to_int k ->
  0 < to_int k <= getMaxKSelection (should_use_cuvs deviceMajor (config_ g)) ->
  1 <= n <= idx_max - 2 ^ 29 ->
  0 < d (base g) <= int_max ->
  Z.of_nat (length (cells x)) = n ->
  (getDeviceForAddress x = -1 ->
   exists s, get_numeric_type_size Float32 = Ok s /\ 0 < s <= 2 ^ 32) ->
  exists r w1 w2,
    search_ n x Float32 k distances labels w = (Ok r, w1) /\
    assign deviceMajor get_numeric_type_size getMaxKSelection searchOne
      n x labels k w = (Ok (snd r), w2) /\
    cells (snd r) =
      store_rows (map snd (map (searchOne Float32 (to_int k)) (cells x)))
        (cells labels).
Proof.
  intros g Htr _ Hk Hn _ Hl Hsz0.
  assert (Hsz : getDeviceForAddress x = -1 ->
                exists s, get_numeric_type_size Float32 = Ok s).
  { intros Hx. destruct (Hsz0 Hx) as (s & Hs & _). now exists s. }
  destruct (search_run n k x Float32 float distances labels w Htr Hk eq_refl
              Hn Hl Hsz) as (w1 & E1 & _).
  destruct (search_run n k x Float32 float
              (mkBuffer (device (config_ g))
                 (repeat ([] : DistRow) (Z.to_nat n)))
              labels w Htr Hk eq_refl Hn Hl Hsz) as (w2 & E2 & _).
  eexists. exists w1, w2. split; [exact E1|].
  split; [|reflexivity].
  unfold assign. unfold g in Htr. pass_trained Htr. fold g.
  rewrite (bind_ok _ _ _ _ _
             (validateKSelect_ok getMaxKSelection _ _ w Hk)).
  rewrite (bind_ok _ _ _ _ _ E2). reflexivity.
Qed.

(** X5.  On a trained index, a [k] that is zero, negative or above the
    maximum of the selection backend, once narrowed to [int], makes [search]
    and [assign] fail with [InvalidK] for every batch, empty ones included,
    before anything is copied or computed. *)
Theorem invalid_k_rejected (n k : Z) (x : Buffer Vec) (nt : NumericType)
    (distances : Buffer DistRow) (labels : Buffer LabelRow) (w : World) :
  let g := self w in
  is_trained (base g) = true ->
  (to_int k <= 0 \/
   getMaxKSelection (should_use_cuvs deviceMajor (config_ g)) < to_int k) ->
  search_ n x nt k distances labels w = (Throw InvalidK, w) /\
  assign deviceMajor get_numeric_type_size getMaxKSelection searchOne
    n x labels k w = (Throw InvalidK, w).
Proof.
  intros g Htr Hk.
  destruct (search_invalid_k n k x nt distances labels w Htr Hk)
    as [Hv Hs].
  split; [exact Hs|].
  unfold assign. unfold g in Htr. pass_trained Htr.
  now rewrite (bind_throw _ _ _ _ _ Hv).
Qed.

(** X6.  Device-resident queries in an encoding that no dispatch site
    supports: a search of a non-empty batch, [n >= 1], with a [k] that fits
    in [int] and is valid fails with [UnsupportedEncoding], the
    implementation is not called and the index is left as it was. *)
Theorem search_unsupported_untiled (n k : Z) (x : Buffer Vec)
    (nt : NumericType) (distances : Buffer DistRow)
    (labels : Buffer LabelRow) (w : World) :
  let g := self w in
  is_trained (base g) = true ->
  k = to_int k ->
  0 < to_int k <= getMaxKSelection (should_use_cuvs deviceMajor (config_ g)) ->
  dispatch_type nt = None ->
  1 <= n ->
  getDeviceForAddress x <> -1 ->
  exists w',
    search_ n x nt k distances labels w = (Throw UnsupportedEncoding, w') /\
    self w' = self w /\
    searchImpl_events (trace w') = searchImpl_events (trace w).
Proof.
  intros g Htr _ Hk Hd Hn1 Hdev.
  assert (Hn : n <> 0) by lia.
  unfold search. unfold g in Htr. pass_trained Htr. fold g.
  rewrite (bind_ok _ _ _ _ _
             (validateKSelect_ok getMaxKSelection _ _ w Hk)).
  assert (Hk0 : (k =? 0) = false).
  { apply Z.eqb_neq. intros ->. unfold to_int in Hk. simpl in Hk. lia. }
  destruct (Z.eqb_spec n 0); [contradiction|]. rewrite Hk0. cbn [orb].
  destruct (toDeviceTemporary_run (device (config_ g)) n distances w)
    as (oD & w1 & E1 & R1 & S1 & T1).
  rewrite (bind_ok _ _ _ _ _ E1).
  destruct (toDeviceTemporary_run (device (config_ g)) n labels w1)
    as (oL & w2 & E2 & R2 & S2 & T2).
  rewrite (bind_ok _ _ _ _ _ E2).
  destruct (Z.eqb_spec (getDeviceForAddress x) (-1)); [contradiction|].
  unfold bind at 1, ret at 1. cbv beta iota. cbn [fst snd negb].
  rewrite (bind_throw _ _ _ _ _
             (searchNonPaged__unsupported searchOne n (to_int k) 0 x nt _
                w2 Hd)).
  exists w2. split; [reflexivity|]. unfold g. split; congruence.
Qed.

End SearchResult.

(** ** More on inserts *)

Section InsertMore.

Variable deviceMajor : Z -> Z.
Variable addImplRequiresIDs_ : bool.

(** A non-empty insert on a trained index reaches [addPaged_] with the
    identifiers of the caller or with generated ones. *)
Lemma add_with_ids_paged (n : Z) (x : Buffer Vec) (nt : NumericType)
    (ids : option (Buffer Z)) (w : World) :
  is_trained (base (self w)) = true -> 1 <= n ->
  exists ids',
    add_with_ids deviceMajor addImplRequiresIDs_ n x nt ids w =
      addPaged_ deviceMajor n x nt ids' w /\
    (ids = None -> addImplRequiresIDs_ = false -> ids' = None).
Proof.
  intros Htr Hn. unfold add_with_ids. pass_trained Htr.
  destruct (Z.eqb_spec n 0); [lia|].
  destruct (Z.ltb_spec n 0); [lia|].
  destruct ids as [p|]; [|destruct addImplRequiresIDs_];
    unfold bind, ret; cbv beta iota; eexists; (split; [reflexivity|]);
    intros; (discriminate || reflexivity).
Qed.

(** X7.  An insert of a non-empty batch in an encoding that no dispatch site
    supports fails with [UnsupportedEncoding] and leaves the state as it
    was: no vector is copied, the implementation is not called, the count
    does not move.  [addPage_] rejects such a page of any size, while
    [addPaged_] returns at once on a batch of no vectors, whatever the
    encoding. *)
Theorem insert_unsupported_encoding (n : Z) (x : Buffer Vec)
    (nt : NumericType) (ids : option (Buffer Z)) (w : World) :
  is_trained (base (self w)) = true ->
  dispatch_type nt = None ->
  (1 <= n ->
   add_with_ids deviceMajor addImplRequiresIDs_ n x nt ids w =
     (Throw UnsupportedEncoding, w)) /\
  addPage_ n x nt ids w = (Throw UnsupportedEncoding, w) /\
  (n <= 0 -> addPaged_ deviceMajor n x nt ids w = (Ok tt, w)).
Proof.
  intros Htr Hd. split; [|split].
  - intros Hn.
    destruct (add_with_ids_paged n x nt ids w Htr Hn) as (ids' & E & _).
    rewrite E. unfold addPaged_. rewrite Hd.
    destruct (Z.leb_spec n 0); [lia|reflexivity].
  - unfold addPage_. now rewrite Hd.
  - intros Hn. unfold addPaged_.
    destruct (Z.leb_spec n 0); [reflexivity|lia].
Qed.

Lemma addImpl_of_tile_vecs (x : Buffer Vec) (nt : NumericType)
    (ids : option (Buffer Z)) (l : list (Z * Z)) :
  map impl_vecs (map (addImpl_of_tile x nt ids) l) = map (chunk (cells x)) l.
Proof.
  rewrite map_map. apply map_ext. intros [c m]. reflexivity.
Qed.

(** X8.  An insert of [n >= 1] vectors of dimension [0 < d <= INT_MAX] in a
    supported encoding on a trained index succeeds and hands the
    implementation the vectors of the batch, all of them, in order and each
    once, whether the batch is tiled or not; when the caller passes no
    identifiers and the implementation does not require any, every call of
    the implementation is made without identifiers. *)
Theorem add_with_ids_vectors (n : Z) (x : Buffer Vec) (nt : NumericType)
    (t : data_t) (ids : option (Buffer Z)) (w : World) :
  is_trained (base (self w)) = true ->
  dispatch_type nt = Some t ->
  1 <= n <= idx_max - kSearchVecSize ->
  0 < d (base (self w)) <= int_max ->
  Z.of_nat (length (cells x)) = n ->
  exists (w' : World) (calls : list Event),
    add_with_ids deviceMajor addImplRequiresIDs_ n x nt ids w = (Ok tt, w') /\
    addImpl_events (trace w') = addImpl_events (trace w) ++ calls /\
    concat (map impl_vecs calls) = cells x /\
    calls <> [] /\
    (ids = None -> addImplRequiresIDs_ = false ->
     Forall (fun e => impl_ids e = None) calls).
Proof.
  intros Htr Hd Hn _ Hl.
  destruct (add_with_ids_paged n x nt ids w Htr (proj1 Hn))
    as (ids' & E & Hnone).
  destruct (addPaged__run deviceMajor n x nt t ids' w Hd Hn)
    as (w' & E' & _ & T).
  exists w', (map (addImpl_of_tile x nt ids')
                (addPaged_plan deviceMajor (self w) n t)).
  split; [congruence|]. split; [exact T|]. split; [|split].
  - rewrite addImpl_of_tile_vecs. apply addPaged_plan_chunks; lia.
  - intros Hnil. apply (f_equal (@length Event)) in Hnil.
    rewrite length_map in Hnil. unfold addPaged_plan in Hnil.
    destruct (addPaged_tiled deviceMajor (self w) n t);
      [|discriminate].
    pose proof (addPaged_tileSize_bounds n (d (base (self w))) t (proj1 Hn)).
    pose proof (tiles_count n (addPaged_tileSize n (d (base (self w))) t)
                  ltac:(lia) (proj1 Hn)) as Hc.
    rewrite Hnil in Hc. unfold ceil_div in Hc.
    assert (1 <= (n + addPaged_tileSize n (d (base (self w))) t - 1) /
                 addPaged_tileSize n (d (base (self w))) t)
      by (apply Z.div_le_lower_bound; lia).
    simpl in Hc. lia.
  - intros H1 H2. rewrite (Hnone H1 H2).
    apply Forall_forall. intros e He. apply in_map_iff in He.
    destruct He as (tl & <- & _). reflexivity.
Qed.

Lemma tiles_from_bounds (n tileSize : Z) :
  0 < tileSize ->
  forall (count : nat) (i : Z),
    count = Z.to_nat (ceil_div (n - i) tileSize) ->
    Forall (fun tl => 1 <= snd tl <= tileSize) (tiles_from count n tileSize i).
Proof.
  intros Ht. induction count as [|c IH]; intros i Hc; simpl; constructor.
  - destruct (Z.lt_ge_cases 0 (n - i)) as [Hpos|Hnp].
    + simpl. lia.
    + rewrite ceil_div_nonpos in Hc by lia. discriminate.
  - apply IH.
    destruct (Z.lt_ge_cases 0 (n - i)) as [Hpos|Hnp].
    + rewrite (ceil_div_step (n - i) tileSize) in Hc by lia.
      injection Hc as Hc. rewrite Hc. do 2 f_equal. lia.
    + rewrite ceil_div_nonpos in Hc by lia. discriminate.
Qed.

(** X9.  On a device where the alternative backend is not eligible, no call
    of the implementation made by an insert receives more than 512*1024
    vectors, and none receives more than 256 MiB of vector data unless it
    is a single vector: an oversized vector travels alone and is never
    split. *)
Theorem insert_page_bounds (n : Z) (x : Buffer Vec) (nt : NumericType)
    (t : data_t) (ids : option (Buffer Z)) (w : World) :
  let dim := d (base (self w)) in
  let cfg := config_ (self w) in
  dispatch_type nt = Some t ->
  1 <= n <= idx_max - kSearchVecSize ->
  0 < dim <= int_max ->
  deviceMajor (device cfg) < 7 \/ use_cuvs cfg = false ->
  exists (w' : World) (calls : list Event),
    addPaged_ deviceMajor n x nt ids w = (Ok tt, w') /\
    addImpl_events (trace w') = addImpl_events (trace w) ++ calls /\
    Forall (fun e =>
              1 <= impl_size e <= kAddVecSize /\
              (impl_size e * dim * sizeof t <= kAddPageSize \/
               impl_size e = 1)) calls.
Proof.
  intros dim cfg Hd Hn Hdim Hne.
  destruct (addPaged__run deviceMajor n x nt t ids w Hd Hn)
    as (w' & E & _ & T).
  exists w', (map (addImpl_of_tile x nt ids)
                (addPaged_plan deviceMajor (self w) n t)).
  split; [exact E|]. split; [exact T|].
  apply Forall_forall. intros e He. apply in_map_iff in He.
  destruct He as ([c m] & <- & Hin). cbn [impl_size addImpl_of_tile snd].
  pose proof (sizeof_bounds t) as Hs.
  unfold addPaged_plan, addPaged_tiled in Hin. fold dim cfg in Hin.
  rewrite (should_use_cuvs_false deviceMajor cfg Hne) in Hin.
  cbn [negb andb] in Hin.
  destruct ((kAddPageSize <? addPaged_totalSize n dim t) ||
            (kAddVecSize <? n)) eqn:Htest.
  - (* tiled *)
    rewrite (addPaged_tileSize_eq n dim t Hdim) in Hin.
    set (q := kAddPageSize / (dim * sizeof t)) in *.
    set (ts := Z.min (Z.min n (Z.max 1 q)) kSearchVecSize) in *.
    assert (Hts : 1 <= ts <= kSearchVecSize)
      by (unfold ts, kSearchVecSize; lia).
    pose proof (tiles_from_bounds n ts ltac:(lia) _ 0
                  ltac:(now rewrite Z.sub_0_r)) as Hall.
    rewrite Forall_forall in Hall. specialize (Hall _ Hin). simpl in Hall.
    unfold kSearchVecSize, kAddVecSize in *. split; [lia|].
    assert (Hq : q * (dim * sizeof t) <= kAddPageSize).
    { unfold q. rewrite Z.mul_comm. apply Z.mul_div_le. nia. }
    destruct (Z.le_gt_cases 1 q) as [Hq1|Hq0].
    + left. assert (m <= q) by (unfold ts in Hall; lia).
      assert (m * (dim * sizeof t) <= q * (dim * sizeof t)) by nia.
      lia.
    + right. unfold ts in Hall. lia.
  - (* one page *)
    destruct Hin as [Heq|[]]. injection Heq as <- <-.
    assert (Hno : ~ (kAddPageSize < n * dim * sizeof t \/ kAddVecSize < n)).
    { intros H.
      apply (addPaged_totalSize_test deviceMajor n dim t (proj1 Hn) Hdim)
        in H.
      congruence. }
    split; [lia|]. left. lia.
Qed.

End InsertMore.

(** ** Sizes of the pages of a paged search *)

(** X10.  The two staging buffers of the pipeline fit in the pinned region:
    twice [pageSizeInVecs] vectors of [dim] elements of [s] bytes are at most
    the capacity [C], so the second buffer, which starts [pageSizeInVecs]
    vectors after the first, ends inside the region. *)
Theorem pinned_buffers_fit (C s dim : Z) :
  0 <= C < 2 ^ 64 ->
  0 < dim <= int_max ->
  0 < s <= 2 ^ 32 ->
  0 <= pageSizeInVecs_of C s dim /\
  2 * (pageSizeInVecs_of C s dim * dim * s) <= C.
Proof.
  intros HC Hd Hs.
  destruct (size_product s dim Hd Hs) as [Hprod Hpos].
  unfold pageSizeInVecs_of. rewrite Hprod, (to_size_t_small C) by lia.
  assert (H2 : 0 <= C / 2) by (apply Z.div_pos; lia).
  assert (Hp : 0 <= C / 2 / (s * dim)) by (apply Z.div_pos; lia).
  assert (Hle : (s * dim) * (C / 2 / (s * dim)) <= C / 2)
    by (apply Z.mul_div_le; lia).
  assert (Hh : 2 * (C / 2) <= C) by (apply Z.mul_div_le; lia).
  assert (Hu : C / 2 / (s * dim) <= C / 2).
  { apply Z.div_le_upper_bound; [lia|]. nia. }
  rewrite to_idx_t_small by lia.
  split; [exact Hp|]. nia.
Qed.

(** X11.  A full page of the unbuffered paging holds more than the fallback
    threshold of 256 MiB of query data, and at most twice that threshold
    when one vector fits in it; when a single vector exceeds the threshold
    the page is two vectors. *)
Theorem unbuffered_page_bytes (s dim : Z) :
  0 < dim <= int_max ->
  0 < s <= 2 ^ 32 ->
  kNonPinnedPageSize < batchSize_of s dim * (s * dim) /\
  (s * dim <= kNonPinnedPageSize ->
   batchSize_of s dim * (s * dim) <= 2 * kNonPinnedPageSize) /\
  (kNonPinnedPageSize < s * dim -> batchSize_of s dim = 2).
Proof.
  intros Hd Hs.
  destruct (size_product s dim Hd Hs) as [Hprod Hpos].
  pose proof (batchSize_of_bounds s dim) as [Hb Hbe].
  pose proof (fallback_quotient_bounds s dim) as Hq.
  unfold kNonPinnedPageSize in *.
  rewrite Hprod, (to_size_t_small (256 * 1024 * 1024)) in Hbe, Hq by lia.
  set (q := 256 * 1024 * 1024 / (s * dim)) in *.
  destruct (nextHighestPowerOf2_spec q ltac:(lia)) as [Hgt Heq].
  rewrite <- Heq in Hbe.
  assert (Hdm : 256 * 1024 * 1024 = (s * dim) * q +
                                   (256 * 1024 * 1024) mod (s * dim))
    by (apply Z.div_mod; lia).
  assert (Hmod : 0 <= (256 * 1024 * 1024) mod (s * dim) < s * dim)
    by (apply Z.mod_pos_bound; lia).
  rewrite Hbe. split; [nia|]. split.
  - intros Hfit.
    assert (Hq1 : 1 <= q) by (apply Z.div_le_lower_bound; lia).
    destruct (Z.log2_spec q ltac:(lia)) as [Hlo _].
    rewrite Heq, Z.pow_add_r by (try apply Z.log2_nonneg; lia).
    change (2 ^ 1) with 2. nia.
  - intros Hbig.
    assert (Hq0 : q = 0) by (apply Z.div_small; lia).
    rewrite Heq, Hq0. reflexivity.
Qed.

(** ** The schedule of the pipeline *)

Section PipelineMore.

Variable searchOne : NumericType -> Z -> Vec -> DistRow * LabelRow.

(** The transfer stage is the only one that moves the index of the buffer to
    transfer next, and it flips it. *)
Lemma pipeline_body_cur2BufIndex (n p k : Z) (x : Buffer Vec)
    (nt : NumericType) (st st' : Pipeline) (w w' : World) :
  pipeline_body searchOne n p x nt k st w = (Ok st', w') ->
  cur2BufIndex st' =
    if negb (cur2 st =? -1) && (cur2 st <? n)
    then toggle (cur2BufIndex st)
    else cur2BufIndex st.
Proof.
  unfold pipeline_body, stage_transfer, stage_compute, stage_copy_in,
    searchImpl_, bind, this, emit, ret, throw.
  destruct (negb (cur2 st =? -1) && (cur2 st <? n)); cbn -[Z.min];
    repeat match goal with
           | |- context [if ?c then _ else _] => destruct c; cbn -[Z.min]
           end;
    intros H; inversion H; subst; reflexivity.
Qed.

Lemma pipeline_schedule_rest (n p k : Z) (x : Buffer Vec) (nt : NumericType)
    (c b : Z) :
  0 < p -> c < n ->
  pipeline_schedule (Z.to_nat (ceil_div (n - (c + Z.min p (n - c))) p))
    n p x nt k (c + Z.min p (n - c)) b =
  pipeline_schedule (Z.to_nat (ceil_div (n - c - p) p)) n p x nt k (c + p) b.
Proof.
  intros Hp Hc. destruct (Z.le_gt_cases (n - c) p).
  - rewrite Z.min_r by lia. now rewrite !ceil_div_nonpos by lia.
  - rewrite Z.min_l by lia. now replace (n - (c + p)) with (n - c - p) by lia.
Qed.

Lemma pipeline_loop_schedule (n p k : Z) (x : Buffer Vec) (nt : NumericType)
    (out0 : Out) :
  1 <= p -> 1 <= n <= idx_max -> Z.of_nat (length (cells x)) = n ->
  forall (fuel : nat) (c : Z) (st : Pipeline) (w : World),
    pipe_inv searchOne n p x nt k out0 c st ->
    (Z.to_nat (n - c) <= fuel)%nat ->
    exists st' w',
      pipeline_loop searchOne fuel n p x nt k st w = (Ok st', w') /\
      trace w' =
        trace w ++
        pipeline_schedule (Z.to_nat (ceil_div (n - c) p)) n p x nt k c
          (cur2BufIndex st).
Proof.
  intros Hp Hn Hl.
  induction fuel as [|fuel IH]; intros c st w Hinv Hf.
  - destruct (pipeline_loop_run searchOne n p k x nt out0 Hp Hn Hl 0 c st w
                Hinv Hf) as (st' & w' & E & _).
    exists st', w'. split; [exact E|].
    assert (Hc : n <= c) by lia.
    rewrite ceil_div_nonpos by lia. simpl in *.
    destruct (cur3 st <? n); [discriminate|].
    injection E as _ <-. now rewrite app_nil_r.
  - destruct (Z.lt_ge_cases c n) as [Hc|Hc].
    + destruct (pipeline_body_steady searchOne n p k x nt out0 c st w Hp Hn
                  Hl Hinv Hc) as (st1 & E1 & Hinv1).
      pose proof (pipeline_body_cur2BufIndex n p k x nt st st1 _ _ E1) as Hb.
      assert (H2 : cur2 st = c) by (destruct Hinv as (_ & H2 & _); exact H2).
      assert (H0 : 0 <= c) by (destruct Hinv as (H0 & _); lia).
      rewrite H2 in Hb.
      destruct (Z.eqb_spec c (-1)); [lia|].
      destruct (Z.ltb_spec c n); [|lia]. cbn [negb andb] in Hb.
      assert (H3 : cur3 st < n).
      { destruct Hinv as (_ & _ & H3 & _). lia. }
      simpl. destruct (Z.ltb_spec (cur3 st) n); [|lia].
      unfold bind at 1. rewrite E1. cbv beta iota.
      match goal with
      | |- context [pipeline_loop _ _ _ _ _ _ _ st1 ?w1] =>
          destruct (IH (c + Z.min p (n - c)) st1 w1 Hinv1)
            as (st' & w' & E & T); [lia|]
      end.
      exists st', w'. split; [exact E|].
      rewrite T. cbn [trace]. rewrite Hb.
      rewrite (ceil_div_step (n - c) p) by lia.
      rewrite (pipeline_schedule_rest n p k x nt c) by lia.
      cbn [pipeline_schedule]. cbv zeta.
      rewrite <- !app_assoc. reflexivity.
    + destruct (pipeline_loop_run searchOne n p k x nt out0 Hp Hn Hl (S fuel)
                  c st w Hinv Hf) as (st' & w' & E & _).
      exists st', w'. split; [exact E|].
      rewrite ceil_div_nonpos by lia.
      assert (H3 : cur3 st = n).
      { destruct Hinv as (Hc0 & _ & H3 & _). lia. }
      simpl in *. rewrite H3 in E.
      destruct (Z.ltb_spec n n); [lia|].
      injection E as _ <-. now rewrite app_nil_r.
Qed.

(** X12.  What the pipeline issues, in full: the copy-in of the first page
    into pinned buffer 0; then, page after page, the transfer of the page
    from its pinned buffer, the computation on it, and the copy-in of the
    page that follows into the other buffer.  The buffers alternate from
    page to page, and a pinned buffer is refilled only after the transfer
    and the computation of the page it held were issued. *)
Theorem pipeline_issue_order (n p k : Z) (x : Buffer Vec) (nt : NumericType)
    (t : data_t) (out0 : Out) (w : World) :
  dispatch_type nt = Some t ->
  1 <= n <= idx_max -> 1 <= p -> Z.of_nat (length (cells x)) = n ->
  exists st' w',
    searchOverlapped searchOne n x nt k p out0 w = (Ok st', w') /\
    trace w' =
      trace w ++
      EvCopyToPinned 0 0 (Z.min p n) ::
      pipeline_schedule (Z.to_nat (ceil_div n p)) n p x nt k 0 0.
Proof.
  intros Hd Hn Hp Hl. unfold searchOverlapped. rewrite Hd.
  unfold bind at 1, this at 1. cbv beta iota.
  destruct (pipeline_body_first searchOne n p k x nt (resources_ (self w))
              out0 w Hp Hn Hl) as (st1 & E1 & Hinv1).
  pose proof (pipeline_body_cur2BufIndex n p k x nt _ st1 _ _ E1) as Hb.
  cbn in Hb.
  cbn [pipeline_loop]. cbn [pipeline_init cur3].
  destruct (Z.ltb_spec (-1) n); [|lia].
  unfold bind at 1. rewrite E1. cbv beta iota.
  match goal with
  | |- context [pipeline_loop _ _ _ _ _ _ _ st1 ?w1] =>
      destruct (pipeline_loop_schedule n p k x nt out0 Hp Hn Hl (Z.to_nat n)
                  0 st1 w1 Hinv1) as (st' & w' & E & T); [lia|]
  end.
  exists st', w'. split; [exact E|].
  rewrite T, Hb. cbn [trace]. rewrite Z.sub_0_r, <- app_assoc. reflexivity.
Qed.

Lemma tiles_from_inside (n p : Z) :
  0 < p ->
  forall (count : nat) (i : Z),
    0 <= i ->
    count = Z.to_nat (ceil_div (n - i) p) ->
    Forall (fun tl => 0 <= fst tl /\ 1 <= snd tl <= p /\
                      fst tl + snd tl <= n)
      (tiles_from count n p i).
Proof.
  intros Hp. induction count as [|c IH]; intros i Hi Hc; simpl; constructor.
  - destruct (Z.lt_ge_cases 0 (n - i)) as [Hpos|Hnp].
    + simpl. lia.
    + rewrite ceil_div_nonpos in Hc by lia. discriminate.
  - apply IH; [lia|].
    destruct (Z.lt_ge_cases 0 (n - i)) as [Hpos|Hnp].
    + rewrite (ceil_div_step (n - i) p) in Hc by lia.
      injection Hc as Hc. rewrite Hc. do 2 f_equal. lia.
    + rewrite ceil_div_nonpos in Hc by lia. discriminate.
Qed.

(** X13.  No page of the pipeline overruns its buffers: every call of the
    implementation made by the overlapped path receives between 1 and
    [pageSizeInVecs] vectors, as many as it is told, and writes its output
    rows inside the [n] rows of the output tensors. *)
Theorem pipeline_page_bounds (n p k : Z) (x : Buffer Vec)
    (nt : NumericType) (t : data_t) (out0 : Out) (w : World) :
  dispatch_type nt = Some t ->
  1 <= n <= idx_max -> 1 <= p -> Z.of_nat (length (cells x)) = n ->
  exists st' w' calls,
    searchOverlapped searchOne n x nt k p out0 w = (Ok st', w') /\
    searchImpl_events (trace w') = searchImpl_events (trace w) ++ calls /\
    Forall (fun e =>
              1 <= impl_size e <= p /\
              Z.of_nat (length (impl_vecs e)) = impl_size e /\
              match e with
              | EvSearchImpl m _ _ _ cur => 0 <= cur /\ cur + m <= n
              | _ => False
              end) calls.
Proof.
  intros Hd Hn Hp Hl.
  destruct (searchOverlapped_run searchOne n p k x nt t out0 w Hd Hp Hn Hl)
    as (st' & w' & E & _ & _ & _ & _ & _ & T).
  exists st', w', (map (searchImpl_of_page x nt k) (tiles n p)).
  split; [exact E|]. split; [exact T|].
  apply Forall_forall. intros e He. apply in_map_iff in He.
  destruct He as ([c m] & <- & Hin).
  pose proof (tiles_from_inside n p ltac:(lia) _ 0 ltac:(lia)
                ltac:(now rewrite Z.sub_0_r)) as Hall.
  rewrite Forall_forall in Hall. specialize (Hall _ Hin).
  cbn [fst snd] in Hall.
  cbn [searchImpl_of_page impl_size impl_vecs fst snd].
  split; [lia|]. split; [|lia].
  rewrite chunk_length by lia. lia.
Qed.

(** X14.  The pipeline needs a batch: entered with [n = 0], an iteration
    runs none of its three stages and leaves the cursors where they were,
    with [cur3 = -1 < n], so the loop never reaches its exit (here: it
    uses up any number of iterations it is allowed). *)
Theorem pipeline_empty_batch_stalls (p k : Z) (x : Buffer Vec)
    (nt : NumericType) (res : GpuResources) (out0 : Out) (w : World)
    (fuel : nat) :
  pipeline_body searchOne 0 p x nt k (pipeline_init res out0) w =
    (Ok (pipeline_init res out0), w) /\
  pipeline_loop searchOne fuel 0 p x nt k (pipeline_init res out0) w =
    (Throw OutOfFuel, w).
Proof.
  assert (Hbody :
    pipeline_body searchOne 0 p x nt k (pipeline_init res out0) w =
      (Ok (pipeline_init res out0), w)) by reflexivity.
  split; [exact Hbody|].
  induction fuel as [|fuel IH]; [reflexivity|].
  cbn [pipeline_loop]. cbn [pipeline_init cur3]. cbn [Z.ltb Z.compare].
  unfold bind at 1. rewrite Hbody. exact IH.
Qed.

End PipelineMore.

(** ** Search followed by reconstruction *)

Section ReconstructFacts.

Variable deviceMajor : Z -> Z.
Variable get_numeric_type_size : NumericType -> Result Z.
Variable getMaxKSelection : bool -> Z.
Variable searchOne : NumericType -> Z -> Vec -> DistRow * LabelRow.
Variable reconstruct_batch :
  Z -> Buffer LabelRow -> Buffer Vec -> M (Buffer Vec).

Local Notation "'search_and_reconstruct_'" :=
  (search_and_reconstruct deviceMajor get_numeric_type_size getMaxKSelection
     searchOne reconstruct_batch).

(** X15.  [search_and_reconstruct] asks for the reconstruction only after
    the search has succeeded: on an index that is not trained it fails with
    [NotTrained], on a trained one with an unacceptable [k] it fails with
    [InvalidK], in both cases with the state untouched and without
    reconstructing; and on an empty batch, where the search returns without
    searching, the reconstruction is still asked for, for 0 vectors and the
    labels as they were. *)
Theorem search_and_reconstruct_errors (n k : Z) (x : Buffer Vec)
    (distances : Buffer DistRow) (labels : Buffer LabelRow)
    (recons : Buffer Vec) (w : World) :
  let g := self w in
  let valid :=
    0 < to_int k <= getMaxKSelection (should_use_cuvs deviceMajor (config_ g))
  in
  (is_trained (base g) = false ->
   search_and_reconstruct_ n x k distances labels recons w =
     (Throw NotTrained, w)) /\
  (is_trained (base g) = true -> ~ valid ->
   search_and_reconstruct_ n x k distances labels recons w =
     (Throw InvalidK, w)) /\
  (is_trained (base g) = true -> valid ->
   search_and_reconstruct_ 0 x k distances labels recons w =
     (recons' <- reconstruct_batch 0 labels recons ;;
      ret ((distances, labels), recons')) w).
Proof.
  intros g valid. unfold search_and_reconstruct. repeat split.
  - intros Htr. apply bind_throw.
    unfold search, bind, this. fold g. now rewrite Htr.
  - intros Htr Hk. apply bind_throw.
    apply (search_invalid_k deviceMajor get_numeric_type_size
             getMaxKSelection searchOne n k x Float32 distances labels w Htr).
    unfold valid in Hk. fold g. lia.
  - intros Htr Hk.
    rewrite (bind_ok _ _ _ _ _
               (search_empty deviceMajor get_numeric_type_size
                  getMaxKSelection searchOne k x Float32 distances labels w
                  Htr Hk)).
    reflexivity.
Qed.

End ReconstructFacts.

(** ** The further properties at concrete inputs *)

(** Three device-resident queries of dimension 2: the answers of the
    implementation, and the index as it was. *)
Lemma search_result_witness :
  exists r w',
    search ex_deviceMajor ex_numeric_type_size ex_maxK ex_searchOne
      3 ex_device_queries Float32 1 ex_distances ex_labels
      (ex_world 2 true (true, 32) 16 false) = (Ok r, w') /\
    cells (fst r) = [[3]; [7]; [11]] /\
    cells (snd r) = [[2]; [2]; [2]] /\
    self w' = self (ex_world 2 true (true, 32) 16 false).
Proof.
  destruct (search_result ex_deviceMajor ex_numeric_type_size ex_maxK
              ex_searchOne 3 1 ex_device_queries Float32 float ex_distances
              ex_labels (ex_world 2 true (true, 32) 16 false))
    as (r & w' & calls & E & Cd & Cl & _ & _ & S & _);
    [side | side | side | side | side | side | side
    | intros _; exists 4; split; [reflexivity | evalZ] |].
  exists r, w'. rewrite Cd, Cl. repeat split; assumption.
Defined.



(** The labels of three host-resident queries. *)
Lemma assign_labels_witness :
  exists r w',
    assign ex_deviceMajor ex_numeric_type_size ex_maxK ex_searchOne
      3 ex_queries ex_labels 1 (ex_world 2 true (true, 32) 16 false) =
      (Ok r, w') /\
    cells r = [[2]; [2]; [2]].
Proof.
  destruct (assign_labels ex_deviceMajor ex_numeric_type_size ex_maxK
              ex_searchOne 3 1 ex_queries ex_distances ex_labels
              (ex_world 2 true (true, 32) 16 false))
    as (r & w1 & w2 & _ & E & C);
    [side | side | side | side | side | side
    | intros _; exists 4; split; [reflexivity | evalZ] |].
  exists (snd r), w2. split; [exact E|]. rewrite C. reflexivity.
Defined.

(** 20000 neighbours asked of a selection backend that gives at most 2048. *)
Lemma invalid_k_rejected_witness :
  search ex_deviceMajor ex_numeric_type_size ex_maxK ex_searchOne
    3 ex_queries Float32 20000 ex_distances ex_labels
    (ex_world 2 true (true, 32) 16 false) =
    (Throw InvalidK, ex_world 2 true (true, 32) 16 false) /\
  assign ex_deviceMajor ex_numeric_type_size ex_maxK ex_searchOne
    3 ex_queries ex_labels 20000 (ex_world 2 true (true, 32) 16 false) =
    (Throw InvalidK, ex_world 2 true (true, 32) 16 false).
Proof.
  apply (invalid_k_rejected ex_deviceMajor ex_numeric_type_size ex_maxK
           ex_searchOne 3 20000 ex_queries Float32 ex_distances ex_labels
           (ex_world 2 true (true, 32) 16 false));
    [reflexivity | right; evalZ].
Defined.

(** Device-resident queries in an encoding with the tag 7. *)
Lemma search_unsupported_untiled_witness :
  exists w',
    search ex_deviceMajor ex_numeric_type_size ex_maxK ex_searchOne
      3 ex_device_queries (UnknownNumeric 7) 1 ex_distances ex_labels
      (ex_world 2 true (true, 32) 16 false) =
      (Throw UnsupportedEncoding, w') /\
    searchImpl_events (trace w') = [].
Proof.
  destruct (search_unsupported_untiled ex_deviceMajor ex_numeric_type_size
              ex_maxK ex_searchOne 3 1 ex_device_queries (UnknownNumeric 7)
              ex_distances ex_labels (ex_world 2 true (true, 32) 16 false))
    as (w' & E & _ & T);
    [side | side | side | side | lia
    | intros H; vm_compute in H; discriminate H |].
  exists w'. split; [exact E | exact T].
Defined.

(** An insert of three vectors in an encoding with the tag 7. *)
Lemma insert_unsupported_encoding_witness :
  add_with_ids ex_deviceMajor true 3 ex_queries (UnknownNumeric 7) None
    (ex_world 2 true (true, 32) 16 false) =
    (Throw UnsupportedEncoding, ex_world 2 true (true, 32) 16 false).
Proof.
  destruct (insert_unsupported_encoding ex_deviceMajor true 3 ex_queries
              (UnknownNumeric 7) None (ex_world 2 true (true, 32) 16 false))
    as (Ha & _ & _); [side | side |].
  apply Ha. lia.
Defined.

(** Three vectors inserted without identifiers into an index whose
    implementation requires none. *)
Lemma add_with_ids_vectors_witness :
  exists w',
    add_with_ids ex_deviceMajor false 3 ex_queries Float32 None
      (ex_world 2 true (true, 32) 16 false) = (Ok tt, w') /\
    concat (map impl_vecs (addImpl_events (trace w'))) =
      [[1; 2]; [3; 4]; [5; 6]] /\
    Forall (fun e => impl_ids e = None) (addImpl_events (trace w')).
Proof.
  destruct (add_with_ids_vectors ex_deviceMajor false 3 ex_queries Float32
              float None (ex_world 2 true (true, 32) 16 false))
    as (w' & calls & E & T & C & _ & Hids); [side .. |].
  exists w'. split; [exact E|]. rewrite T.
  split; [exact C | exact (Hids eq_refl eq_refl)].
Defined.

(** 1,000,000 vectors of dimension 128 in 32-bit floats: no call of the
    implementation receives more than 512*1024 of them. *)
Lemma insert_page_bounds_witness :
  exists w',
    addPaged_ ex_deviceMajor 1000000 ex_big_batch Float32 None
      (ex_world 128 true (false, 0) kMinPageSize false) = (Ok tt, w') /\
    Forall (fun e => impl_size e <= kAddVecSize) (addImpl_events (trace w')).
Proof.
  destruct (insert_page_bounds ex_deviceMajor 1000000 ex_big_batch Float32
              float None (ex_world 128 true (false, 0) kMinPageSize false))
    as (w' & calls & E & T & B); [side .. |].
  exists w'. split; [exact E|]. rewrite T.
  apply (Forall_impl _ (fun e H => proj2 (proj1 H)) B).
Defined.

(** Staging memory of 32 bytes, dimension 2, 32-bit floats: the two buffers
    take 32 bytes. *)
Lemma pinned_buffers_fit_witness :
  2 * (pageSizeInVecs_of 32 4 2 * 2 * 4) <= 32.
Proof.
  apply (pinned_buffers_fit 32 4 2); evalZ.
Defined.

(** Dimension 2 in 32-bit floats: a full page of the unbuffered paging is
    twice the threshold. *)
Lemma unbuffered_page_bytes_witness :
  kNonPinnedPageSize < batchSize_of 4 2 * (4 * 2) /\
  batchSize_of 4 2 * (4 * 2) <= 2 * kNonPinnedPageSize.
Proof.
  destruct (unbuffered_page_bytes 4 2) as (Hlow & Hhigh & _);
    [evalZ | evalZ |].
  split; [exact Hlow | apply Hhigh; evalZ].
Defined.

(** Three queries through the pipeline with pages of 2 vectors: the six
    steps, buffer 0 then buffer 1. *)
Lemma pipeline_issue_order_witness :
  exists st' w',
    searchOverlapped ex_searchOne 3 ex_queries Float32 1 2
      (cells ex_distances, cells ex_labels)
      (ex_world 2 true (true, 32) 16 false) = (Ok st', w') /\
    trace w' =
      [EvCopyToPinned 0 0 2;
       EvCopyPinnedToGpu 0 2; EvSearchImpl 2 [[1; 2]; [3; 4]] Float32 1 0;
       EvCopyToPinned 1 2 1;
       EvCopyPinnedToGpu 1 1; EvSearchImpl 1 [[5; 6]] Float32 1 2].
Proof.
  destruct (pipeline_issue_order ex_searchOne 3 2 1 ex_queries Float32 float
              (cells ex_distances, cells ex_labels)
              (ex_world 2 true (true, 32) 16 false))
    as (st' & w' & E & T); [side .. |].
  exists st', w'. split; [exact E | exact T].
Defined.

(** The same run: every call stays inside the three output rows. *)
Lemma pipeline_page_bounds_witness :
  exists st' w',
    searchOverlapped ex_searchOne 3 ex_queries Float32 1 2
      (cells ex_distances, cells ex_labels)
      (ex_world 2 true (true, 32) 16 false) = (Ok st', w') /\
    Forall (fun e => 1 <= impl_size e <= 2)
      (searchImpl_events (trace w')).
Proof.
  destruct (pipeline_page_bounds ex_searchOne 3 2 1 ex_queries Float32 float
              (cells ex_distances, cells ex_labels)
              (ex_world 2 true (true, 32) 16 false))
    as (st' & w' & calls & E & T & B); [side .. |].
  exists st', w'. split; [exact E|]. rewrite T.
  apply (Forall_impl _ (fun e H => proj1 H) B).
Defined.

(** [search_and_reconstruct] on an index that was not trained, and with 20000
    neighbours on a trained one. *)
Lemma search_and_reconstruct_errors_witness :
  search_and_reconstruct ex_deviceMajor ex_numeric_type_size ex_maxK
    ex_searchOne ex_reconstruct 3 ex_queries 1 ex_distances ex_labels
    ex_queries (ex_world 2 false (true, 32) 16 false) =
    (Throw NotTrained, ex_world 2 false (true, 32) 16 false) /\
  search_and_reconstruct ex_deviceMajor ex_numeric_type_size ex_maxK
    ex_searchOne ex_reconstruct 3 ex_queries 20000 ex_distances ex_labels
    ex_queries (ex_world 2 true (true, 32) 16 false) =
    (Throw InvalidK, ex_world 2 true (true, 32) 16 false).
Proof.
  split.
  - apply (search_and_reconstruct_errors ex_deviceMajor ex_numeric_type_size
             ex_maxK ex_searchOne ex_reconstruct 3 1 ex_queries ex_distances
             ex_labels ex_queries (ex_world 2 false (true, 32) 16 false)).
    reflexivity.
  - apply (search_and_reconstruct_errors ex_deviceMajor ex_numeric_type_size
             ex_maxK ex_searchOne ex_reconstruct 3 20000 ex_queries
             ex_distances ex_labels ex_queries
             (ex_world 2 true (true, 32) 16 false)); [reflexivity|].
    vm_compute. intros [_ H]. apply H. reflexivity.
Defined.
